(** * Tool-dispatch core of the AI agent: a shallow embedding

    The development follows [src/main.py] ([AIAgent._determine_tool],
    [AIAgent.process_request]), [src/tools/calculator.py] and
    [src/tools/file_reader.py].

    Python values are embedded as an inductive type, Python [str] as a list
    of Unicode code points, exceptions as explicit [outcome] and [result]
    types and the external collaborators (the chat-completion client,
    [eval], the file system, the float arithmetic of the interpreter) as
    fields of a [Runtime] record. *)

From Stdlib Require Import List NArith ZArith Bool String Ascii Lia.
Import ListNotations.

Local Open Scope N_scope.
Set Warnings "-register-all".

(** ** Python strings *)

Definition char := N.
Definition str := list char.

(** Text of a literal written in the source. *)
Definition lit (s : string) : str := map N_of_ascii (list_ascii_of_string s).

(** The same, with every apostrophe read as a double quote: used for the
    literals of the source that contain double quotes. *)
Definition dq (s : string) : str :=
  map (fun c => if c =? 39 then 34 else c) (lit s).

Fixpoint str_eqb (a b : str) : bool :=
  match a, b with
  | [], [] => true
  | x :: a', y :: b' => (x =? y) && str_eqb a' b'
  | _, _ => false
  end.

(** [str.isspace] on one code point. *)
Definition py_isspace (c : char) : bool :=
  ((9 <=? c) && (c <=? 13)) || ((28 <=? c) && (c <=? 32))
  || (c =? 133) || (c =? 160) || (c =? 5760)
  || ((8192 <=? c) && (c <=? 8202))
  || (c =? 8232) || (c =? 8233) || (c =? 8239) || (c =? 8287) || (c =? 12288).

Fixpoint lstrip (s : str) : str :=
  match s with
  | c :: r => if py_isspace c then lstrip r else s
  | [] => []
  end.

Fixpoint rstrip (s : str) : str :=
  match s with
  | [] => []
  | c :: r =>
      match rstrip r with
      | [] => if py_isspace c then [] else [c]
      | r' => c :: r'
      end
  end.

(** [s.strip()] *)
Definition strip (s : str) : str := rstrip (lstrip s).

(** [s.startswith(p)] *)
Fixpoint startswith (p s : str) : bool :=
  match p, s with
  | [], _ => true
  | x :: p', y :: s' => (x =? y) && startswith p' s'
  | _ :: _, [] => false
  end.

(** [s.endswith(p)] *)
Definition endswith (p s : str) : bool := startswith (rev p) (rev s).

(** [sub in s] for strings. *)
Fixpoint str_contains (sub s : str) : bool :=
  startswith sub s ||
  match s with
  | [] => false
  | _ :: r => str_contains sub r
  end.

(** [sep.join(parts)] *)
Fixpoint join {A : Type} (sep : list A) (parts : list (list A)) : list A :=
  match parts with
  | [] => []
  | [p] => p
  | p :: rest => p ++ sep ++ join sep rest
  end.

(** [s.replace(old, new)] for a one-character [old]. *)
Definition replace_char (old : char) (new : str) (s : str) : str :=
  flat_map (fun c => if c =? old then new else [c]) s.

(** Decimal text of a natural number, most significant digit first. *)
Fixpoint digits_fuel (fuel : nat) (n : N) : str :=
  match fuel with
  | O => [48 + n mod 10]
  | S f => if n <? 10 then [48 + n] else digits_fuel f (n / 10) ++ [48 + n mod 10]
  end.

Definition str_of_N (n : N) : str := digits_fuel (N.to_nat (N.size n)) n.

(** [str(z)] for a Python [int]. *)
Definition str_of_Z (z : Z) : str :=
  match z with
  | Zneg p => 45 :: str_of_N (Npos p)
  | _ => str_of_N (Z.to_N z)
  end.

Definition is_digit (c : char) : bool := (48 <=? c) && (c <=? 57).

(** Value of a run of decimal digits. *)
Definition N_of_digits (ds : str) : N :=
  fold_left (fun a c => 10 * a + (c - 48)) ds 0.

(** [int(text)] for the text of a JSON integer. *)
Definition Z_of_lexeme (l : str) : Z :=
  match l with
  | 45 :: ds => (- Z.of_N (N_of_digits ds))%Z
  | ds => Z.of_N (N_of_digits ds)
  end.

Definition hexdigit (d : N) : char := if d <? 10 then 48 + d else 87 + d.

(** Four lower-case hexadecimal digits, as in [\uXXXX]. *)
Definition hex4 (n : N) : str :=
  [hexdigit (n / 4096 mod 16); hexdigit (n / 256 mod 16);
   hexdigit (n / 16 mod 16); hexdigit (n mod 16)].

Definition hexval (c : char) : option N :=
  if is_digit c then Some (c - 48)
  else if (97 <=? c) && (c <=? 102) then Some (c - 87)
  else if (65 <=? c) && (c <=? 70) then Some (c - 55)
  else None.

(** ** Python values, exceptions and effects *)

(** The values that cross the agent's interfaces: what [json.loads] builds,
    what the tools receive and return.  [pyfloat] is the interpreter's
    binary floating-point type; its arithmetic is a parameter of the model
    (see [Runtime]).  A [dict] is an association list in insertion order,
    with distinct keys. *)
Inductive pyval (pyfloat : Type) : Type :=
| PNone
| PBool (b : bool)
| PInt (z : Z)
| PFloat (f : pyfloat)
| PStr (s : str)
| PList (l : list (pyval pyfloat))
| PDict (d : list (str * pyval pyfloat)).

Arguments PNone {pyfloat}.
Arguments PBool {pyfloat} b.
Arguments PInt {pyfloat} z.
Arguments PFloat {pyfloat} f.
Arguments PStr {pyfloat} s.
Arguments PList {pyfloat} l.
Arguments PDict {pyfloat} d.

Definition pydict (pyfloat : Type) := list (str * pyval pyfloat).

(** Exception classes below [Exception]; only the classes the source
    distinguishes in an [except] clause are told apart. *)
Inductive exc_class :=
| TypeError
| AttributeError
| ZeroDivisionError
| SyntaxError
| NameError
| FileNotFoundError
| PermissionError
| UnicodeDecodeError
| PdfReadError
| OtherError (name : str).

(** A raised exception below [Exception]: its class and [str(e)]. *)
Record exn := { exc_type : exc_class; exc_text : str }.

(** What a call does when it returns or raises an exception below
    [Exception], which an [except Exception] clause takes. *)
Inductive outcome (A : Type) : Type :=
| Returns (a : A)
| Raises (e : exn).

Arguments Returns {A} a.
Arguments Raises {A} e.

(** The classes that are not below [Exception]: an [except Exception] clause
    lets them pass.  [run_cli] names [KeyboardInterrupt] in a clause of its
    own. *)
Inductive exit_class :=
| SystemExit
| KeyboardInterrupt
| GeneratorExit
| OtherBaseException (name : str).

(** What a call does when it runs code that the program does not control:
    [eval] on the text of the model and the [execute] of a tool.  Such a call
    has an [outcome], or it is left by an exception that is not below
    [Exception].  An [outcome] is read as a [result] wherever a [result] is
    expected.  The calls of the client, of the file system and of the other
    libraries are taken to have an [outcome]: an interrupt of the process
    while such a call runs is not modelled. *)
Inductive result (A : Type) : Type :=
| Done (o : outcome A)
| Exits (x : exit_class).

Arguments Done {A} o.
Arguments Exits {A} x.

Coercion Done : outcome >-> result.

#[global] Arguments pair {A B}%_type_scope & _ _.

Inductive float_kind := FFinite | FNaN | FPosInf | FNegInf.

(** What happened during a request, in order. *)
Inductive event (pyfloat : Type) :=
| EvCompletion (messages : list (str * str))
| EvExecute (tool : str) (args : list (pyval pyfloat)).

Arguments EvCompletion {pyfloat} messages.
Arguments EvExecute {pyfloat} tool args.

(** Result of [eval] in the calculator. *)
Inductive eval_result (pyfloat : Type) :=
| EInt (z : Z)
| EBool (b : bool)
| EFloat (f : pyfloat)
| EObject (text : str).

Arguments EInt {pyfloat} z.
Arguments EBool {pyfloat} b.
Arguments EFloat {pyfloat} f.
Arguments EObject {pyfloat} text.

(** The interpreter and the outside world. *)
Record Runtime (pyfloat : Type) := {
  (* float(text) for the text of a JSON number or constant *)
  float_of_literal : str -> pyfloat;
  (* float(n); None is OverflowError *)
  float_of_int : Z -> option pyfloat;
  (* float.__repr__ *)
  float_repr : pyfloat -> str;
  float_class : pyfloat -> float_kind;
  (* bool(x) for a float *)
  float_truth : pyfloat -> bool;
  (* str.isprintable on a code point above 127 *)
  isprintable : char -> bool;
  (* text of the TypeError raised when a call does not match a signature:
     tool name, parameter names, supplied keywords *)
  call_error_text : str -> list str -> list str -> str;
  (* text of the TypeError of os.path.join on a non-string, by type name *)
  path_error_text : str -> str;
  (* client.chat.completions.create(...).choices[0].message.content *)
  chat_completion : list (str * str) -> outcome (pyval pyfloat);
  (* eval(expression, eval_globals, {}) *)
  py_eval : str -> result (eval_result pyfloat);
  (* os.getcwd() *)
  getcwd : str;
  fs_exists : str -> bool;
  fs_isfile : str -> bool;
  fs_getsize : str -> outcome N;
  (* open(path, 'r', encoding='utf-8').read(n) *)
  fs_read_text : str -> N -> outcome str;
  PYPDF2_AVAILABLE : bool;
  (* the text of all pages of a PDF, extracted and passed through
     _clean_pdf_text *)
  pdf_clean_text : str -> outcome str;
  (* WeatherFetcherTool.execute, which is network input and output *)
  weather_execute : pyval pyfloat -> outcome (pyval pyfloat)
}.

Arguments float_of_literal {pyfloat} _ _.
Arguments float_of_int {pyfloat} _ _.
Arguments float_repr {pyfloat} _ _.
Arguments float_class {pyfloat} _ _.
Arguments float_truth {pyfloat} _ _.
Arguments isprintable {pyfloat} _ _.
Arguments call_error_text {pyfloat} _ _ _ _.
Arguments path_error_text {pyfloat} _ _.
Arguments chat_completion {pyfloat} _ _.
Arguments py_eval {pyfloat} _ _.
Arguments getcwd {pyfloat} _.
Arguments fs_exists {pyfloat} _ _.
Arguments fs_isfile {pyfloat} _ _.
Arguments fs_getsize {pyfloat} _ _.
Arguments fs_read_text {pyfloat} _ _ _.
Arguments PYPDF2_AVAILABLE {pyfloat} _.
Arguments pdf_clean_text {pyfloat} _ _.
Arguments weather_execute {pyfloat} _ _.

(** A computation that may raise, with the events it performed. *)
Definition M (pyfloat A : Type) : Type := (list (event pyfloat) * result A)%type.

Definition ret {pyfloat A} (a : A) : M pyfloat A := ([], Returns a).

Definition raise {pyfloat A} (e : exn) : M pyfloat A := ([], Raises e).

Definition bind {pyfloat A B} (m : M pyfloat A) (k : A -> M pyfloat B) : M pyfloat B :=
  match m with
  | (t, Done (Returns a)) => let (t', r) := k a in (t ++ t', r)
  | (t, Done (Raises e)) => (t, Raises e)
  | (t, Exits x) => (t, Exits x)
  end.

(** [try: m except Exception as e: h e].  The handler takes the exceptions
    below [Exception]; [SystemExit], [KeyboardInterrupt] and the like pass
    through it. *)
Definition try_except {pyfloat A} (m : M pyfloat A) (h : exn -> M pyfloat A) : M pyfloat A :=
  match m with
  | (t, Done (Raises e)) => let (t', r) := h e in (t ++ t', r)
  | other => other
  end.

Definition emit {pyfloat} (ev : event pyfloat) : M pyfloat unit := ([ev], Returns tt).

Definition lift {pyfloat A} (o : result A) : M pyfloat A := ([], o).

Notation "x <- m ;; k" := (bind m (fun x => k))
  (at level 61, m at next level, right associativity).
Notation "m ;;; k" := (bind m (fun _ => k))
  (at level 61, right associativity).

(** A tool object: the properties of [BaseTool] and the signature of its
    [execute] method ([self] left out, as [inspect.signature] reports it for
    a bound method). *)
Record Tool (pyfloat : Type) := {
  name : str;
  description : str;
  execute_params : list str;
  execute : list (pyval pyfloat) -> result (pyval pyfloat)
}.

Arguments name {pyfloat} _.
Arguments description {pyfloat} _.
Arguments execute_params {pyfloat} _.
Arguments execute {pyfloat} _ _.

(** The agent object: [self.tools], in insertion order. *)
Record AIAgent (pyfloat : Type) := {
  tools : list (str * Tool pyfloat)
}.

Arguments tools {pyfloat} _.

(** ** Dictionaries *)

Section Dict.
Context {V : Type}.

(** [d.get(k)] *)
Fixpoint dict_get (k : str) (d : list (str * V)) : option V :=
  match d with
  | [] => None
  | (k', v) :: r => if str_eqb k' k then Some v else dict_get k r
  end.

(** [d[k] = v]: an existing key keeps its place. *)
Fixpoint dict_set (k : str) (v : V) (d : list (str * V)) : list (str * V) :=
  match d with
  | [] => [(k, v)]
  | (k', v') :: r => if str_eqb k' k then (k', v) :: r else (k', v') :: dict_set k v r
  end.

(** [k in d] *)
Definition dict_mem (k : str) (d : list (str * V)) : bool :=
  match dict_get k d with Some _ => true | None => false end.

(** [list(d.keys())] *)
Definition dict_keys (d : list (str * V)) : list str := map fst d.

(** [dict(pairs)] *)
Definition dict_of_pairs (ps : list (str * V)) : list (str * V) :=
  fold_left (fun d kv => dict_set (fst kv) (snd kv) d) ps [].
End Dict.

(** ** JSON text: the scanner of [json.loads]

    The scanner reads the text one code point at a time.  It accepts what
    the decoder of the [json] module accepts: the JSON grammar, the constants
    [NaN], [Infinity] and [-Infinity], strings in strict mode (no control
    character), [\uXXXX] escapes with UTF-16 surrogate pairs joined. *)

Inductive token :=
| TLBrace | TRBrace | TLBracket | TRBracket | TColon | TComma
| TString (s : str)
| TInt (z : Z)
| TFloat (lexeme : str)
| TTrue | TFalse | TNull.

(** Where the scanner is inside a number: an optional minus sign, an integer
    part without leading zero, an optional fraction (a dot and digits) and
    an optional exponent (e or E, an optional sign, digits). *)
Inductive num_state := NMinus | NZero | NInt | NDot | NFrac | NE | NESign | NExp.

Inductive lex_mode :=
| LIdle
| LNum (st : num_state) (acc : str)
| LLit (rest : str) (tok : token)
| LStr (acc : str) (hi : option char)
| LEsc (acc : str) (hi : option char)
| LUni (acc : str) (hi : option char) (k : nat) (v : N).

(** The accumulators [acc] hold the text read so far, last character first;
    [hi] is a high surrogate read from an escape and not yet paired. *)
Definition lstate := (lex_mode * list token)%type.

Definition is_high_surrogate (c : char) : bool := (55296 <=? c) && (c <=? 56319).
Definition is_low_surrogate (c : char) : bool := (56320 <=? c) && (c <=? 57343).
Definition join_surrogates (h l : char) : char :=
  65536 + (h - 55296) * 1024 + (l - 56320).

Definition push_hi (hi : option char) (acc : str) : str :=
  match hi with Some h => h :: acc | None => acc end.

Definition is_json_ws (c : char) : bool :=
  (c =? 32) || (c =? 9) || (c =? 10) || (c =? 13).

Definition lex_idle (toks : list token) (c : char) : option lstate :=
  if is_json_ws c then Some (LIdle, toks)
  else if c =? 123 then Some (LIdle, TLBrace :: toks)
  else if c =? 125 then Some (LIdle, TRBrace :: toks)
  else if c =? 91 then Some (LIdle, TLBracket :: toks)
  else if c =? 93 then Some (LIdle, TRBracket :: toks)
  else if c =? 58 then Some (LIdle, TColon :: toks)
  else if c =? 44 then Some (LIdle, TComma :: toks)
  else if c =? 34 then Some (LStr [] None, toks)
  else if c =? 45 then Some (LNum NMinus [c], toks)
  else if c =? 48 then Some (LNum NZero [c], toks)
  else if is_digit c then Some (LNum NInt [c], toks)
  else if c =? 116 then Some (LLit (lit "rue") TTrue, toks)
  else if c =? 102 then Some (LLit (lit "alse") TFalse, toks)
  else if c =? 110 then Some (LLit (lit "ull") TNull, toks)
  else if c =? 78 then Some (LLit (lit "aN") (TFloat (lit "NaN")), toks)
  else if c =? 73 then Some (LLit (lit "nfinity") (TFloat (lit "Infinity")), toks)
  else None.

(** The token of a number whose text is complete, if it is. *)
Definition num_token (st : num_state) (acc : str) : option token :=
  match st with
  | NZero | NInt => Some (TInt (Z_of_lexeme (rev acc)))
  | NFrac | NExp => Some (TFloat (rev acc))
  | _ => None
  end.

Definition is_exp_char (c : char) : bool := (c =? 101) || (c =? 69).

(** The number state after [c], if [c] continues the number. *)
Definition num_next (st : num_state) (c : char) : option num_state :=
  match st with
  | NMinus => if c =? 48 then Some NZero else if is_digit c then Some NInt else None
  | NZero => if c =? 46 then Some NDot else if is_exp_char c then Some NE else None
  | NInt => if is_digit c then Some NInt else if c =? 46 then Some NDot
            else if is_exp_char c then Some NE else None
  | NDot => if is_digit c then Some NFrac else None
  | NFrac => if is_digit c then Some NFrac else if is_exp_char c then Some NE else None
  | NE => if is_digit c then Some NExp
          else if (c =? 43) || (c =? 45) then Some NESign else None
  | NESign => if is_digit c then Some NExp else None
  | NExp => if is_digit c then Some NExp else None
  end.

(** A code unit read from [\uXXXX], after a possible pending high surrogate. *)
Definition lex_unit (acc : str) (hi : option char) (v : N) : lex_mode :=
  match hi with
  | Some h =>
      if is_low_surrogate v then LStr (join_surrogates h v :: acc) None
      else if is_high_surrogate v then LStr (h :: acc) (Some v)
      else LStr (v :: h :: acc) None
  | None =>
      if is_high_surrogate v then LStr acc (Some v) else LStr (v :: acc) None
  end.

Definition unescape (c : char) : option char :=
  if c =? 34 then Some 34
  else if c =? 92 then Some 92
  else if c =? 47 then Some 47
  else if c =? 98 then Some 8
  else if c =? 102 then Some 12
  else if c =? 110 then Some 10
  else if c =? 114 then Some 13
  else if c =? 116 then Some 9
  else None.

Definition lex_step (st : lstate) (c : char) : option lstate :=
  let (mode, toks) := st in
  match mode with
  | LIdle => lex_idle toks c
  | LNum ns acc =>
      match num_next ns c with
      | Some ns' => Some (LNum ns' (c :: acc), toks)
      | None =>
          match ns with
          | NMinus =>
              if c =? 73
              then Some (LLit (lit "nfinity") (TFloat (lit "-Infinity")), toks)
              else None
          | _ =>
              match num_token ns acc with
              | Some tok => lex_idle (tok :: toks) c
              | None => None
              end
          end
      end
  | LLit rest tok =>
      match rest with
      | x :: rest' =>
          if c =? x
          then match rest' with
               | [] => Some (LIdle, tok :: toks)
               | _ => Some (LLit rest' tok, toks)
               end
          else None
      | [] => None
      end
  | LStr acc hi =>
      if c =? 34 then Some (LIdle, TString (rev (push_hi hi acc)) :: toks)
      else if c =? 92 then Some (LEsc acc hi, toks)
      else if c <? 32 then None
      else Some (LStr (c :: push_hi hi acc) None, toks)
  | LEsc acc hi =>
      if c =? 117 then Some (LUni acc hi 0 0, toks)
      else match unescape c with
           | Some x => Some (LStr (x :: push_hi hi acc) None, toks)
           | None => None
           end
  | LUni acc hi k v =>
      match hexval c with
      | Some d =>
          let v' := 16 * v + d in
          match k with
          | 3%nat => Some (lex_unit acc hi v', toks)
          | _ => Some (LUni acc hi (S k) v', toks)
          end
      | None => None
      end
  end.

Fixpoint lex_run (st : lstate) (s : str) : option lstate :=
  match s with
  | [] => Some st
  | c :: r =>
      match lex_step st c with
      | Some st' => lex_run st' r
      | None => None
      end
  end.

(** End of the text: a number may be pending, anything else is an error. *)
Definition lex_flush (st : lstate) : option lstate :=
  let (mode, toks) := st in
  match mode with
  | LIdle => Some st
  | LNum ns acc =>
      match num_token ns acc with
      | Some tok => Some (LIdle, tok :: toks)
      | None => None
      end
  | _ => None
  end.

Definition lex (s : str) : option (list token) :=
  match lex_run (LIdle, []) s with
  | Some st =>
      match lex_flush st with
      | Some (_, toks) => Some (rev toks)
      | None => None
      end
  | None => None
  end.

(** ** The model of the program *)

Section Agent.
Context {pyfloat : Type} (rt : Runtime pyfloat).

Abbreviation value := (pyval pyfloat).

(** *** [json.loads] *)

Fixpoint parse_value (fuel : nat) (ts : list token) : option (value * list token) :=
  match fuel with
  | O => None
  | S f =>
      match ts with
      | TNull :: r => Some (PNone, r)
      | TTrue :: r => Some (PBool true, r)
      | TFalse :: r => Some (PBool false, r)
      | TInt z :: r => Some (PInt z, r)
      | TFloat l :: r => Some (PFloat (float_of_literal rt l), r)
      | TString s :: r => Some (PStr s, r)
      | TLBracket :: TRBracket :: r => Some (PList [], r)
      | TLBracket :: r =>
          match parse_elements f r [] with
          | Some (l, r') => Some (PList l, r')
          | None => None
          end
      | TLBrace :: TRBrace :: r => Some (PDict [], r)
      | TLBrace :: r =>
          match parse_members f r [] with
          | Some (ps, r') => Some (PDict (dict_of_pairs ps), r')
          | None => None
          end
      | _ => None
      end
  end
with parse_elements (fuel : nat) (ts : list token) (acc : list value)
     : option (list value * list token) :=
  match fuel with
  | O => None
  | S f =>
      match parse_value f ts with
      | Some (v, TComma :: r) => parse_elements f r (v :: acc)
      | Some (v, TRBracket :: r) => Some (rev (v :: acc), r)
      | _ => None
      end
  end
with parse_members (fuel : nat) (ts : list token) (acc : list (str * value))
     : option (list (str * value) * list token) :=
  match fuel with
  | O => None
  | S f =>
      match ts with
      | TString k :: TColon :: r =>
          match parse_value f r with
          | Some (v, TComma :: r') => parse_members f r' ((k, v) :: acc)
          | Some (v, TRBrace :: r') => Some (rev ((k, v) :: acc), r')
          | _ => None
          end
      | _ => None
      end
  end.

(** [json.loads(s)]; [None] is [json.JSONDecodeError].  The limits of the
    interpreter (recursion depth, digits of an integer) are not modelled. *)
Definition json_loads (s : str) : option value :=
  match lex s with
  | Some ts =>
      match parse_value (S (List.length ts)) ts with
      | Some (v, []) => Some v
      | _ => None
      end
  | None => None
  end.

(** *** [json.dumps] with its default arguments *)

Definition escape_char (c : char) : str :=
  if c =? 34 then [92; 34]
  else if c =? 92 then [92; 92]
  else if c =? 10 then [92; 110]
  else if c =? 13 then [92; 114]
  else if c =? 9 then [92; 116]
  else if c =? 12 then [92; 102]
  else if c =? 8 then [92; 98]
  else if (32 <=? c) && (c <=? 126) then [c]
  else if c <? 65536 then 92 :: 117 :: hex4 c
  else 92 :: 117 :: hex4 (55296 + (c - 65536) / 1024)
       ++ 92 :: 117 :: hex4 (56320 + (c - 65536) mod 1024).

Definition encode_str (s : str) : str := 34 :: flat_map escape_char s ++ [34].

Definition floatstr (f : pyfloat) : str :=
  match float_class rt f with
  | FNaN => lit "NaN"
  | FPosInf => lit "Infinity"
  | FNegInf => lit "-Infinity"
  | FFinite => float_repr rt f
  end.

Fixpoint json_dumps (v : value) : str :=
  match v with
  | PNone => lit "null"
  | PBool true => lit "true"
  | PBool false => lit "false"
  | PInt z => str_of_Z z
  | PFloat f => floatstr f
  | PStr s => encode_str s
  | PList l => 91 :: join (lit ", ") (map json_dumps l) ++ [93]
  | PDict d =>
      123 :: join (lit ", ")
               (map (fun kv => encode_str (fst kv) ++ lit ": " ++ json_dumps (snd kv)) d)
      ++ [125]
  end.

(** *** [str], [repr], truth and type names *)

Definition hex2 (n : N) : str := [hexdigit (n / 16 mod 16); hexdigit (n mod 16)].

Definition repr_char (quote : char) (c : char) : str :=
  if (c =? quote) || (c =? 92) then [92; c]
  else if c =? 9 then [92; 116]
  else if c =? 10 then [92; 110]
  else if c =? 13 then [92; 114]
  else if (c <? 32) || (c =? 127) then 92 :: 120 :: hex2 c
  else if c <? 127 then [c]
  else if isprintable rt c then [c]
  else if c <? 256 then 92 :: 120 :: hex2 c
  else if c <? 65536 then 92 :: 117 :: hex4 c
  else 92 :: 85 :: hex4 (c / 65536) ++ hex4 (c mod 65536).

(** [repr(s)] for a string. *)
Definition repr_str (s : str) : str :=
  let quote := if existsb (N.eqb 39) s && negb (existsb (N.eqb 34) s)
               then 34 else 39 in
  quote :: flat_map (repr_char quote) s ++ [quote].

Fixpoint py_repr (v : value) : str :=
  match v with
  | PNone => lit "None"
  | PBool true => lit "True"
  | PBool false => lit "False"
  | PInt z => str_of_Z z
  | PFloat f => float_repr rt f
  | PStr s => repr_str s
  | PList l => 91 :: join (lit ", ") (map py_repr l) ++ [93]
  | PDict d =>
      123 :: join (lit ", ")
               (map (fun kv => repr_str (fst kv) ++ lit ": " ++ py_repr (snd kv)) d)
      ++ [125]
  end.

(** [str(v)], which is what an f-string inserts. *)
Definition py_str (v : value) : str :=
  match v with
  | PStr s => s
  | _ => py_repr v
  end.

(** [bool(v)] *)
Definition py_truth (v : value) : bool :=
  match v with
  | PNone => false
  | PBool b => b
  | PInt z => negb (z =? 0)%Z
  | PFloat f => float_truth rt f
  | PStr s => match s with [] => false | _ => true end
  | PList l => match l with [] => false | _ => true end
  | PDict d => match d with [] => false | _ => true end
  end.

(** [type(v).__name__] *)
Definition type_name (v : value) : str :=
  match v with
  | PNone => lit "NoneType"
  | PBool _ => lit "bool"
  | PInt _ => lit "int"
  | PFloat _ => lit "float"
  | PStr _ => lit "str"
  | PList _ => lit "list"
  | PDict _ => lit "dict"
  end.

(** [v == s] for a string [s]. *)
Definition eq_str (v : value) (s : str) : bool :=
  match v with
  | PStr t => str_eqb t s
  | _ => false
  end.

(** [isinstance(v, dict)] *)
Definition is_dict (v : value) : bool :=
  match v with PDict _ => true | _ => false end.

(** Lists and dicts cannot be hashed. *)
Definition hashable (v : value) : bool :=
  match v with PList _ | PDict _ => false | _ => true end.


(** *** [os.path] on a POSIX system *)

Definition slash : str := [47].

(** [os.path.isabs] *)
Definition isabs (p : str) : bool := startswith slash p.

(** [os.path.join(a, b)] *)
Definition path_join (a b : str) : str :=
  if startswith slash b then b
  else match a with
       | [] => b
       | _ => if endswith slash a then a ++ b else a ++ slash ++ b
       end.

(** [s.split(sep)] for a one-character separator. *)
Fixpoint split_char (sep : char) (s : str) : list str :=
  match s with
  | [] => [[]]
  | c :: r =>
      match split_char sep r with
      | [] => [[]]
      | w :: ws => if c =? sep then [] :: w :: ws else (c :: w) :: ws
      end
  end.

(** One round of the loop of [posixpath.normpath]. *)
Definition norm_step (initial_slashes : nat) (new_comps : list str) (comp : str)
  : list str :=
  if str_eqb comp [] || str_eqb comp (lit ".") then new_comps
  else if negb (str_eqb comp (lit ".."))
          || (Nat.eqb initial_slashes 0 && match new_comps with [] => true | _ => false end)
          || (match new_comps with [] => false | _ => str_eqb (last new_comps []) (lit "..") end)
  then new_comps ++ [comp]
  else removelast new_comps.

(** [os.path.normpath] *)
Definition normpath (path : str) : str :=
  match path with
  | [] => lit "."
  | _ =>
      let initial_slashes :=
        if startswith slash path
        then if startswith (lit "//") path && negb (startswith (lit "///") path)
             then 2%nat else 1%nat
        else 0%nat in
      let new_comps := fold_left (norm_step initial_slashes) (split_char 47 path) [] in
      let p := repeat 47 initial_slashes ++ join slash new_comps in
      match p with [] => lit "." | _ => p end
  end.

(** [os.path.abspath] *)
Definition abspath (p : str) : str :=
  normpath (if isabs p then p else path_join (getcwd rt) p).

Definition ascii_lower (c : char) : char :=
  if (65 <=? c) && (c <=? 90) then c + 32 else c.

(** The text after the last slash. *)
Definition basename (p : str) : str := last (split_char 47 p) [].

(** [os.path.splitext(p)[1]]: from the last dot of the base name, unless
    only dots come before it. *)
Definition splitext_ext (p : str) : str :=
  let parts := split_char 46 (basename p) in
  match parts with
  | [] | [_] => []
  | _ => if forallb (fun w => match w with [] => true | _ => false end) (removelast parts)
         then []
         else 46 :: last parts []
  end.


(** *** [AIAgent._determine_tool]: interpreting the reply *)

(** The shortest prefix that ends with a closing brace. *)
Fixpoint upto_close (s : str) : option str :=
  match s with
  | [] => None
  | c :: r =>
      if c =? 125 then Some [c]
      else match upto_close r with
           | Some m => Some (c :: m)
           | None => None
           end
  end.

(** [re.search(r"\{.*?\}", s, re.DOTALL).group(0)]: the leftmost opening
    brace that has a closing brace after it, up to the first such one. *)
Fixpoint brace_span (s : str) : option str :=
  match s with
  | [] => None
  | c :: r =>
      if c =? 123
      then match upto_close r with
           | Some m => Some (c :: m)
           | None => brace_span r
           end
      else brace_span r
  end.

Definition fence_json : str := lit "```json".
Definition fence : str := lit "```".

(** The cleaning steps of lines 128-137. *)
Definition clean_response (raw : str) : str :=
  let c := strip raw in
  let c := if startswith fence_json c then strip (skipn 7 c)
           else if startswith fence c then strip (skipn 3 c)
           else c in
  if endswith fence c then strip (firstn (List.length c - 3) c) else c.

Definition decision (tool : str) (parameters : pydict pyfloat) : value :=
  PDict [(lit "tool", PStr tool); (lit "parameters", PDict parameters)].

Definition parse_error_fallback (raw : str) : value :=
  decision (lit "error_parsing_llm_response")
    [(lit "details", PStr (lit "Could not parse JSON from LLM after cleaning and fallback."));
     (lit "raw_content", PStr raw)].

Definition parse_error_nothing (raw : str) : value :=
  decision (lit "error_parsing_llm_response")
    [(lit "details", PStr (lit "Could not parse JSON from LLM, and fallback regex found nothing."));
     (lit "raw_content", PStr raw)].

Definition structure_error (result : value) : value :=
  decision (lit "error_invalid_llm_response_structure")
    [(lit "details", PStr (lit "LLM response not a dict or missing 'tool' key."));
     (lit "parsed_content", result)].

Definition determination_error (e : exn) : value :=
  decision (lit "error_in_tool_determination") [(lit "details", PStr (exc_text e))].

(** Lines 167-174: the structure check on a parsed reply. *)
Definition validate (result : value) : value :=
  match result with
  | PDict d => if dict_mem (lit "tool") d then result else structure_error result
  | _ => structure_error result
  end.

(** Lines 123-174 of [_determine_tool], for a reply that is a [str]. *)
Definition interpret (raw_response_content : str) : value :=
  match json_loads (clean_response raw_response_content) with
  | Some result => validate result
  | None =>
      match brace_span raw_response_content with
      | Some json_str_fallback =>
          match json_loads json_str_fallback with
          | Some result => validate result
          | None => parse_error_fallback raw_response_content
          end
      | None => parse_error_nothing raw_response_content
      end
  end.

(** [AIAgent._get_tool_descriptions] *)
Definition _get_tool_descriptions (self : AIAgent pyfloat) : str :=
  join [10]
    (map (fun kt => lit "- " ++ name (snd kt) ++ lit ": " ++ description (snd kt))
         (tools self)).

Definition system_message : str :=
  join [10]
    [lit "You are a helpful AI assistant. You have access to several tools.";
     lit "Based on the user's request, you need to decide which tool to use.";
     lit "Respond ONLY with a valid JSON object with 'tool' and 'parameters' keys.";
     lit "'tool' should be the name of the tool to use.";
     lit "'parameters' should be an object with the arguments for the tool.";
     lit "If no tool is appropriate, respond with 'tool': 'no_tool_needed'.";
     lit "Available tools are: calculator, file_reader, weather_fetcher."].

Definition prompt_content (self : AIAgent pyfloat) (user_input : str) : str :=
  join [10]
    [lit "Available tools:";
     _get_tool_descriptions self;
     [];
     dq "User request: '" ++ user_input ++ dq "'";
     [];
     lit "Which tool should be used to respond to this user request?";
     dq "If a tool is appropriate, respond with a JSON object with 'tool' and 'parameters' keys.";
     dq "The 'tool' key should be one of [" ++ join (lit ", ") (dict_keys (tools self)) ++ lit "].";
     dq "The 'parameters' key should be an object containing the arguments for the selected tool, based on its description and the user query.";
     lit "If no tool is suitable for the user's request, respond with:";
     dq "{'tool': 'no_tool_needed', 'parameters': {'original_query': '" ++ user_input ++ dq "'}}";
     [];
     lit "Respond ONLY with the JSON object. Do not add any explanations or surrounding text."].

Definition no_attribute (v : value) (attr : str) : exn :=
  {| exc_type := AttributeError;
     exc_text := lit "'" ++ type_name v ++ lit "' object has no attribute '" ++ attr ++ lit "'" |}.

(** The two messages sent to the client. *)
Definition request_messages (self : AIAgent pyfloat) (user_input : str)
  : list (str * str) :=
  [(lit "system", system_message); (lit "user", prompt_content self user_input)].

(** [AIAgent._determine_tool] *)
Definition _determine_tool (self : AIAgent pyfloat) (user_input : str)
  : M pyfloat value :=
  let messages := request_messages self user_input in
  try_except
    (emit (EvCompletion messages) ;;;
     raw_response_content <- lift (chat_completion rt messages) ;;
     match raw_response_content with
     | PStr raw => ret (interpret raw)
     | other => raise (no_attribute other (lit "strip"))
     end)
    (fun e => ret (determination_error e)).


(** *** [CalculatorTool] *)

(** The character class of the validation regex:
    letters, digits, whitespace and [_ . + - * / ( ) ^ %]. *)
Definition calc_char_ok (c : char) : bool :=
  ((97 <=? c) && (c <=? 122)) || ((65 <=? c) && (c <=? 90)) || is_digit c
  || py_isspace c
  || existsb (N.eqb c) [95; 46; 43; 45; 42; 47; 40; 41; 94; 37].

Definition class_name (c : exc_class) : str :=
  match c with
  | TypeError => lit "TypeError"
  | AttributeError => lit "AttributeError"
  | ZeroDivisionError => lit "ZeroDivisionError"
  | SyntaxError => lit "SyntaxError"
  | NameError => lit "NameError"
  | FileNotFoundError => lit "FileNotFoundError"
  | PermissionError => lit "PermissionError"
  | UnicodeDecodeError => lit "UnicodeDecodeError"
  | PdfReadError => lit "PdfReadError"
  | OtherError n => n
  end.

Definition calc_error (expression : str) (e : exn) : str :=
  match exc_type e with
  | ZeroDivisionError => lit "Error: Cannot divide by zero."
  | SyntaxError => lit "Error: Invalid syntax in expression: '" ++ expression ++ lit "'."
  | NameError =>
      lit "Error: Unknown function or variable in expression: '" ++ expression
      ++ lit "'. Details: " ++ exc_text e
  | TypeError =>
      lit "Error: Type error in expression '" ++ expression
      ++ lit "'. Check function arguments. Details: " ++ exc_text e
  | c =>
      lit "Error calculating expression '" ++ expression ++ lit "': " ++ exc_text e
      ++ lit " (Type: " ++ class_name c ++ lit ")"
  end.

Definition overflow_error : exn :=
  {| exc_type := OtherError (lit "OverflowError");
     exc_text := lit "int too large to convert to float" |}.

(** [float(result)] for an [int] or a [bool]. *)
Definition to_float (expression : str) (z : Z) : value :=
  match float_of_int rt z with
  | Some f => PFloat f
  | None => PStr (calc_error expression overflow_error)
  end.

(** [CalculatorTool.execute].  The handlers of lines 73-81 take the
    exceptions below [Exception] that [eval] raises; any other exception
    leaves the method. *)
Definition CalculatorTool_execute (expression : value) : result value :=
  match expression with
  | PStr e =>
      match strip e with
      | [] => Returns (PStr (lit "Error: Empty expression provided."))
      | _ =>
          if negb (forallb calc_char_ok e)
          then Returns (PStr (lit "Error: Expression '" ++ e
                              ++ lit "' contains invalid characters."))
          else
            let processed_expression := replace_char 94 (lit "**") e in
            match py_eval rt processed_expression with
            | Done (Returns (EInt z)) => Returns (to_float e z)
            | Done (Returns (EBool b)) => Returns (to_float e (if b then 1 else 0)%Z)
            | Done (Returns (EFloat f)) => Returns (PFloat f)
            | Done (Returns (EObject text)) =>
                Returns (PStr (lit "Error: Expression did not evaluate to a number. Result: "
                               ++ text))
            | Done (Raises ex) => Returns (PStr (calc_error e ex))
            | Exits x => Exits x
            end
      end
  | other => Raises (no_attribute other (lit "strip"))
  end.

(** *** [FileReaderTool] *)

Definition FILE_READ_BASE_PATH : str := getcwd rt.
Definition MAX_FILE_SIZE_BYTES : N := 1024 * 1024.
Definition MAX_CHARS_RETURN : N := 10000.

Definition msg_required : str := lit "Error: File path parameter is required.".
Definition msg_denied : str := lit "Error: Access denied. Path is outside allowed directory.".
Definition msg_dotdot : str := lit "Error: Path should not contain '..'.".
Definition msg_absolute : str := lit "Error: Absolute file paths are not allowed.".

(** Lines 146-155: truncation and the check for empty content. *)
Definition deliver (file_path content : str) : str :=
  if MAX_CHARS_RETURN <? N.of_nat (List.length content)
  then firstn (N.to_nat MAX_CHARS_RETURN) content
       ++ [10] ++ lit "... (file content truncated at 10000 characters)"
  else match strip content with
       | [] => lit "Info: File '" ++ file_path
               ++ lit "' is empty or contains no extractable/readable text content after processing."
       | _ => content
       end.

(** The handlers of the outer [try] of lines 91-167. *)
Definition read_error (file_path : str) (e : exn) : str :=
  match exc_type e with
  | FileNotFoundError => lit "Error: File not found at '" ++ file_path ++ lit "'."
  | PermissionError => lit "Error: Permission denied for file '" ++ file_path ++ lit "'."
  | _ => lit "Unexpected error reading file '" ++ file_path ++ lit "': " ++ exc_text e
  end.

(** Lines 91-167: reading the file once the path has been accepted. *)
Definition read_file (file_path absolute_filepath : str) : str :=
  if negb (fs_exists rt absolute_filepath)
  then lit "Error: File not found at '" ++ file_path ++ lit "' (resolved: '"
       ++ absolute_filepath ++ lit "')"
  else if negb (fs_isfile rt absolute_filepath)
  then lit "Error: Path '" ++ file_path ++ lit "' is not a file."
  else
    match fs_getsize rt absolute_filepath with
    | Raises e => read_error file_path e
    | Returns size =>
        if MAX_FILE_SIZE_BYTES <? size
        then lit "Error: File '" ++ file_path ++ lit "' too large (>1.0MB)."
        else if str_eqb (map ascii_lower (splitext_ext absolute_filepath)) (lit ".pdf")
        then
          if negb (PYPDF2_AVAILABLE rt)
          then lit "Error: Cannot read PDF. PyPDF2 library is not installed. Please install it (e.g., pip install PyPDF2)."
          else
            match pdf_clean_text rt absolute_filepath with
            | Returns content =>
                match strip content with
                | [] => lit "Info: PDF file '" ++ file_path
                        ++ lit "' was read, but no text content could be extracted or remained after cleaning (it might be an image-based PDF or empty)."
                | _ => deliver file_path content
                end
            | Raises e =>
                match exc_type e with
                | PdfReadError =>
                    lit "Error reading PDF '" ++ file_path
                    ++ lit "': Invalid or corrupted PDF file. Details: " ++ exc_text e
                | _ => lit "Error processing PDF file '" ++ file_path ++ lit "': "
                       ++ exc_text e
                end
            end
        else
          match fs_read_text rt absolute_filepath (MAX_CHARS_RETURN + 1) with
          | Returns content => deliver file_path content
          | Raises e =>
              match exc_type e with
              | UnicodeDecodeError =>
                  lit "Error: Could not decode file '" ++ file_path
                  ++ lit "' using UTF-8. It might be a binary file of an unsupported type or use a different encoding."
              | _ => lit "Error reading text file '" ++ file_path ++ lit "': "
                     ++ exc_text e
              end
          end
    end.

(** [FileReaderTool.execute] *)
Definition FileReaderTool_execute (file_path : value) : outcome value :=
  if negb (py_truth file_path) then Returns (PStr msg_required)
  else
    match file_path with
    | PStr p =>
        let absolute_filepath := abspath (path_join FILE_READ_BASE_PATH p) in
        if negb (startswith (abspath FILE_READ_BASE_PATH) absolute_filepath)
        then Returns (PStr msg_denied)
        else if str_contains (lit "..") p then Returns (PStr msg_dotdot)
        else if isabs p then Returns (PStr msg_absolute)
        else Returns (PStr (read_file p absolute_filepath))
    | other =>
        Returns (PStr (lit "Error processing file_path '" ++ py_str other ++ lit "': "
                       ++ path_error_text rt (type_name other)))
    end.

(** *** The tool objects and the agent *)

Definition on_one_argument (f : value -> result value) (args : list value)
  : result value :=
  match args with
  | [x] => f x
  | _ => Raises {| exc_type := TypeError; exc_text := [] |}
  end.

Definition CalculatorTool : Tool pyfloat :=
  {| name := lit "calculator";
     description := lit "Performs basic arithmetic calculations. Input should be a single string expression like '5 + 3' or '10 * 2 / (4 - 2)'.";
     execute_params := [lit "expression"];
     execute := on_one_argument CalculatorTool_execute |}.

Definition FileReaderTool : Tool pyfloat :=
  {| name := lit "file_reader";
     description :=
       lit "Reads content from specified files. Supports plain text and PDF. Use 'file_path' for relative path. Max content returned: 10000 chars."
       ++ (if PYPDF2_AVAILABLE rt then []
           else lit " (PDF support potentially limited or disabled due to missing PyPDF2 library)");
     execute_params := [lit "file_path"];
     execute := on_one_argument (fun file_path => FileReaderTool_execute file_path) |}.

Definition WeatherFetcherTool : Tool pyfloat :=
  {| name := lit "weather_fetcher";
     description := lit "Fetches the current weather for a specific city. Provide the full city name (e.g., 'New Delhi', 'London', 'Washington D.C.'). Avoid abbreviations (like 'DC') or state/country names as they may not be recognized or may yield unintended results. The tool uses the WEATHER_API_KEY from the environment. Only provide the 'city' parameter.";
     execute_params := [lit "city"];
     execute := on_one_argument (fun city => weather_execute rt city) |}.

(** [self.tools] as [AIAgent.__init__] builds it. *)
Definition AIAgent_init : AIAgent pyfloat :=
  {| tools := [(lit "calculator", CalculatorTool);
               (lit "file_reader", FileReaderTool);
               (lit "weather_fetcher", WeatherFetcherTool)] |}.

(** *** [AIAgent.process_request] *)

(** Binding keyword arguments to parameters that are all required: every
    keyword must name a parameter and every parameter must be given. *)
Fixpoint lookup_all (params : list str) (kwargs : pydict pyfloat) : option (list value) :=
  match params with
  | [] => Some []
  | p :: ps =>
      match dict_get p kwargs, lookup_all ps kwargs with
      | Some v, Some vs => Some (v :: vs)
      | _, _ => None
      end
  end.

Definition bind_kwargs (params : list str) (kwargs : pydict pyfloat) : option (list value) :=
  if forallb (fun k => existsb (str_eqb k) params) (dict_keys kwargs)
  then lookup_all params kwargs
  else None.

(** The call of [tool.execute] with [parameters] as keyword arguments. *)
Definition call_execute (tool : Tool pyfloat) (parameters : pydict pyfloat)
  : M pyfloat value :=
  match bind_kwargs (execute_params tool) parameters with
  | Some args => emit (EvExecute (name tool) args) ;;; lift (execute tool args)
  | None =>
      raise {| exc_type := TypeError;
               exc_text := call_error_text rt (name tool) (execute_params tool)
                             (dict_keys parameters) |}
  end.

(** [l.remove(x)] when [x] is in [l]. *)
Fixpoint remove_first (x : str) (l : list str) : list str :=
  match l with
  | [] => []
  | y :: r => if str_eqb y x then r else y :: remove_first x r
  end.

Definition error_sentinels : list str :=
  [lit "error_parsing_llm_response"; lit "error_in_tool_determination";
   lit "error_invalid_llm_response_structure"].

Definition msg_no_tool : str :=
  lit "I've processed your request. No specific tool was needed, or I couldn't determine one. How else can I help?".

Definition msg_trouble (error_details : value) : str :=
  lit "Sorry, I had trouble deciding which tool to use. Details: " ++ py_str error_details.

Definition msg_unknown_tool (tool_name : value) : str :=
  lit "Sorry, I don't know how to use the tool '" ++ py_str tool_name
  ++ lit "' or it's not available.".

Definition msg_incorrect_parameters (tool_name : value) (tool : Tool pyfloat)
  (parameters : pydict pyfloat) (te : exn) : str :=
  let expected_params := remove_first (lit "self") (execute_params tool) in
  lit "Error using tool " ++ py_str tool_name ++ lit ": incorrect parameters. Expected: "
  ++ py_repr (PList (map PStr expected_params)) ++ lit ". Got: "
  ++ py_repr (PList (map PStr (dict_keys parameters))) ++ lit ". Details: " ++ exc_text te.

Definition msg_tool_error (tool_name : value) (e : exn) : str :=
  lit "Sorry, an error occurred while using the " ++ py_str tool_name ++ lit " tool: "
  ++ exc_text e.

Definition msg_unexpected (e : exn) : str :=
  lit "An unexpected error occurred: " ++ exc_text e.

(** [self.tools[tool_name]], once [tool_name] is known to be hashable. *)
Definition lookup_tool (self : AIAgent pyfloat) (tool_name : value) : option (Tool pyfloat) :=
  match tool_name with
  | PStr s => dict_get s (tools self)
  | _ => None
  end.

Definition unhashable (v : value) : exn :=
  {| exc_type := TypeError;
     exc_text := lit "unhashable type: '" ++ type_name v ++ lit "'" |}.

(** Line 183: [tool_selection.get("tool")] *)
Definition selected_tool (selection : pydict pyfloat) : value :=
  match dict_get (lit "tool") selection with
  | Some v => v
  | None => PNone
  end.

(** Lines 184-188: [tool_selection.get("parameters", {})], replaced by the
    empty dict when it is not a dict. *)
Definition selected_parameters (selection : pydict pyfloat) : pydict pyfloat :=
  match dict_get (lit "parameters") selection with
  | Some (PDict d) => d
  | _ => []
  end.

(** Lines 183-225: what the dispatcher does with a decision. *)
Definition dispatch (self : AIAgent pyfloat) (tool_selection : value) : M pyfloat value :=
  match tool_selection with
  | PDict selection =>
      let tool_name := selected_tool selection in
      let parameters := selected_parameters selection in
      if existsb (eq_str tool_name) error_sentinels
      then
        let error_details :=
          match dict_get (lit "details") parameters with
          | Some v => v
          | None => PStr (lit "Unknown error during tool determination.")
          end in
        ret (PStr (msg_trouble error_details))
      else if eq_str tool_name (lit "no_tool_needed") || negb (py_truth tool_name)
      then ret (PStr msg_no_tool)
      else if negb (hashable tool_name) then raise (unhashable tool_name)
      else
        match lookup_tool self tool_name with
        | None => ret (PStr (msg_unknown_tool tool_name))
        | Some tool =>
            try_except (call_execute tool parameters)
              (fun e =>
                 match exc_type e with
                 | TypeError =>
                     ret (PStr (msg_incorrect_parameters tool_name tool parameters e))
                 | _ => ret (PStr (msg_tool_error tool_name e))
                 end)
        end
  | other => raise (no_attribute other (lit "get"))
  end.

(** [AIAgent.process_request] *)
Definition process_request (self : AIAgent pyfloat) (user_input : str) : M pyfloat value :=
  try_except
    (tool_selection <- _determine_tool self user_input ;;
     dispatch self tool_selection)
    (fun e => ret (PStr (msg_unexpected e))).

(** *** The vocabulary of the properties *)

(** Some keyword is not a parameter, or some parameter has no keyword. *)
Definition keys_mismatch (keys params : list str) : Prop :=
  (exists k, In k keys /\ ~ In k params) \/ (exists p, In p params /\ ~ In p keys).

(** [m] occurs in [s] as a run of consecutive characters. *)
Definition substring (m s : str) : Prop := exists pre post, s = pre ++ m ++ post.

(** The characters left in a keyword are lower-case letters or [N]. *)
Definition lit_char (c : char) : bool := ((97 <=? c) && (c <=? 122)) || (c =? 78).

Definition mode_ok (m : lex_mode) : bool :=
  match m with
  | LLit rest _ => forallb lit_char rest
  | _ => true
  end.

(** Code points that are part of no token outside a string: the white space
    of Python, the backtick, and everything above the ASCII range. *)
Definition inert (c : char) : Prop := c <= 32 \/ c = 96 \/ 133 <= c.

(** A reply wrapped in a [json] code fence. *)
Definition fenced (t : str) : str := fence_json ++ [10] ++ t ++ [10] ++ fence.

(** The characters that follow a value in the output of [json.dumps]. *)
Definition is_delim (c : char) : Prop := c = 44 \/ c = 93 \/ c = 125.

(** A value has been scanned from [st0]: the scanner is in a state from which
    the text may end, with the tokens [ts] added in front. *)
Definition scanned (toks : list token) (text : str) (ts : list token) : Prop :=
  exists st, lex_run (LIdle, toks) text = Some st
             /\ lex_flush st = Some (LIdle, rev ts ++ toks).

Definition is_surrogate (c : char) : bool := is_high_surrogate c || is_low_surrogate c.

(** No high surrogate is directly followed by a low surrogate. *)
Fixpoint no_pair (s : str) : bool :=
  match s with
  | x :: r =>
      negb (is_high_surrogate x && match r with y :: _ => is_low_surrogate y | [] => false end)
      && no_pair r
  | [] => true
  end.

(** Every element is a code point. *)
Definition code_points (s : str) : bool := forallb (fun c => c <? 1114112) s.

Definition starts_low (s : str) : bool :=
  match s with
  | c :: _ => is_low_surrogate c
  | [] => false
  end.

(** The state of the scanner inside a string after the character [c]. *)
Definition after_char (acc : str) (hi : option char) (c : char) : lex_mode :=
  if is_high_surrogate c then LStr (push_hi hi acc) (Some c)
  else LStr (c :: push_hi hi acc) None.

Definition wf_str (s : str) : bool := code_points s && no_pair s.

Fixpoint nodupb (l : list str) : bool :=
  match l with
  | [] => true
  | x :: r => negb (existsb (str_eqb x) r) && nodupb r
  end.

(** The values that [json.dumps] writes back as they are: strings of code
    points without a surrogate pair, dicts with distinct keys. *)
Fixpoint wf_value (v : value) : bool :=
  match v with
  | PStr s => wf_str s
  | PList l => forallb wf_value l
  | PDict d =>
      nodupb (map fst d)
      && forallb (fun kv => wf_str (fst kv) && wf_value (snd kv)) d
  | _ => true
  end.

(** The tokens of the text that [json.dumps] writes for a value. *)
Fixpoint tokens_of (v : value) : list token :=
  match v with
  | PNone => [TNull]
  | PBool true => [TTrue]
  | PBool false => [TFalse]
  | PInt z => [TInt z]
  | PFloat f => [TFloat (floatstr f)]
  | PStr s => [TString s]
  | PList l => TLBracket :: join [TComma] (map tokens_of l) ++ [TRBracket]
  | PDict d =>
      TLBrace :: join [TComma]
                   (map (fun kv => TString (fst kv) :: TColon :: tokens_of (snd kv)) d)
      ++ [TRBrace]
  end.

(** What the model asks of the floats of the interpreter: the text written
    for a float is one JSON number (or constant), and reading it back
    gives the float. *)
Definition float_contract : Prop :=
  forall f, lex (floatstr f) = Some [TFloat (floatstr f)]
            /\ float_of_literal rt (floatstr f) = f.

(** The text and the tokens of an element of a list and of a member of a
    dict. *)
Definition element_item (v : value) : str * list token :=
  (json_dumps v, tokens_of v).

Definition member_item (kv : str * value) : str * list token :=
  (encode_str (fst kv) ++ lit ": " ++ json_dumps (snd kv),
   TString (fst kv) :: TColon :: tokens_of (snd kv)).

(** A written value is parsed back, whatever follows it, when the fuel is
    at least the number of its tokens. *)
Definition parses_back (v : value) : Prop :=
  wf_value v = true ->
  forall fuel rest,
    (List.length (tokens_of v) <= fuel)%nat ->
    parse_value fuel (tokens_of v ++ rest) = Some (v, rest).

Definition member_tokens (kv : str * value) : list token :=
  TString (fst kv) :: TColon :: tokens_of (snd kv).

(** A Unicode scalar value: a code point that is not a surrogate. *)
Definition scalar (c : char) : bool := (c <? 1114112) && negb (is_surrogate c).

(** A text of scalar values, which is what a decoded reply is. *)
Definition unicode_text (s : str) : bool := forallb scalar s.

Definition head_high (acc : str) : bool :=
  match acc with
  | c :: _ => is_high_surrogate c
  | [] => false
  end.

(** [no_pair] on a text held last character first. *)
Fixpoint no_pair_rev (acc : str) : bool :=
  match acc with
  | x :: r => negb (is_low_surrogate x && head_high r) && no_pair_rev r
  | [] => true
  end.

(** The invariant of the accumulator of a string. *)
Definition acc_ok (acc : str) (hi : option char) : Prop :=
  code_points acc = true /\ no_pair_rev acc = true
  /\ match hi with
     | Some h => is_high_surrogate h = true
     | None => head_high acc = false
     end.

Definition tok_ok (t : token) : bool :=
  match t with
  | TString s => wf_str s
  | _ => true
  end.

Definition mode_inv (m : lex_mode) : Prop :=
  match m with
  | LStr acc hi | LEsc acc hi => acc_ok acc hi
  | LUni acc hi k v => acc_ok acc hi /\ v < 16 ^ N.of_nat k
  | LLit _ tok => tok_ok tok = true
  | _ => True
  end.

Definition state_inv (st : lstate) : Prop :=
  mode_inv (fst st) /\ forallb tok_ok (snd st) = true.

Definition pairs_ok (ps : list (str * value)) : bool :=
  forallb (fun kv => wf_str (fst kv) && wf_value (snd kv)) ps.

End Agent.

(** ** A runtime for the examples

    Floats with an integral value, written [n.0]; an [eval] that computes
    sums of products of decimal literals and rejects every other text; an
    empty file system; a chat-completion client that gives a fixed answer. *)

Module Demo.

Definition pyfloat := Z.

(** The sign and the digits at the start of a literal. *)
Fixpoint int_part (s : str) : str :=
  match s with
  | [] => []
  | c :: r => if is_digit c || (c =? 45) then c :: int_part r else []
  end.

(** The integer before the dot or the exponent of a literal. *)
Definition literal_int (l : str) : pyfloat := Z_of_lexeme (int_part l).

Definition repr_dot0 (f : pyfloat) : str := str_of_Z f ++ lit ".0".

Definition literal_value (s : str) : option Z :=
  match strip s with
  | [] => None
  | c :: r =>
      if forallb is_digit (c :: r) && (negb (c =? 48) || forallb (N.eqb 48) r)
      then Some (Z.of_N (N_of_digits (c :: r)))
      else None
  end.

Fixpoint product (factors : list str) : option Z :=
  match factors with
  | [] => Some 1%Z
  | f :: r =>
      match literal_value f, product r with
      | Some a, Some b => Some (a * b)%Z
      | _, _ => None
      end
  end.

Fixpoint sum (terms : list str) : option Z :=
  match terms with
  | [] => Some 0%Z
  | t :: r =>
      match product (split_char 42 t), sum r with
      | Some a, Some b => Some (a + b)%Z
      | _, _ => None
      end
  end.

Definition eval_sum (e : str) : result (eval_result pyfloat) :=
  match sum (split_char 43 e) with
  | Some z => Returns (EInt z)
  | None => Raises {| exc_type := SyntaxError; exc_text := lit "invalid syntax" |}
  end.

Definition mismatch_text (tool : str) (params keys : list str) : str :=
  match filter (fun k => negb (existsb (str_eqb k) params)) keys with
  | k :: _ => lit "execute() got an unexpected keyword argument '" ++ k ++ lit "'"
  | [] => lit "execute() missing 1 required positional argument: '"
          ++ hd [] params ++ lit "'"
  end.

Definition no_such_file : exn :=
  {| exc_type := FileNotFoundError; exc_text := lit "No such file or directory" |}.

(** The runtime in which the client gives [answer]. *)
Definition runtime (answer : outcome (pyval pyfloat)) : Runtime pyfloat :=
  {| float_of_literal := literal_int;
     float_of_int := fun z => Some z;
     float_repr := repr_dot0;
     float_class := fun _ => FFinite;
     float_truth := fun f => negb (f =? 0)%Z;
     isprintable := fun _ => true;
     call_error_text := mismatch_text;
     path_error_text := fun t =>
       lit "expected str, bytes or os.PathLike object, not " ++ t;
     chat_completion := fun _ => answer;
     py_eval := eval_sum;
     getcwd := lit "/srv/agent";
     fs_exists := fun _ => false;
     fs_isfile := fun _ => false;
     fs_getsize := fun _ => Raises no_such_file;
     fs_read_text := fun _ _ => Raises no_such_file;
     PYPDF2_AVAILABLE := false;
     pdf_clean_text := fun _ => Raises no_such_file;
     weather_execute := fun _ =>
       Returns (PStr (lit "Error: WEATHER_API_KEY is not set in the environment. This tool cannot function.")) |}.

(** The runtime in which the model replies with the text [reply]. *)
Definition replying (reply : str) : Runtime pyfloat := runtime (Returns (PStr reply)).

(** The answer of the agent to any request in that runtime. *)
Definition answer_to (reply : str) : result (pyval pyfloat) :=
  snd (process_request (replying reply) (AIAgent_init (replying reply)) (lit "hello")).

End Demo.


(** ** The replies of the examples *)

Module Examples.

Definition calculator_reply : str :=
  dq "{'tool': 'calculator', 'parameters': {'expression': '2+2'}}".

Definition translator_reply : str := dq "{'tool': 'translator', 'parameters': {}}".

Definition wrong_key_reply : str :=
  dq "{'tool': 'calculator', 'parameters': {'expr': '2+2'}}".

Definition prose_reply : str := lit "I think you should check the weather.".

Definition number_tool_reply : str := dq "{'tool': 42}".

Definition agent (reply : str) : AIAgent Demo.pyfloat := AIAgent_init (Demo.replying reply).

Definition request (reply : str) : M Demo.pyfloat (pyval Demo.pyfloat) :=
  process_request (Demo.replying reply) (agent reply) (lit "hello").

Definition completion (reply : str) : event Demo.pyfloat :=
  EvCompletion (request_messages (agent reply) (lit "hello")).

End Examples.

Module RoundTrip.

(** The example of the specification for code fences. *)
Definition no_tool_reply : str := dq "{'tool':'no_tool_needed','parameters':{}}".

(** A reply with a lone high surrogate followed by the escape of a low
    surrogate. *)
Definition surrogate_reply : str :=
  dq "{'tool': '" ++ [55357] ++ lit "\ude00" ++ dq "'}".

End RoundTrip.


(** ** Further vocabulary of the properties *)

Section Counting.
Context {pyfloat : Type}.

(** The closing braces among the tokens. *)
Fixpoint rbraces (ts : list token) : nat :=
  match ts with
  | TRBrace :: r => S (rbraces r)
  | _ :: r => rbraces r
  | [] => 0%nat
  end.

(** How often [c] occurs in [s]. *)
Fixpoint count_char (c : char) (s : str) : nat :=
  match s with
  | x :: r => if x =? c then S (count_char c r) else count_char c r
  | [] => 0%nat
  end.

(** The dicts inside a value, itself included. *)
Fixpoint dict_count (v : pyval pyfloat) : nat :=
  match v with
  | PList l => fold_right (fun x n => (dict_count x + n)%nat) 0%nat l
  | PDict d => S (fold_right (fun kv n => (dict_count (snd kv) + n)%nat) 0%nat d)
  | _ => 0%nat
  end.

Definition dicts_in (l : list (pyval pyfloat)) : nat :=
  fold_right (fun x n => (dict_count x + n)%nat) 0%nat l.

Definition dicts_in_pairs (d : pydict pyfloat) : nat :=
  fold_right (fun kv n => (dict_count (snd kv) + n)%nat) 0%nat d.

(** The closing braces that the scanner has produced or holds ready. *)
Definition braces_of (st : lstate) : nat :=
  (rbraces (snd st) + match fst st with LLit _ TRBrace => 1 | _ => 0 end)%nat.

End Counting.

Section EvalVocabulary.
Context {pyfloat : Type}.

(** The characters of a text that [eval] is given: those of the validation
    regex, the circumflex left out. *)
Definition eval_char_ok (c : char) : bool := calc_char_ok c && negb (c =? 94).

(** The runtime [rt] with another [eval]. *)
Definition with_py_eval (rt : Runtime pyfloat)
  (f : str -> result (eval_result pyfloat)) : Runtime pyfloat :=
  {| float_of_literal := float_of_literal rt;
     float_of_int := float_of_int rt;
     float_repr := float_repr rt;
     float_class := float_class rt;
     float_truth := float_truth rt;
     isprintable := isprintable rt;
     call_error_text := call_error_text rt;
     path_error_text := path_error_text rt;
     chat_completion := chat_completion rt;
     py_eval := f;
     getcwd := getcwd rt;
     fs_exists := fs_exists rt;
     fs_isfile := fs_isfile rt;
     fs_getsize := fs_getsize rt;
     fs_read_text := fs_read_text rt;
     PYPDF2_AVAILABLE := PYPDF2_AVAILABLE rt;
     pdf_clean_text := pdf_clean_text rt;
     weather_execute := weather_execute rt |}.

End EvalVocabulary.

Section PathVocabulary.

(** A path component that names an entry of a directory: not empty, not
    [.] or [..], without a slash. *)
Definition plain_component (w : str) : Prop :=
  w <> [] /\ w <> lit "." /\ w <> lit ".." /\ ~ In 47 w.

(** The components that [normpath] does not drop. *)
Definition kept_component (w : str) : bool :=
  negb (str_eqb w [] || str_eqb w (lit ".")).

(** The number of leading slashes that [normpath] keeps. *)
Definition initial_slashes (path : str) : nat :=
  if startswith slash path
  then if startswith (lit "//") path && negb (startswith (lit "///") path)
       then 2%nat else 1%nat
  else 0%nat.

End PathVocabulary.

Section FileVocabulary.

(** The line that follows a text cut at [MAX_CHARS_RETURN] characters. *)
Definition truncation_notice : str :=
  [10] ++ lit "... (file content truncated at 10000 characters)".

End FileVocabulary.

(** ** [_clean_pdf_text] of [src/tools/file_reader.py]

    The patterns of the source are written there with a doubled backslash:
    [r'\\n+'] matches a backslash followed by one or more letters [n], and
    the string ['\\n'] is a backslash followed by the letter [n].  As a
    replacement template of [re.sub], that string stands for a line feed. *)

Section CleanPdfText.

Definition head_is (c : char) (s : str) : bool :=
  match s with
  | x :: _ => x =? c
  | [] => false
  end.

(** [re.sub(r' +', ' ', text)]: every run of spaces becomes one space. *)
Fixpoint collapse_spaces (s : str) : str :=
  match s with
  | [] => []
  | c :: r =>
      if (c =? 32) && head_is 32 r then collapse_spaces r else c :: collapse_spaces r
  end.

(** [re.sub(r'\\n+', '\\n', text)]: a backslash together with the letters
    [n] that follow it becomes one line feed.  [inside] tells that the
    letters of a match are being read. *)
Fixpoint newline_escapes (inside : bool) (s : str) : str :=
  match s with
  | [] => []
  | c :: r =>
      if inside && (c =? 110) then newline_escapes true r
      else if (c =? 92) && head_is 110 r then 10 :: newline_escapes true r
      else c :: newline_escapes false r
  end.

(** [text.split(sep)] for the two-character separator [a b]; [skip] tells
    that the second character of a separator is being read. *)
Fixpoint split_pair (a b : char) (skip : bool) (s : str) : list str :=
  match s with
  | [] => [[]]
  | c :: r =>
      if skip then split_pair a b false r
      else if (c =? a) && head_is b r then [] :: split_pair a b true r
      else match split_pair a b false r with
           | w :: ws => (c :: w) :: ws
           | [] => [[c]]
           end
  end.

(** The text of the pattern [r' \\n ']: a space, a backslash, the letter
    [n], a space. *)
Definition wrapped_break : str := [32; 92; 110; 32].

(** [re.sub(r' \\n ', ' ', text)]; [skip] counts the characters of a match
    that are still to be passed over. *)
Fixpoint join_wrapped (skip : nat) (s : str) : str :=
  match s with
  | [] => []
  | c :: r =>
      match skip with
      | S k => join_wrapped k r
      | O => if startswith wrapped_break s then 32 :: join_wrapped 3 r
             else c :: join_wrapped 0 r
      end
  end.

(** [_clean_pdf_text] *)
Definition _clean_pdf_text (text : str) : str :=
  match text with
  | [] => []
  | _ =>
      let text := collapse_spaces text in
      let text := newline_escapes false text in
      let text := join [92; 110] (map strip (split_pair 92 110 false text)) in
      let text := join_wrapped 0 text in
      strip text
  end.

(** No [a] is directly followed by [b]. *)
Fixpoint free_of (a b : char) (s : str) : bool :=
  match s with
  | c :: r => negb ((c =? a) && head_is b r) && free_of a b r
  | [] => true
  end.

End CleanPdfText.

(** ** [WeatherFetcherTool.execute] of [src/tools/weather_fetcher.py]

    The request to the weather service is input and output; what the method
    does with the environment, with the decoded answer and with a failure is
    modelled here. *)

(** How lines 48-50 ([requests.get], [raise_for_status], [response.json])
    can fail, by the [except] clause that takes the exception. *)
Inductive fetch_failure :=
| HTTPError (http_err response_text : str) (status_code : Z)
| RequestException (text : str)
| JSONDecodeError (response_text : option str)
| OtherFailure (text : str).

Record Network (pyfloat : Type) := {
  (* os.getenv("WEATHER_API_KEY") *)
  WEATHER_API_KEY : option str;
  (* lines 48-50, for a city and a key: the decoded body or the failure *)
  fetch : pyval pyfloat -> str -> sum fetch_failure (pyval pyfloat)
}.

Arguments WEATHER_API_KEY {pyfloat} _.
Arguments fetch {pyfloat} _ _ _.

Section Weather.
Context {pyfloat : Type} (rt : Runtime pyfloat) (net : Network pyfloat).

Abbreviation value := (pyval pyfloat).

Definition index_error (text : str) : exn :=
  {| exc_type := OtherError (lit "IndexError"); exc_text := text |}.

(** [v[0]] *)
Definition first_item (v : value) : outcome value :=
  match v with
  | PList (x :: _) => Returns x
  | PList [] => Raises (index_error (lit "list index out of range"))
  | PStr (c :: _) => Returns (PStr [c])
  | PStr [] => Raises (index_error (lit "string index out of range"))
  | PDict _ => Raises {| exc_type := OtherError (lit "KeyError"); exc_text := lit "0" |}
  | other =>
      Raises {| exc_type := TypeError;
                exc_text := lit "'" ++ type_name other ++ lit "' object is not subscriptable" |}
  end.

(** [v.get(key, default)] *)
Definition get_or (v : value) (key : str) (default : value) : outcome value :=
  match v with
  | PDict d => Returns (match dict_get key d with Some x => x | None => default end)
  | other => Raises (no_attribute other (lit "get"))
  end.

Definition and_then {A B : Type} (o : outcome A) (k : A -> outcome B) : outcome B :=
  match o with
  | Returns a => k a
  | Raises e => Raises e
  end.

Definition NA : value := PStr (lit "N/A").

(** Lines 52-68: the text for a decoded answer. *)
Definition weather_report (city data : value) : outcome str :=
  and_then (get_or data (lit "cod") PNone) (fun cod =>
  if negb (str_eqb (py_str rt cod) (lit "200"))
  then and_then (get_or data (lit "message") (PStr (lit "Unknown error from API")))
         (fun message =>
            Returns (lit "Error fetching weather for " ++ py_str rt city ++ lit ": "
                     ++ py_str rt message))
  else
    and_then (get_or data (lit "weather") (PList [PDict []])) (fun weather =>
    and_then (first_item weather) (fun weather0 =>
    and_then (get_or weather0 (lit "main") NA) (fun main_weather =>
    and_then (get_or weather0 (lit "description") NA) (fun description =>
    and_then (get_or data (lit "main") (PDict [])) (fun main =>
    and_then (get_or main (lit "temp") NA) (fun temp =>
    and_then (get_or main (lit "feels_like") NA) (fun feels_like =>
    and_then (get_or main (lit "humidity") NA) (fun humidity =>
    and_then (get_or data (lit "wind") (PDict [])) (fun wind =>
    and_then (get_or wind (lit "speed") NA) (fun wind_speed =>
    and_then (get_or data (lit "name") city) (fun name =>
    Returns (lit "Current weather in " ++ py_str rt name ++ lit ":" ++ [10]
             ++ lit "- Condition: " ++ py_str rt main_weather
             ++ lit " (" ++ py_str rt description ++ lit ")" ++ [10]
             ++ lit "- Temperature: " ++ py_str rt temp ++ [176] ++ lit "C (Feels like: "
             ++ py_str rt feels_like ++ [176] ++ lit "C)" ++ [10]
             ++ lit "- Humidity: " ++ py_str rt humidity ++ lit "%" ++ [10]
             ++ lit "- Wind Speed: " ++ py_str rt wind_speed ++ lit " m/s"))))))))))))).

(** The handlers of lines 70-80. *)
Definition weather_failure (city : value) (f : fetch_failure) : str :=
  match f with
  | HTTPError http_err response_text status_code =>
      lit "HTTP error fetching weather for " ++ py_str rt city ++ lit ": " ++ http_err
      ++ lit ". Response: " ++ response_text
      ++ (if (status_code =? 401)%Z
          then lit " (This often indicates an invalid or missing API key)" else [])
  | RequestException text =>
      lit "Network error connecting to weather service for " ++ py_str rt city ++ lit ": "
      ++ text
  | JSONDecodeError response_text =>
      lit "Error: Could not parse weather data response for " ++ py_str rt city
      ++ lit ". Raw response: "
      ++ match response_text with Some t => t | None => lit "No response object" end
  | OtherFailure text =>
      lit "An unexpected error occurred while fetching weather for " ++ py_str rt city
      ++ lit ": " ++ text
  end.

(** [WeatherFetcherTool.execute] *)
Definition WeatherFetcherTool_execute (city : value) : str :=
  if negb (py_truth rt city) then lit "Error: City parameter is required."
  else
    match WEATHER_API_KEY net with
    | None | Some [] =>
        lit "Error: WEATHER_API_KEY is not set in the environment. This tool cannot function."
    | Some api_key =>
        match fetch net city api_key with
        | inr data =>
            match weather_report city data with
            | Returns text => text
            | Raises e => weather_failure city (OtherFailure (exc_text e))
            end
        | inl f => weather_failure city f
        end
    end.

End Weather.

(** ** [agent_chat_interface] of [src/app.py] *)

(** What the chat handler uses of the interpreter and of the file system. *)
Record Desk := {
  (* str.isalnum on a code point above 127 *)
  isalnum_above : char -> bool;
  (* shutil.copy(src, dst) *)
  copy_file : str -> str -> outcome unit
}.

Section Chat.
Context {pyfloat : Type} (rt : Runtime pyfloat) (desk : Desk).

Abbreviation value := (pyval pyfloat).

Definition UPLOADS_DIR : str := lit "uploads".

(** [c.isalnum()] *)
Definition isalnum (c : char) : bool :=
  is_digit c || ((65 <=? c) && (c <=? 90)) || ((97 <=? c) && (c <=? 122))
  || ((127 <? c) && isalnum_above desk c).

(** The characters of a file name that are kept. *)
Definition name_char_ok (c : char) : bool :=
  isalnum c || existsb (N.eqb c) [46; 95; 45].

(** Lines 50-51: the name under which an uploaded file is stored. *)
Definition safe_filename (original_filename : str) : str :=
  match strip (filter name_char_ok original_filename) with
  | [] => lit "uploaded_file"
  | kept => kept
  end.

Definition destination_path (temp_file_path : str) : str :=
  path_join UPLOADS_DIR (safe_filename (basename temp_file_path)).

Definition upload_info (temp_file_path : str) : str :=
  lit "(User uploaded file '" ++ safe_filename (basename temp_file_path)
  ++ lit "' to path '" ++ destination_path temp_file_path ++ lit "')".

(** Lines 44-67: the input for the agent, after the upload has been stored.
    [uploaded_file_obj] is the path held by the [name] attribute of the
    upload, if there is an upload. *)
Definition stage_input (message uploaded_file_obj : option str) : outcome str :=
  let processed_input := match message with Some m => strip m | None => [] end in
  match uploaded_file_obj with
  | None => Returns processed_input
  | Some temp_file_path =>
      match copy_file desk temp_file_path (destination_path temp_file_path) with
      | Returns _ =>
          Returns (upload_info temp_file_path ++ [10]
                   ++ match processed_input with
                      | [] => lit "What is in this file?"
                      | _ => processed_input
                      end)
      | Raises e => Raises e
      end
  end.

(** [agent_chat_interface]; [agent] is the module variable of that name.
    Both handlers are [except Exception] clauses. *)
Definition agent_chat_interface (agent : option (AIAgent pyfloat))
  (message uploaded_file_obj : option str) : M pyfloat str :=
  match agent with
  | None => ret (lit "Error: Agent not initialized. Check logs.")
  | Some agent =>
      match stage_input message uploaded_file_obj with
      | Raises e => ret (lit "Error processing uploaded file: " ++ exc_text e)
      | Returns [] =>
          ret (lit "Please enter a query, or upload a file and optionally add a query.")
      | Returns processed_input =>
          try_except
            (response <- process_request rt agent processed_input ;;
             ret (py_str rt response))
            (fun e => ret (lit "Sorry, an internal error occurred: " ++ exc_text e))
      end
  end.

End Chat.

(** ** Starting the agent: [AIAgent.__init__] and [initialize_agent] *)

(** [os.environ] *)
Definition environ := list (str * str).

(** What starting the agent uses of the outside world. *)
Record Host := {
  (* load_dotenv(), which may add variables to the environment *)
  load_dotenv : environ -> environ;
  (* Together(), the constructor of the client *)
  Together : environ -> outcome unit
}.

Section Startup.
Context {pyfloat : Type} (rt : Runtime pyfloat) (host : Host).

(** [not os.getenv("TOGETHER_API_KEY")] *)
Definition key_missing (env : environ) : bool :=
  match dict_get (lit "TOGETHER_API_KEY") env with
  | Some (_ :: _) => false
  | _ => true
  end.

Definition key_error : exn :=
  {| exc_type := OtherError (lit "ValueError");
     exc_text := lit "TOGETHER_API_KEY not set in environment. Please set it in your .env file for the agent to work." |}.

(** [AIAgent.__init__]: the environment it leaves and the agent, or the
    exception it raises. *)
Definition AIAgent___init__ (env : environ) : environ * outcome (AIAgent pyfloat) :=
  let env := load_dotenv host env in
  if key_missing env then (env, Raises key_error)
  else match Together host env with
       | Returns _ => (env, Returns (AIAgent_init rt))
       | Raises e => (env, Raises e)
       end.

(** The result of [initialize_agent]: the environment it leaves, the lines
    it prints and the agent or [None]. *)
Record started := {
  left_env : environ;
  printed : list str;
  started_agent : option (AIAgent pyfloat)
}.

(** [initialize_agent] *)
Definition initialize_agent (env : environ) : started :=
  let env := load_dotenv host env in
  if key_missing env
  then {| left_env := env;
          printed := [lit "Error: TOGETHER_API_KEY not set. Please add it to your .env file."];
          started_agent := None |}
  else match AIAgent___init__ env with
       | (env', Returns agent) =>
           {| left_env := env'; printed := []; started_agent := Some agent |}
       | (env', Raises e) =>
           {| left_env := env';
              printed := [lit "Error: Failed to initialize AI Agent: " ++ exc_text e
                          ++ lit ". Check agent.log for details."];
              started_agent := None |}
       end.

End Startup.

(** ** The loop of [run_cli] *)

(** What [input] gives: a line, or a keyboard interrupt.  The end of the
    list is the end of the input. *)
Inductive console :=
| Typed (line : str)
| Interrupted.

(** A run of the command line: the events of its requests, the texts given
    to [print], and the exception that left [run_cli], if one did. *)
Record session (pyfloat : Type) := {
  session_events : list (event pyfloat);
  session_output : list str;
  session_left_by : option exit_class
}.

Arguments session_events {pyfloat} _.
Arguments session_output {pyfloat} _.
Arguments session_left_by {pyfloat} _.

Section Cli.
Context {pyfloat : Type} (rt : Runtime pyfloat).

(** [user_input.lower() in ["exit", "quit"]].  Lowering a character outside
    ASCII gives no letter of these two words, so that only the ASCII
    letters need to be lowered. *)
Definition is_quit_command (user_input : str) : bool :=
  existsb (str_eqb (map ascii_lower user_input)) [lit "exit"; lit "quit"].

(** The line of the handlers of lines 272-277. *)
Definition exit_line : str := 10 :: lit "Exiting agent.".

(** A step of the loop that printed [line] and went on with [rest]. *)
Definition printed_then (trace : list (event pyfloat)) (line : str)
  (rest : session pyfloat) : session pyfloat :=
  {| session_events := trace ++ session_events rest;
     session_output := line :: session_output rest;
     session_left_by := session_left_by rest |}.

(** The loop of lines 259-280, for an agent that has started.  The [try] of
    line 260 holds both [input] and [agent.process_request]: a keyboard
    interrupt in either ends the loop with the line of line 276, an
    exception below [Exception] is printed and the loop goes on, and any
    other exception leaves [run_cli]. *)
Fixpoint cli_loop (agent : AIAgent pyfloat) (inputs : list console)
  : session pyfloat :=
  match inputs with
  | [] =>
      {| session_events := []; session_output := [exit_line]; session_left_by := None |}
  | Interrupted :: _ =>
      {| session_events := []; session_output := [exit_line]; session_left_by := None |}
  | Typed line :: rest =>
      let user_input := strip line in
      if is_quit_command user_input
      then {| session_events := []; session_output := [lit "Exiting agent."];
              session_left_by := None |}
      else
        match user_input with
        | [] => cli_loop agent rest
        | _ =>
            match process_request rt agent user_input with
            | (trace, Done (Returns response)) =>
                printed_then trace (py_str rt response) (cli_loop agent rest)
            | (trace, Done (Raises e)) =>
                printed_then trace (lit "An critical error occurred: " ++ exc_text e)
                  (cli_loop agent rest)
            | (trace, Exits KeyboardInterrupt) =>
                {| session_events := trace; session_output := [exit_line];
                   session_left_by := None |}
            | (trace, Exits x) =>
                {| session_events := trace; session_output := [];
                   session_left_by := Some x |}
            end
        end
  end.

(** [run_cli] *)
Definition run_cli (host : Host) (env : environ) (inputs : list console)
  : session pyfloat :=
  let start := initialize_agent rt host env in
  match started_agent start with
  | None =>
      {| session_events := [];
         session_output :=
           printed start ++ [lit "Failed to initialize the AI Agent. Exiting CLI."];
         session_left_by := None |}
  | Some agent =>
      let run := cli_loop agent inputs in
      {| session_events := session_events run;
         session_output :=
           printed start
           ++ lit "AI Agent CLI initialized. Type 'exit' or 'quit' to end."
           :: session_output run;
         session_left_by := session_left_by run |}
  end.

(** The chat completions among the events. *)
Definition completions (trace : list (event pyfloat)) : nat :=
  List.length (filter (fun ev => match ev with EvCompletion _ => true | _ => false end) trace).

End Cli.

Section CleaningVocabulary.

(** A text that starts and ends with a character that is not white space. *)
Definition tight (x : str) : Prop :=
  exists a w s b, x = a :: w /\ x = s ++ [b] /\ py_isspace a = false /\ py_isspace b = false.

End CleaningVocabulary.

(** ** Further replies and surroundings for the examples *)

Module Cases.

Definition empty_tool_reply : str := dq "{'tool': ''}".

Definition list_tool_reply : str := dq "{'tool': ['calculator']}".

Definition number_expression_reply : str :=
  dq "{'tool': 'calculator', 'parameters': {'expression': 4}}".

Definition null_expression_reply : str :=
  dq "{'tool': 'calculator', 'parameters': {'expression': null}}".

Definition sentinel_reply : str := dq "{'tool': 'error_in_tool_determination'}".

Definition list_reply : str := lit "[1, 2]".

Definition embedded_reply : str :=
  dq "Use this: {'tool': 'calculator', 'parameters': '2+2'} ok".

Definition api_error : exn :=
  {| exc_type := OtherError (lit "APIError"); exc_text := lit "rate limit exceeded" |}.

(** An [eval] that refuses every text with a character outside the checked
    ones. *)
Definition guarded_eval (text : str) : result (eval_result Demo.pyfloat) :=
  if forallb eval_char_ok text then Demo.eval_sum text
  else Raises {| exc_type := SyntaxError; exc_text := lit "refused" |}.

Definition desk : Desk :=
  {| isalnum_above := fun _ => false; copy_file := fun _ _ => Returns tt |}.

(** A weather service that answers every request with [data]. *)
Definition service (data : pyval Demo.pyfloat) : Network Demo.pyfloat :=
  {| WEATHER_API_KEY := Some (lit "k"); fetch := fun _ _ => inr data |}.

(** A runtime in which every path is a small file whose PDF text, before
    cleaning, is [raw]. *)
Definition pdf_runtime (raw : str) : Runtime Demo.pyfloat :=
  {| float_of_literal := Demo.literal_int;
     float_of_int := fun z => Some z;
     float_repr := Demo.repr_dot0;
     float_class := fun _ => FFinite;
     float_truth := fun f => negb (f =? 0)%Z;
     isprintable := fun _ => true;
     call_error_text := Demo.mismatch_text;
     path_error_text := fun t => lit "expected str, bytes or os.PathLike object, not " ++ t;
     chat_completion := fun _ => Returns PNone;
     py_eval := Demo.eval_sum;
     getcwd := lit "/srv/agent";
     fs_exists := fun _ => true;
     fs_isfile := fun _ => true;
     fs_getsize := fun _ => Returns 2048;
     fs_read_text := fun _ _ => Returns [];
     PYPDF2_AVAILABLE := true;
     pdf_clean_text := fun _ => Returns (_clean_pdf_text raw);
     weather_execute := fun _ => Returns PNone |}.

(** A text of characters that the validation of the calculator accepts: a
    generator expression whose [throw] is given a class found among the
    subclasses of [object] and their subclasses, by the length of its name.
    [class_length] is 10 for [SystemExit] and 17 for [KeyboardInterrupt]. *)
Definition throw_text (class_length : str) : str :=
  lit "(x for x in ()).throw((d for c in ().__class__.__base__.__subclasses__() "
  ++ lit "if not c.__name__.__len__() - 13 "
  ++ lit "if not c.__name__.count(c.__name__.__getitem__(3)) - 2 "
  ++ lit "for d in c.__subclasses__() if not d.__name__.__len__() - " ++ class_length
  ++ lit " if not d.__mro__.__len__() - 3).__next__())".

(** An [eval] that is left by [x] on the text that throws it. *)
Definition throwing_eval (class_length : str) (x : exit_class) (text : str)
  : result (eval_result Demo.pyfloat) :=
  if str_eqb text (throw_text class_length) then Exits x else Demo.eval_sum text.

(** The reply that asks the calculator for that text. *)
Definition throw_reply (class_length : str) : str :=
  dq "{'tool': 'calculator', 'parameters': {'expression': '" ++ throw_text class_length
  ++ dq "'}}".

(** The runtime in which the model gives that reply and [eval] is left by
    [x] on that text. *)
Definition throwing (class_length : str) (x : exit_class) : Runtime Demo.pyfloat :=
  with_py_eval (Demo.replying (throw_reply class_length)) (throwing_eval class_length x).






(** A text of 10001 characters. *)
Definition long_text : str := repeat 120 (N.to_nat 10001).

(** Prose with a digit and a number as replies. *)
Definition ideas_reply : str := lit "I have 2 ideas.".

Definition number_reply : str := lit "42".

(** A host whose [.env] file holds the key, and one without a key. *)
Definition keyed_host : Host :=
  {| load_dotenv := fun env => dict_set (lit "TOGETHER_API_KEY") (lit "secret") env;
     Together := fun _ => Returns tt |}.

Definition bare_host : Host :=
  {| load_dotenv := fun env => env; Together := fun _ => Returns tt |}.

End Cases.


(** ** Properties *)

(** *** The definitions on sample inputs *)

Example str_of_Z_ex : str_of_Z (-1203) = lit "-1203" /\ str_of_Z 0 = lit "0".
Proof. split; reflexivity. Qed.

Example strip_ex : strip (lit "  a b  ") = lit "a b".
Proof. reflexivity. Qed.

Example lex_ex1 :
  lex (dq "{'a': [1, -2.5e3, true, null], 'b\u00e9\n': 'x'}") =
  Some [TLBrace; TString (lit "a"); TColon; TLBracket; TInt 1; TComma;
        TFloat (lit "-2.5e3"); TComma; TTrue; TComma; TNull; TRBracket; TComma;
        TString (lit "b" ++ [233; 10]); TColon; TString (lit "x"); TRBrace].
Proof. reflexivity. Qed.

Example lex_ex2 :
  lex (dq "'\ud83d\ude00'") = Some [TString [128512]] /\
  lex (dq "'\ud83dx'") = Some [TString [55357; 120]] /\
  lex (lit "01") = Some [TInt 0; TInt 1] /\
  lex (lit "1.") = None /\ lex (lit "-Infinity") = Some [TFloat (lit "-Infinity")].
Proof. repeat split; reflexivity. Qed.

Example normpath_ex :
  normpath (lit "/home/app/../etc//./passwd") = lit "/home/etc/passwd" /\
  normpath (lit "//a/b/../../..") = lit "//" /\
  normpath (lit "a/../..") = lit ".." /\
  splitext_ext (lit "/x.d/.bashrc") = [] /\
  splitext_ext (lit "/x.d/a.tar.PDF") = lit ".PDF".
Proof. repeat split; reflexivity. Qed.

(** *** The agent *)


Section Properties.
Context {pyfloat : Type} (rt : Runtime pyfloat).

Abbreviation value := (pyval pyfloat).

Abbreviation tokens_of := (tokens_of rt).
Abbreviation float_contract := (float_contract rt).
Abbreviation element_item := (element_item rt).
Abbreviation member_item := (member_item rt).
Abbreviation parses_back := (parses_back rt).
Abbreviation member_tokens := (member_tokens rt).

Lemma str_eqb_eq (a b : str) : str_eqb a b = true <-> a = b.
Proof.
  revert b; induction a as [|x a IH]; intros [|y b]; simpl; split; intro H;
    try reflexivity; try discriminate.
  - apply andb_true_iff in H as [Hx Hr]. apply N.eqb_eq in Hx.
    apply IH in Hr. now subst.
  - injection H as -> ->. rewrite N.eqb_refl. now apply IH.
Qed.

Lemma str_eqb_refl (a : str) : str_eqb a a = true.
Proof. now apply str_eqb_eq. Qed.

Lemma str_eqb_neq (a b : str) : str_eqb a b = false <-> a <> b.
Proof.
  split.
  - intros H E. apply str_eqb_eq in E. congruence.
  - intro H. destruct (str_eqb a b) eqn:E; [|reflexivity].
    apply str_eqb_eq in E. contradiction.
Qed.

(** *** The decision is always a dict with a ["tool"] key *)

Lemma validate_shape (result : value) :
  exists d, validate result = PDict d /\ dict_mem (lit "tool") d = true.
Proof.
  unfold validate. destruct result; try (eexists; split; reflexivity).
  destruct (dict_mem (lit "tool") d) eqn:E.
  - exists d. now split.
  - eexists; split; reflexivity.
Qed.

Lemma interpret_shape (raw : str) :
  exists d, interpret rt raw = PDict d /\ dict_mem (lit "tool") d = true.
Proof.
  unfold interpret.
  destruct (json_loads rt (clean_response raw)); [apply validate_shape|].
  destruct (brace_span raw); [|eexists; split; reflexivity].
  destruct (json_loads rt s); [apply validate_shape|eexists; split; reflexivity].
Qed.

Lemma determine_tool_shape (self : AIAgent pyfloat) (user_input : str) :
  exists d,
    _determine_tool rt self user_input
    = ([EvCompletion (request_messages self user_input)], Returns (PDict d))
    /\ dict_mem (lit "tool") d = true.
Proof.
  unfold _determine_tool, try_except, bind, emit, lift, ret, raise.
  destruct (chat_completion rt _) as [content|e]; simpl.
  - destruct content; simpl; try (eexists; split; reflexivity).
    destruct (interpret_shape s) as (d & -> & Hd). exists d. now split.
  - eexists; split; reflexivity.
Qed.

(** *** What [dispatch] can do *)

Lemma dispatch_cases (self : AIAgent pyfloat) (selection : pydict pyfloat) :
  (exists s, dispatch rt self (PDict selection) = ([], Returns (PStr s)))
  \/ dispatch rt self (PDict selection)
     = ([], Raises (unhashable (selected_tool selection)))
  \/ (exists (tool : Tool pyfloat) args s,
        dispatch rt self (PDict selection)
        = ([EvExecute (name tool) args], Returns (PStr s)))
  \/ (exists (tool : Tool pyfloat) args v,
        execute tool args = Returns v /\
        dispatch rt self (PDict selection)
        = ([EvExecute (name tool) args], Returns v))
  \/ (exists (tool : Tool pyfloat) args x,
        execute tool args = Exits x /\
        dispatch rt self (PDict selection)
        = ([EvExecute (name tool) args], Exits x)).
Proof.
  unfold dispatch.
  destruct (existsb _ error_sentinels); [left; eexists; reflexivity|].
  destruct (_ || _); [left; eexists; reflexivity|].
  destruct (hashable _); simpl; [|right; left; reflexivity].
  destruct (lookup_tool self _) as [tool|]; [|left; eexists; reflexivity].
  unfold call_execute, try_except, bind, emit, lift, ret, raise.
  destruct (bind_kwargs _ _) as [args|]; simpl.
  - destruct (execute tool args) as [[v|e]|x] eqn:E; simpl.
    + right; right; right; left. exists tool, args, v. now split.
    + right; right; left. exists tool, args.
      destruct (exc_type e); eexists; reflexivity.
    + right; right; right; right. exists tool, args, x. now split.
  - left. eexists; reflexivity.
Qed.




(** *** Requests whose decision is known *)

Lemma process_request_decided (self : AIAgent pyfloat) (user_input : str)
      (d : pydict pyfloat) :
  snd (_determine_tool rt self user_input) = Returns (PDict d) ->
  process_request rt self user_input
  = try_except
      (bind ([EvCompletion (request_messages self user_input)], Returns (PDict d))
            (dispatch rt self))
      (fun e => ret (PStr (msg_unexpected e))).
Proof.
  intro H. unfold process_request.
  destruct (determine_tool_shape self user_input) as (d' & E & _).
  rewrite E in H |- *. simpl in H. injection H as ->. reflexivity.
Qed.

Lemma determine_tool_reply (self : AIAgent pyfloat) (user_input raw : str) :
  chat_completion rt (request_messages self user_input) = Returns (PStr raw) ->
  _determine_tool rt self user_input
  = ([EvCompletion (request_messages self user_input)], Returns (interpret rt raw)).
Proof.
  intro H. unfold _determine_tool, try_except, bind, emit, lift, ret. rewrite H.
  reflexivity.
Qed.

Lemma eq_str_sentinels (tool_name : str) :
  ~ In tool_name error_sentinels ->
  existsb (eq_str (PStr (pyfloat := pyfloat) tool_name)) error_sentinels = false.
Proof.
  intro H. apply not_true_is_false. intro E.
  apply existsb_exists in E as (x & Hx & Ex). simpl in Ex.
  apply str_eqb_eq in Ex. now subst.
Qed.

(** The checks of lines 190-198 let an ordinary tool name through. *)
Lemma dispatch_named (self : AIAgent pyfloat) (d : pydict pyfloat) (tool_name : str) :
  dict_get (lit "tool") d = Some (PStr tool_name) ->
  tool_name <> [] ->
  ~ In tool_name error_sentinels ->
  tool_name <> lit "no_tool_needed" ->
  dispatch rt self (PDict d)
  = match dict_get tool_name (tools self) with
    | None => ret (PStr (msg_unknown_tool rt (PStr tool_name)))
    | Some tool =>
        try_except (call_execute rt tool (selected_parameters d))
          (fun e =>
             match exc_type e with
             | TypeError =>
                 ret (PStr (msg_incorrect_parameters rt (PStr tool_name) tool
                              (selected_parameters d) e))
             | _ => ret (PStr (msg_tool_error rt (PStr tool_name) e))
             end)
    end.
Proof.
  intros Ht Hne Hs Hn. unfold dispatch, selected_tool. rewrite Ht.
  rewrite (eq_str_sentinels _ Hs).
  assert (str_eqb tool_name (lit "no_tool_needed") = false) as E
      by now apply str_eqb_neq.
  simpl eq_str. rewrite E. simpl.
  destruct tool_name; [contradiction|]. reflexivity.
Qed.

(** C8. A decision that names a tool which is not empty, not an error
    sentinel, not ["no_tool_needed"] and not in the registry is answered by
    the fixed message that names the tool, and the only event of the
    request is the chat completion: no tool is executed. *)
Theorem unknown_tool_message (self : AIAgent pyfloat) (user_input : str)
        (d : pydict pyfloat) (tool_name : str) :
  snd (_determine_tool rt self user_input) = Returns (PDict d) ->
  dict_get (lit "tool") d = Some (PStr tool_name) ->
  tool_name <> [] ->
  ~ In tool_name error_sentinels ->
  tool_name <> lit "no_tool_needed" ->
  dict_get tool_name (tools self) = None ->
  process_request rt self user_input
  = ([EvCompletion (request_messages self user_input)],
     Returns (PStr (lit "Sorry, I don't know how to use the tool '" ++ tool_name
                    ++ lit "' or it's not available."))).
Proof.
  intros Hd Ht Hne Hs Hn Hu.
  rewrite (process_request_decided _ _ _ Hd).
  unfold bind. rewrite (dispatch_named self d tool_name Ht Hne Hs Hn), Hu.
  reflexivity.
Qed.

(** C1, as the code has it. When the decision names a registered tool, the
    parameters bind to its signature and [execute] returns a value, then
    [process_request] returns that very value, of whatever type it is,
    after one chat completion and one execution. *)
Theorem tool_result_returned_raw (self : AIAgent pyfloat) (user_input : str)
        (d : pydict pyfloat) (tool_name : str) (tool : Tool pyfloat)
        (args : list value) (v : value) :
  snd (_determine_tool rt self user_input) = Returns (PDict d) ->
  dict_get (lit "tool") d = Some (PStr tool_name) ->
  tool_name <> [] ->
  ~ In tool_name error_sentinels ->
  tool_name <> lit "no_tool_needed" ->
  dict_get tool_name (tools self) = Some tool ->
  bind_kwargs (execute_params tool) (selected_parameters d) = Some args ->
  execute tool args = Returns v ->
  process_request rt self user_input
  = ([EvCompletion (request_messages self user_input); EvExecute (name tool) args],
     Returns v).
Proof.
  intros Hd Ht Hne Hs Hn Hu Hb He.
  rewrite (process_request_decided _ _ _ Hd).
  unfold bind. rewrite (dispatch_named self d tool_name Ht Hne Hs Hn), Hu.
  unfold call_execute, try_except, bind, emit, lift. rewrite Hb, He. reflexivity.
Qed.


(** *** Keyword arguments that do not fit the signature *)

Lemma existsb_str_eqb (k : str) (l : list str) :
  existsb (str_eqb k) l = true <-> In k l.
Proof.
  rewrite existsb_exists. split.
  - intros (x & Hx & E). apply str_eqb_eq in E. now subst.
  - intro H. exists k. split; [exact H|apply str_eqb_refl].
Qed.

Lemma dict_get_absent {V : Type} (k : str) (d : list (str * V)) :
  ~ In k (dict_keys d) -> dict_get k d = None.
Proof.
  induction d as [|[k' v] d IH]; simpl; intro H; [reflexivity|].
  destruct (str_eqb k' k) eqn:E.
  - apply str_eqb_eq in E. subst. exfalso. apply H. now left.
  - apply IH. intro Hin. apply H. now right.
Qed.

Lemma lookup_all_missing (p : str) (params : list str) (kwargs : pydict pyfloat) :
  In p params -> ~ In p (dict_keys kwargs) -> lookup_all params kwargs = None.
Proof.
  intros Hin Hk. induction params as [|q params IH]; [contradiction|].
  simpl. destruct Hin as [->|Hin].
  - now rewrite (dict_get_absent _ _ Hk).
  - rewrite (IH Hin). now destruct (dict_get q kwargs).
Qed.

Lemma bind_kwargs_mismatch (params : list str) (kwargs : pydict pyfloat) :
  keys_mismatch (dict_keys kwargs) params -> bind_kwargs params kwargs = None.
Proof.
  unfold bind_kwargs. intros [(k & Hk & Hn)|(p & Hp & Hn)].
  - destruct (forallb _ _) eqn:E; [|reflexivity].
    rewrite forallb_forall in E. specialize (E k Hk).
    apply existsb_str_eqb in E. contradiction.
  - rewrite (lookup_all_missing p params kwargs Hp Hn). now destruct (forallb _ _).
Qed.

Lemma registered_tool (tool_name : str) (tool : Tool pyfloat) :
  dict_get tool_name (tools (AIAgent_init rt)) = Some tool ->
  (tool_name = lit "calculator" /\ tool = CalculatorTool rt)
  \/ (tool_name = lit "file_reader" /\ tool = FileReaderTool rt)
  \/ (tool_name = lit "weather_fetcher" /\ tool = WeatherFetcherTool rt).
Proof.
  unfold AIAgent_init. cbn [tools dict_get].
  destruct (str_eqb (lit "calculator") tool_name) eqn:E1.
  { apply str_eqb_eq in E1. intro H. injection H as <-. now left. }
  destruct (str_eqb (lit "file_reader") tool_name) eqn:E2.
  { apply str_eqb_eq in E2. intro H. injection H as <-. right. now left. }
  destruct (str_eqb (lit "weather_fetcher") tool_name) eqn:E3.
  { apply str_eqb_eq in E3. intro H. injection H as <-. right. now right. }
  discriminate.
Qed.

(** C7. When the decision names one of the registered tools and the keys
    of the parameters do not match the signature of its [execute], the
    answer of [process_request] is the message that lists the expected
    parameter names and the supplied ones; the tool is not executed and
    nothing is raised. *)
Theorem incorrect_parameters_message (user_input : str) (d : pydict pyfloat)
        (tool_name : str) (tool : Tool pyfloat) :
  snd (_determine_tool rt (AIAgent_init rt) user_input) = Returns (PDict d) ->
  dict_get (lit "tool") d = Some (PStr tool_name) ->
  dict_get tool_name (tools (AIAgent_init rt)) = Some tool ->
  keys_mismatch (dict_keys (selected_parameters d)) (execute_params tool) ->
  process_request rt (AIAgent_init rt) user_input
  = ([EvCompletion (request_messages (AIAgent_init rt) user_input)],
     Returns (PStr (lit "Error using tool " ++ tool_name
                    ++ lit ": incorrect parameters. Expected: "
                    ++ py_repr rt (PList (map PStr (execute_params tool)))
                    ++ lit ". Got: "
                    ++ py_repr rt (PList (map PStr (dict_keys (selected_parameters d))))
                    ++ lit ". Details: "
                    ++ call_error_text rt (name tool) (execute_params tool)
                         (dict_keys (selected_parameters d))))).
Proof.
  intros Hd Ht Hu Hm.
  rewrite (process_request_decided _ _ _ Hd). unfold bind.
  assert (tool_name <> [] /\ ~ In tool_name error_sentinels
          /\ tool_name <> lit "no_tool_needed"
          /\ remove_first (lit "self") (execute_params tool) = execute_params tool)
    as (Hne & Hs & Hn & Hr).
  { destruct (registered_tool _ _ Hu) as [[-> ->]|[[-> ->]|[-> ->]]];
      (repeat split; [discriminate| |discriminate]);
      intros [H|[H|[H|[]]]]; discriminate H. }
  rewrite (dispatch_named _ d tool_name Ht Hne Hs Hn), Hu.
  unfold call_execute. rewrite (bind_kwargs_mismatch _ _ Hm).
  unfold try_except, raise, ret, msg_incorrect_parameters. simpl exc_type.
  rewrite Hr. reflexivity.
Qed.


(** *** Replies without JSON *)

Lemma substring_refl (s : str) : substring s s.
Proof. exists [], []. now rewrite app_nil_r. Qed.

Lemma substring_trans (a b c : str) : substring a b -> substring b c -> substring a c.
Proof.
  intros (p1 & q1 & ->) (p2 & q2 & ->). exists (p2 ++ p1), (q1 ++ q2).
  now rewrite <- !app_assoc.
Qed.

Lemma lstrip_suffix (s : str) : exists pre, s = pre ++ lstrip s.
Proof.
  induction s as [|c s (pre & IH)]; [now exists []|]. simpl.
  destruct (py_isspace c).
  - exists (c :: pre). simpl. now rewrite <- IH.
  - now exists [].
Qed.

Lemma rstrip_prefix (s : str) : exists post, s = rstrip s ++ post.
Proof.
  induction s as [|c s (post & IH)]; [now exists []|]. simpl.
  destruct (rstrip s) as [|x r] eqn:E.
  - destruct (py_isspace c).
    + exists (c :: s). reflexivity.
    + exists post. simpl. now rewrite IH at 1.
  - exists post. simpl. now rewrite IH at 1.
Qed.

Lemma strip_substring (s : str) : substring (strip s) s.
Proof.
  unfold strip. destruct (lstrip_suffix s) as (pre & Hpre).
  destruct (rstrip_prefix (lstrip s)) as (post & Hpost).
  exists pre, post. now rewrite <- Hpost.
Qed.

Lemma skipn_substring (n : nat) (s : str) : substring (skipn n s) s.
Proof. exists (firstn n s), []. now rewrite app_nil_r, firstn_skipn. Qed.

Lemma firstn_substring (n : nat) (s : str) : substring (firstn n s) s.
Proof. exists [], (skipn n s). simpl. now rewrite firstn_skipn. Qed.

Lemma clean_response_substring (raw : str) : substring (clean_response raw) raw.
Proof.
  unfold clean_response.
  set (c1 := strip raw).
  assert (substring c1 raw) as H1 by apply strip_substring.
  set (c2 := if startswith fence_json c1 then strip (skipn 7 c1)
             else if startswith fence c1 then strip (skipn 3 c1) else c1).
  assert (substring c2 raw) as H2.
  { unfold c2. destruct (startswith fence_json c1); [|destruct (startswith fence c1)];
      try exact H1;
      (eapply substring_trans; [apply strip_substring|];
       eapply substring_trans; [apply skipn_substring|exact H1]). }
  destruct (endswith fence c2); [|exact H2].
  eapply substring_trans; [apply strip_substring|].
  eapply substring_trans; [apply firstn_substring|exact H2].
Qed.

Lemma upto_close_prefix (s m : str) : upto_close s = Some m -> exists post, s = m ++ post.
Proof.
  revert m; induction s as [|c s IH]; simpl; intros m H; [discriminate|].
  destruct (c =? 125).
  - injection H as <-. now exists s.
  - destruct (upto_close s) as [m'|]; [|discriminate]. injection H as <-.
    destruct (IH m' eq_refl) as (post & ->). now exists post.
Qed.

Lemma brace_span_substring (s m : str) : brace_span s = Some m -> substring m s.
Proof.
  induction s as [|c s IH]; simpl; intro H; [discriminate|].
  assert (brace_span s = Some m -> substring m (c :: s)) as Hrec.
  { intro E. destruct (IH E) as (pre & post & ->). now exists (c :: pre), post. }
  destruct (c =? 123); [|now apply Hrec].
  destruct (upto_close s) as [m'|] eqn:E; [|now apply Hrec].
  injection H as <-. destruct (upto_close_prefix _ _ E) as (post & ->).
  now exists [], post.
Qed.

Lemma brace_span_head (s m : str) : brace_span s = Some m -> startswith [123] m = true.
Proof.
  induction s as [|c r IH]; [discriminate|]. cbn [brace_span].
  destruct (N.eqb_spec c 123) as [->|Hc]; [|exact IH].
  destruct (upto_close r) as [u|]; [|exact IH]. now intros [= <-].
Qed.

(** C5, as the code has it. When the cleaned reply is not a JSON text and
    no part of the reply that starts with an opening brace is one, so that
    the reply holds no JSON object that can be parsed, both extraction
    stages fail: the decision is the ["error_parsing_llm_response"] sentinel
    with the reply itself as [raw_content], its details tell whether the
    fallback found a span of braces, and [process_request] returns the
    "trouble deciding which tool to use" message with these details, raising
    nothing.  Prose may hold digits, quotes and brackets. *)
Theorem unparseable_reply (self : AIAgent pyfloat) (user_input raw : str) :
  chat_completion rt (request_messages self user_input) = Returns (PStr raw) ->
  json_loads rt (clean_response raw) = None ->
  (forall m, substring m raw -> startswith [123] m = true -> json_loads rt m = None) ->
  exists details,
    details = match brace_span raw with
              | Some _ => lit "Could not parse JSON from LLM after cleaning and fallback."
              | None => lit "Could not parse JSON from LLM, and fallback regex found nothing."
              end
    /\ snd (_determine_tool rt self user_input)
       = Returns (PDict [(lit "tool", PStr (lit "error_parsing_llm_response"));
                         (lit "parameters",
                          PDict [(lit "details", PStr details);
                                 (lit "raw_content", PStr raw)])])
    /\ process_request rt self user_input
       = ([EvCompletion (request_messages self user_input)],
          Returns (PStr (lit "Sorry, I had trouble deciding which tool to use. Details: "
                         ++ details))).
Proof.
  intros Hc Hclean Hno.
  assert (exists details,
    details = match brace_span raw with
              | Some _ => lit "Could not parse JSON from LLM after cleaning and fallback."
              | None => lit "Could not parse JSON from LLM, and fallback regex found nothing."
              end
    /\ interpret rt raw
       = PDict [(lit "tool", PStr (lit "error_parsing_llm_response"));
                (lit "parameters",
                 PDict [(lit "details", PStr details); (lit "raw_content", PStr raw)])])
    as (details & Hd & Hi).
  { unfold interpret. rewrite Hclean.
    destruct (brace_span raw) as [m|] eqn:E.
    - rewrite (Hno m (brace_span_substring _ _ E) (brace_span_head _ _ E)).
      eexists. split; reflexivity.
    - eexists. split; reflexivity. }
  exists details. split; [exact Hd|].
  pose proof (determine_tool_reply self user_input raw Hc) as Hdet.
  rewrite Hi in Hdet. split; [now rewrite Hdet|].
  unfold process_request. rewrite Hdet. reflexivity.
Qed.

(** A reply without an opening brace holds no JSON object. *)
Lemma no_brace_no_object (raw : str) :
  ~ In 123 raw ->
  forall m, substring m raw -> startswith [123] m = true -> json_loads rt m = None.
Proof.
  intros Hn m (pre & post & ->) Hm. exfalso. apply Hn.
  destruct m as [|c m]; [discriminate|]. cbn [startswith] in Hm.
  apply andb_true_iff in Hm as [Hm _]. apply N.eqb_eq in Hm. subst c.
  apply in_or_app. right. now left.
Qed.

(** C2, on the example of the specification. The brace-span fallback stops
    at the first closing brace, which closes the inner object: the span is
    not a JSON text and the decision is the parse-error sentinel, in every
    runtime. *)
Theorem fallback_misses_nested_object :
  let reply :=
    dq "Sure! {'tool': 'weather_fetcher', 'parameters': {'city': 'Paris'}} Hope that helps." in
  brace_span reply = Some (dq "{'tool': 'weather_fetcher', 'parameters': {'city': 'Paris'}")
  /\ json_loads rt (dq "{'tool': 'weather_fetcher', 'parameters': {'city': 'Paris'}") = None
  /\ interpret rt reply = parse_error_fallback reply
  /\ interpret rt reply
     <> decision (lit "weather_fetcher") [(lit "city", PStr (lit "Paris"))].
Proof.
  assert (interpret rt (dq "Sure! {'tool': 'weather_fetcher', 'parameters': {'city': 'Paris'}} Hope that helps.")
          = parse_error_fallback (dq "Sure! {'tool': 'weather_fetcher', 'parameters': {'city': 'Paris'}} Hope that helps."))
    as E by (vm_compute; reflexivity).
  cbv zeta. split; [|split; [|split]].
  - vm_compute; reflexivity.
  - vm_compute; reflexivity.
  - exact E.
  - rewrite E. discriminate.
Qed.


(** *** The shape of a decision *)

Lemma dict_mem_get {V : Type} (k : str) (d : list (str * V)) :
  dict_mem k d = true -> exists v, dict_get k d = Some v.
Proof.
  unfold dict_mem. destruct (dict_get k d) as [v|]; [now exists v|discriminate].
Qed.

Lemma validate_origin (result : value) :
  exists d, validate result = PDict d /\
    ((exists name, dict_get (lit "tool") d = Some (PStr name) /\ In name error_sentinels)
     \/ (result = PDict d /\ dict_mem (lit "tool") d = true)).
Proof.
  assert (exists d, structure_error result = PDict d /\
            exists name, dict_get (lit "tool") d = Some (PStr name)
                         /\ In name error_sentinels) as (ds & Es & Hs).
  { eexists. split; [reflexivity|]. eexists. split; [reflexivity|].
    right. right. now left. }
  unfold validate.
  destruct result; try (exists ds; split; [exact Es|left; exact Hs]).
  destruct (dict_mem (lit "tool") d) eqn:E.
  - exists d. split; [reflexivity|]. right. now split.
  - exists ds. split; [exact Es|left; exact Hs].
Qed.

Lemma interpret_origin (raw : str) :
  exists d, interpret rt raw = PDict d /\
    ((exists name, dict_get (lit "tool") d = Some (PStr name) /\ In name error_sentinels)
     \/ (exists text, substring text raw /\ json_loads rt text = Some (PDict d)
                      /\ dict_mem (lit "tool") d = true)).
Proof.
  unfold interpret.
  destruct (json_loads rt (clean_response raw)) as [result|] eqn:E1.
  { destruct (validate_origin result) as (d & -> & [H|[-> Hm]]).
    - exists d. split; [reflexivity|now left].
    - exists d. split; [reflexivity|]. right. exists (clean_response raw).
      split; [apply clean_response_substring|now split]. }
  destruct (brace_span raw) as [m|] eqn:E2.
  - destruct (json_loads rt m) as [result|] eqn:E3.
    + destruct (validate_origin result) as (d & -> & [H|[-> Hm]]).
      * exists d. split; [reflexivity|now left].
      * exists d. split; [reflexivity|]. right. exists m.
        split; [now apply brace_span_substring|now split].
    + eexists. split; [reflexivity|]. left. eexists. split; [reflexivity|now left].
  - eexists. split; [reflexivity|]. left. eexists. split; [reflexivity|now left].
Qed.

(** C4, as the code has it. Whatever the client does, the decision is a
    dict with a ["tool"] entry. The entry is one of the three error
    sentinels, a string, or else the decision is a JSON object of the
    reply, taken as it was parsed, whose ["tool"] entry is whatever value
    the reply gave. The parameters that the dispatcher uses are always a
    dict: the ["parameters"] entry when that is a dict, and the empty dict
    when the entry is absent or is not a dict. *)
Theorem decision_shape (self : AIAgent pyfloat) (user_input : str) :
  exists d t,
    snd (_determine_tool rt self user_input) = Returns (PDict d)
    /\ dict_get (lit "tool") d = Some t
    /\ ((exists name, t = PStr name /\ In name error_sentinels)
        \/ (exists raw text,
              chat_completion rt (request_messages self user_input) = Returns (PStr raw)
              /\ substring text raw /\ json_loads rt text = Some (PDict d)))
    /\ (forall p, dict_get (lit "parameters") d = Some (PDict p) ->
                  selected_parameters d = p)
    /\ ((forall p, dict_get (lit "parameters") d <> Some (PDict p)) ->
        selected_parameters d = []).
Proof.
  assert (forall d : pydict pyfloat,
    (forall p, dict_get (lit "parameters") d = Some (PDict p) -> selected_parameters d = p)
    /\ ((forall p, dict_get (lit "parameters") d <> Some (PDict p)) ->
        selected_parameters d = [])) as Hp.
  { intro d. unfold selected_parameters. split.
    - intros p ->. reflexivity.
    - intro H. destruct (dict_get (lit "parameters") d) as [[]|]; try reflexivity.
      now destruct (H d0). }
  unfold _determine_tool, try_except, bind, emit, lift, ret, raise.
  destruct (chat_completion rt _) as [content|e] eqn:Ec; simpl.
  - destruct content;
      try (eexists; eexists; split; [reflexivity|]; split; [reflexivity|];
           split; [left; eexists; split; [reflexivity|right; now left]|apply Hp]).
    destruct (interpret_origin s) as (d & -> & [(name & Hn & Hs)|(text & Hsub & Hl & Hm)]).
    + exists d, (PStr name). repeat split; try apply Hp; [exact Hn|].
      left. now exists name.
    + destruct (dict_mem_get _ _ Hm) as (t & Ht).
      exists d, t. repeat split; try apply Hp; [exact Ht|].
      right. now exists s, text.
  - eexists; eexists; split; [reflexivity|]; split; [reflexivity|].
    split; [left; eexists; split; [reflexivity|right; now left]|apply Hp].
Qed.

(** *** The path checks of the file reader *)


(** The converse: the file system is consulted only for a relative path
    without [..] whose absolute form starts with the base directory. *)
Lemma file_reader_accepts (file_path m : str) :
  FileReaderTool_execute rt (PStr file_path) = Returns (PStr m) ->
  ~ In m [msg_required; msg_denied; msg_dotdot; msg_absolute] ->
  str_contains (lit "..") file_path = false
  /\ isabs file_path = false
  /\ startswith (abspath rt (FILE_READ_BASE_PATH rt))
                (abspath rt (path_join (FILE_READ_BASE_PATH rt) file_path)) = true
  /\ m = read_file rt file_path
           (abspath rt (path_join (FILE_READ_BASE_PATH rt) file_path)).
Proof.
  unfold FileReaderTool_execute. intros H Hn.
  destruct (negb (py_truth rt (PStr file_path))).
  { injection H as <-. exfalso. apply Hn. now left. }
  destruct (startswith _ _) eqn:Es; simpl in H.
  2:{ injection H as <-. exfalso. apply Hn. right; now left. }
  destruct (str_contains (lit "..") file_path) eqn:Ec.
  { injection H as <-. exfalso. apply Hn. right; right; now left. }
  destruct (isabs file_path) eqn:Ea.
  { injection H as <-. exfalso. apply Hn. right; right; right; now left. }
  injection H as <-. now repeat split.
Qed.

(** *** The scanner at the two ends of a text *)

Lemma py_isspace_inert (c : char) : py_isspace c = true -> inert c.
Proof.
  unfold py_isspace, inert. intro H.
  repeat match type of H with
         | (_ || _) = true => apply orb_true_iff in H; destruct H as [H|H]
         end;
    repeat match goal with
           | H : (_ && _) = true |- _ => apply andb_true_iff in H; destruct H
           | H : (_ =? _) = true |- _ => apply N.eqb_eq in H
           | H : (_ <=? _) = true |- _ => apply N.leb_le in H
           end; lia.
Qed.

Ltac kill_tests :=
  repeat match goal with
         | |- context [N.eqb ?c ?k] =>
             destruct (N.eqb_spec c k); [exfalso; lia|]
         | |- context [N.leb ?a ?b] =>
             destruct (N.leb_spec a b); cbn [andb orb negb]
         | |- context [N.ltb ?a ?b] =>
             destruct (N.ltb_spec a b); cbn [andb orb negb]
         end.

Lemma inert_idle (toks : list token) (c : char) :
  inert c ->
  lex_idle toks c = if is_json_ws c then Some (LIdle, toks) else None.
Proof.
  unfold inert, lex_idle. intro H. destruct (is_json_ws c); [reflexivity|].
  unfold is_digit. kill_tests; try reflexivity; exfalso; lia.
Qed.

Lemma inert_num_next (ns : num_state) (c : char) : inert c -> num_next ns c = None.
Proof.
  unfold inert. intro H.
  destruct ns; unfold num_next, is_digit, is_exp_char; kill_tests;
    try reflexivity; exfalso; lia.
Qed.

Lemma inert_unescape (c : char) : inert c -> unescape c = None.
Proof. unfold inert, unescape. intro H. kill_tests. reflexivity. Qed.

Lemma inert_hexval (c : char) : inert c -> hexval c = None.
Proof.
  unfold inert, hexval, is_digit. intro H. kill_tests; try reflexivity; exfalso; lia.
Qed.

Lemma inert_lit_char (c x : char) : inert c -> lit_char x = true -> (c =? x) = false.
Proof.
  unfold inert, lit_char. intros H Hx. apply N.eqb_neq. intros <-.
  apply orb_true_iff in Hx as [Hx|Hx].
  - apply andb_true_iff in Hx as [H1 H2]. apply N.leb_le in H1, H2. lia.
  - apply N.eqb_eq in Hx. lia.
Qed.

(** An inert character after which the text can end is JSON white space,
    and the text could have ended before it with the same tokens. *)
Lemma lex_step_inert (st st' r : lstate) (c : char) :
  mode_ok (fst st) = true -> inert c ->
  lex_step st c = Some st' -> lex_flush st' = Some r ->
  is_json_ws c = true /\ lex_flush st = Some r.
Proof.
  destruct st as [m toks]. cbn [fst]. intros Hok Hc Hs Hf.
  destruct m as [|ns acc|rest tok|acc hi|acc hi|acc hi k v]; cbn [lex_step] in Hs.
  - rewrite (inert_idle _ _ Hc) in Hs. destruct (is_json_ws c); [|discriminate].
    injection Hs as <-. now split.
  - rewrite (inert_num_next _ _ Hc) in Hs.
    assert ((c =? 73) = false) as E by (apply N.eqb_neq; unfold inert in Hc; lia).
    cbn [lex_flush].
    destruct ns; rewrite ?E in Hs; try discriminate;
      (destruct (num_token _ acc) as [t|]; [|discriminate];
       rewrite (inert_idle _ _ Hc) in Hs; destruct (is_json_ws c); [|discriminate];
       injection Hs as <-; now split).
  - destruct rest as [|x rest]; [discriminate|].
    cbn [mode_ok forallb] in Hok. apply andb_true_iff in Hok as [Hx _].
    now rewrite (inert_lit_char _ _ Hc Hx) in Hs.
  - destruct (c =? 34) eqn:E1.
    { apply N.eqb_eq in E1. unfold inert in Hc. lia. }
    destruct (c =? 92) eqn:E2.
    { apply N.eqb_eq in E2. unfold inert in Hc. lia. }
    destruct (c <? 32); [discriminate|]. injection Hs as <-. discriminate.
  - destruct (c =? 117) eqn:E1.
    { apply N.eqb_eq in E1. unfold inert in Hc. lia. }
    now rewrite (inert_unescape _ Hc) in Hs.
  - now rewrite (inert_hexval _ Hc) in Hs.
Qed.

Lemma lex_step_ok (st st' : lstate) (c : char) :
  mode_ok (fst st) = true -> lex_step st c = Some st' -> mode_ok (fst st') = true.
Proof.
  destruct st as [m toks]. cbn [fst]. intros Hok Hs.
  assert (forall t st1, lex_idle t c = Some st1 -> mode_ok (fst st1) = true) as Hidle.
  { intros t st1. unfold lex_idle.
    repeat match goal with
           | |- context [if ?b then _ else _] => destruct b
           end; intro H; try discriminate; injection H as <-; reflexivity. }
  destruct m as [|ns acc|rest tok|acc hi|acc hi|acc hi k v]; cbn [lex_step] in Hs.
  - eapply Hidle; eassumption.
  - destruct (num_next ns c); [injection Hs as <-; reflexivity|].
    destruct ns;
      try (destruct (num_token _ acc); [eapply Hidle; eassumption|discriminate]).
    destruct (c =? 73); [injection Hs as <-; reflexivity|discriminate].
  - destruct rest as [|x rest]; [discriminate|].
    cbn [mode_ok forallb] in Hok. apply andb_true_iff in Hok as [_ Hr].
    destruct (c =? x); [|discriminate].
    destruct rest; injection Hs as <-; [reflexivity|exact Hr].
  - repeat match type of Hs with
           | (if ?b then _ else _) = _ => destruct b
           end; try discriminate; injection Hs as <-; reflexivity.
  - destruct (c =? 117); [injection Hs as <-; reflexivity|].
    destruct (unescape c); [injection Hs as <-; reflexivity|discriminate].
  - destruct (hexval c); [|discriminate].
    destruct k as [|[|[|[|k]]]]; injection Hs as <-; try reflexivity.
    unfold lex_unit. destruct hi; repeat match goal with
           | |- context [if ?b then _ else _] => destruct b
           end; reflexivity.
Qed.

Lemma lex_run_ok (s : str) (st st' : lstate) :
  mode_ok (fst st) = true -> lex_run st s = Some st' -> mode_ok (fst st') = true.
Proof.
  revert st; induction s as [|c s IH]; simpl; intros st Hok H.
  - injection H as <-. exact Hok.
  - destruct (lex_step st c) as [st1|] eqn:E; [|discriminate].
    eapply IH; [|exact H]. eapply lex_step_ok; eassumption.
Qed.

Lemma lex_run_snoc (s : str) (c : char) (st : lstate) :
  lex_run st (s ++ [c])
  = match lex_run st s with
    | Some st1 => lex_step st1 c
    | None => None
    end.
Proof.
  revert st; induction s as [|x s IH]; simpl; intro st.
  - now destruct (lex_step st c).
  - destruct (lex_step st x); [apply IH|reflexivity].
Qed.

(** The text of a successful scan, with an inert character removed at its
    front or at its end, scans to the same tokens. *)
Lemma lex_inert_front (c : char) (s : str) (toks : list token) :
  inert c -> lex (c :: s) = Some toks -> lex s = Some toks.
Proof.
  unfold lex. cbn [lex_run lex_step]. intros Hc H.
  rewrite (inert_idle _ _ Hc) in H. now destruct (is_json_ws c).
Qed.

Lemma lex_inert_back (c : char) (s : str) (toks : list token) :
  inert c -> lex (s ++ [c]) = Some toks -> lex s = Some toks.
Proof.
  unfold lex. rewrite lex_run_snoc. intros Hc H.
  destruct (lex_run (LIdle, []) s) as [st|] eqn:E; [|discriminate].
  destruct (lex_step st c) as [st'|] eqn:Es; [|discriminate].
  destruct (lex_flush st') as [r|] eqn:Ef; [|discriminate].
  assert (mode_ok (fst st) = true) as Hok by (eapply lex_run_ok; [|exact E]; reflexivity).
  destruct (lex_step_inert st st' r c Hok Hc Es Ef) as [_ ->]. exact H.
Qed.

(** *** Code fences *)

Lemma json_ws_isspace (c : char) : is_json_ws c = true -> py_isspace c = true.
Proof.
  unfold is_json_ws. intro H.
  repeat match type of H with
         | (_ || _) = true => apply orb_true_iff in H; destruct H as [H|H]
         end; apply N.eqb_eq in H; subst; reflexivity.
Qed.

Lemma rstrip_snoc (s : str) (c : char) :
  rstrip (s ++ [c]) = if py_isspace c then rstrip s else s ++ [c].
Proof.
  induction s as [|x s IH]; simpl.
  - now destruct (py_isspace c).
  - rewrite IH. destruct (py_isspace c) eqn:E.
    + reflexivity.
    + now destruct (s ++ [c]) eqn:Es; [destruct s; discriminate|].
Qed.

Lemma lstrip_app (a b : str) : lstrip a <> [] -> lstrip (a ++ b) = lstrip a ++ b.
Proof.
  induction a as [|c a IH]; simpl; intro H; [contradiction|].
  destruct (py_isspace c); [now apply IH|reflexivity].
Qed.

Lemma lstrip_head (s : str) (c : char) (r : str) :
  lstrip s = c :: r -> py_isspace c = false.
Proof.
  induction s as [|x s IH]; simpl; [discriminate|].
  destruct (py_isspace x) eqn:E; [exact IH|]. intro H. injection H as <- _. exact E.
Qed.

Lemma rstrip_last (s r : str) (c : char) :
  rstrip s = r ++ [c] -> py_isspace c = false.
Proof.
  revert r; induction s as [|x s IH] using rev_ind; intro r.
  - simpl. destruct r; discriminate.
  - rewrite rstrip_snoc. destruct (py_isspace x) eqn:E; [apply IH|].
    intro H. apply app_inj_tail in H as [_ <-]. exact E.
Qed.

Lemma lex_lstrip (t : str) (toks : list token) :
  lex t = Some toks -> lex (lstrip t) = Some toks.
Proof.
  induction t as [|c t IH]; simpl; intro H; [exact H|].
  destruct (py_isspace c) eqn:E; [|exact H].
  apply IH. eapply lex_inert_front; [|exact H]. now apply py_isspace_inert.
Qed.

Lemma lex_rstrip (t : str) (toks : list token) :
  lex t = Some toks -> lex (rstrip t) = Some toks.
Proof.
  induction t as [|c t IH] using rev_ind; intro H; [exact H|].
  rewrite rstrip_snoc. destruct (py_isspace c) eqn:E; [|exact H].
  apply IH. eapply lex_inert_back; [|exact H]. now apply py_isspace_inert.
Qed.

Lemma lex_strip (t : str) (toks : list token) :
  lex t = Some toks -> lex (strip t) = Some toks.
Proof. intro H. unfold strip. now apply lex_rstrip, lex_lstrip. Qed.

Lemma lex_front_not_inert (c : char) (s : str) (toks : list token) :
  lex (c :: s) = Some toks -> py_isspace c = false -> ~ inert c.
Proof.
  unfold lex. cbn [lex_run lex_step]. intros H Hs Hc.
  rewrite (inert_idle _ _ Hc) in H.
  destruct (is_json_ws c) eqn:E; [|discriminate].
  apply json_ws_isspace in E. congruence.
Qed.

Lemma lex_back_not_inert (c : char) (s : str) (toks : list token) :
  lex (s ++ [c]) = Some toks -> py_isspace c = false -> ~ inert c.
Proof.
  unfold lex. rewrite lex_run_snoc. intros H Hs Hc.
  destruct (lex_run (LIdle, []) s) as [st|] eqn:E; [|discriminate].
  destruct (lex_step st c) as [st'|] eqn:Es; [|discriminate].
  destruct (lex_flush st') as [r|] eqn:Ef; [|discriminate].
  assert (mode_ok (fst st) = true) as Hok by (eapply lex_run_ok; [|exact E]; reflexivity).
  destruct (lex_step_inert st st' r c Hok Hc Es Ef) as [Hw _].
  apply json_ws_isspace in Hw. congruence.
Qed.

(** The text of a JSON value, stripped: it is not empty, and neither its
    first nor its last character is a backtick. *)
Lemma json_text_ends (t : str) (v : value) :
  json_loads rt t = Some v ->
  json_loads rt (strip t) = Some v
  /\ exists c0 w s c1,
      strip t = c0 :: w /\ strip t = s ++ [c1] /\ c0 <> 96 /\ c1 <> 96.
Proof.
  unfold json_loads. intro H.
  destruct (lex t) as [toks|] eqn:El; [|discriminate].
  pose proof (lex_strip _ _ El) as Es. rewrite Es. split; [exact H|].
  destruct (strip t) as [|c0 w] eqn:Eu.
  { unfold lex in Es. simpl in Es. injection Es as <-. discriminate. }
  destruct (rstrip_prefix (lstrip t)) as (post & Hpost).
  fold (strip t) in Hpost. rewrite Eu in Hpost.
  assert (py_isspace c0 = false) as Hc0 by (eapply lstrip_head; exact Hpost).
  destruct (exists_last (l := c0 :: w)) as (s0 & c1 & Hlast); [discriminate|].
  assert (py_isspace c1 = false) as Hc1.
  { eapply rstrip_last. unfold strip in Eu. rewrite Eu. exact Hlast. }
  exists c0, w, s0, c1. split; [reflexivity|].
  split; [exact Hlast|]. split.
  - intros ->. apply (lex_front_not_inert _ _ _ Es Hc0). right. now left.
  - intros ->. rewrite Hlast in Es. apply (lex_back_not_inert _ _ _ Es Hc1).
    right. now left.
Qed.

Lemma firstn_app_exact (a b : str) :
  firstn (List.length (a ++ b) - List.length b) (a ++ b) = a.
Proof.
  rewrite length_app, Nat.add_sub, firstn_app, Nat.sub_diag, firstn_all.
  simpl. apply app_nil_r.
Qed.

Lemma startswith_head_neq (x c : char) (p s : str) :
  x <> c -> startswith (x :: p) (c :: s) = false.
Proof. intro H. cbn [startswith]. now rewrite (proj2 (N.eqb_neq x c) H). Qed.

Lemma fence_json_head : fence_json = 96 :: lit "``json".
Proof. reflexivity. Qed.

Lemma fence_head : fence = 96 :: lit "``".
Proof. reflexivity. Qed.

Lemma clean_response_plain (u : str) (c0 c1 : char) (w s : str) :
  strip u = u -> u = c0 :: w -> u = s ++ [c1] -> c0 <> 96 -> c1 <> 96 ->
  clean_response u = u.
Proof.
  intros Hs H0 H1 Hc0 Hc1. unfold clean_response. rewrite Hs.
  assert (startswith fence_json u = false) as ->.
  { rewrite H0, fence_json_head. apply startswith_head_neq. congruence. }
  assert (startswith fence u = false) as ->.
  { rewrite H0, fence_head. apply startswith_head_neq. congruence. }
  assert (endswith fence u = false) as ->; [|reflexivity].
  unfold endswith. rewrite H1, rev_unit.
  change (rev fence) with (96 :: lit "``"). apply startswith_head_neq. congruence.
Qed.

Lemma strip_idempotent (t : str) : strip (strip t) = strip t.
Proof.
  unfold strip at 1.
  destruct (strip t) as [|c0 w] eqn:Eu; [reflexivity|].
  destruct (rstrip_prefix (lstrip t)) as (post & Hpost). fold (strip t) in Hpost.
  rewrite Eu in Hpost.
  assert (py_isspace c0 = false) as Hc0 by (eapply lstrip_head; exact Hpost).
  simpl. rewrite Hc0.
  destruct (exists_last (l := c0 :: w)) as (s0 & c1 & Hlast); [discriminate|].
  assert (py_isspace c1 = false) as Hc1.
  { eapply rstrip_last. unfold strip in Eu. rewrite Eu. exact Hlast. }
  change (match rstrip w with
          | [] => if py_isspace c0 then [] else [c0]
          | c :: l => c0 :: c :: l
          end) with (rstrip (c0 :: w)).
  rewrite Hlast, rstrip_snoc, Hc1. reflexivity.
Qed.

Lemma lstrip_nonspace (c : char) (s : str) :
  py_isspace c = false -> lstrip (c :: s) = c :: s.
Proof. intro H. cbn [lstrip]. now rewrite H. Qed.

Lemma lstrip_space (c : char) (s : str) :
  py_isspace c = true -> lstrip (c :: s) = lstrip s.
Proof. intro H. cbn [lstrip]. now rewrite H. Qed.

Lemma fenced_head (t : str) :
  fenced t = 96 :: (lit "``json" ++ [10] ++ t ++ [10] ++ fence).
Proof. reflexivity. Qed.

Lemma fenced_tail (t : str) : fenced t = (fence_json ++ [10] ++ t ++ [10]) ++ fence.
Proof. unfold fenced. now rewrite <- !app_assoc. Qed.

Lemma clean_response_fenced (t : str) (c0 c1 : char) (w s : str) :
  strip t = c0 :: w -> strip t = s ++ [c1] -> c0 <> 96 -> c1 <> 96 ->
  clean_response (fenced t) = strip t.
Proof.
  intros H0 H1 Hc0 Hc1.
  assert (lstrip t <> []) as Hl.
  { intro E. unfold strip in H0. rewrite E in H0. discriminate. }
  assert (forall x, rstrip (x ++ fence) = x ++ fence) as Hr.
  { intro x. change fence with ([96; 96] ++ [96]). rewrite app_assoc, rstrip_snoc.
    reflexivity. }
  unfold clean_response.
  assert (strip (fenced t) = fenced t) as ->.
  { transitivity (rstrip (fenced t)).
    - reflexivity.
    - rewrite (fenced_tail t). apply Hr. }
  assert (startswith fence_json (fenced t) = true) as -> by reflexivity.
  assert (skipn 7 (fenced t) = 10 :: (t ++ [10] ++ fence)) as -> by reflexivity.
  assert (strip (10 :: (t ++ [10] ++ fence)) = lstrip t ++ [10] ++ fence) as ->.
  { unfold strip. rewrite (lstrip_space 10) by reflexivity.
    rewrite (lstrip_app _ _ Hl), app_assoc. apply Hr. }
  assert (startswith fence_json (lstrip t ++ [10] ++ fence) = false
          /\ startswith fence (lstrip t ++ [10] ++ fence) = false) as [E1 E2].
  { destruct (lstrip t) as [|x l] eqn:E; [contradiction|].
    assert (x = c0) as ->.
    { unfold strip in H0. rewrite E in H0. simpl in H0.
      destruct (rstrip l); [destruct (py_isspace x)|]; congruence. }
    rewrite fence_json_head, fence_head. cbn [app].
    split; apply startswith_head_neq; congruence. }
  assert (forall x, endswith fence (x ++ fence) = true) as He.
  { intro x. unfold endswith. rewrite rev_app_distr. reflexivity. }
  destruct (startswith fence_json (lstrip t ++ [10] ++ fence)); [discriminate|].
  destruct (startswith fence (lstrip t ++ [10] ++ fence)); [discriminate|].
  rewrite app_assoc, He.
  change 3%nat with (List.length fence). rewrite firstn_app_exact.
  assert (lstrip (lstrip t) = lstrip t) as Hll.
  { destruct (lstrip t) as [|x l] eqn:E; [reflexivity|].
    simpl. now rewrite (lstrip_head _ _ _ E). }
  unfold strip at 1. rewrite lstrip_app by (rewrite Hll; exact Hl).
  rewrite Hll, rstrip_snoc. reflexivity.
Qed.

(** C6. When the reply text is a JSON decision object (a JSON text whose
    value is an object with a ["tool"] key), the text wrapped in a [json]
    code fence is interpreted to the same decision as the text itself,
    which is that object. *)
Theorem fenced_reply_same_decision (t : str) (d : pydict pyfloat) :
  json_loads rt t = Some (PDict d) ->
  dict_mem (lit "tool") d = true ->
  interpret rt (fenced t) = interpret rt t /\ interpret rt t = PDict d.
Proof.
  intros Hl Hm.
  destruct (json_text_ends t _ Hl) as (Hs & c0 & w & s & c1 & H0 & H1 & Hc0 & Hc1).
  assert (interpret rt t = PDict d) as Et.
  { unfold interpret, clean_response.
    fold (clean_response (strip t)).
    assert (clean_response t = clean_response (strip t)) as E.
    { unfold clean_response. now rewrite strip_idempotent. }
    unfold clean_response in E at 1. cbv zeta in E.
    cbv zeta. rewrite E.
    rewrite (clean_response_plain (strip t) c0 c1 w s (strip_idempotent t) H0 H1 Hc0 Hc1).
    rewrite Hs. unfold validate. now rewrite Hm. }
  split; [|exact Et]. rewrite Et.
  unfold interpret. rewrite (clean_response_fenced t c0 c1 w s H0 H1 Hc0 Hc1), Hs.
  unfold validate. now rewrite Hm.
Qed.

(** *** Decimal and hexadecimal digits *)

(** The two facts of a Euclidean division, with quotient and remainder
    abstracted, for [lia]. *)
Ltac divmod a b :=
  let q := fresh "q" in
  let r := fresh "r" in
  pose proof (N.div_mod' a b);
  pose proof (N.mod_upper_bound a b ltac:(discriminate));
  set (q := a / b) in *; set (r := a mod b) in *; clearbody q r.

Lemma N_of_digits_snoc (ds : str) (d : char) :
  N_of_digits (ds ++ [d]) = 10 * N_of_digits ds + (d - 48).
Proof. unfold N_of_digits. now rewrite fold_left_app. Qed.

Lemma is_digit_add (m : N) : m < 10 -> is_digit (48 + m) = true.
Proof.
  intro H. unfold is_digit.
  destruct (N.leb_spec 48 (48 + m)), (N.leb_spec (48 + m) 57); cbn [andb];
    try reflexivity; exfalso; lia.
Qed.

Lemma digits_fuel_spec (fuel : nat) (n : N) :
  n < 2 ^ N.of_nat fuel ->
  forallb is_digit (digits_fuel fuel n) = true
  /\ N_of_digits (digits_fuel fuel n) = n
  /\ exists d ds, digits_fuel fuel n = d :: ds
                  /\ (n <> 0 -> d <> 48) /\ (n = 0 -> ds = []).
Proof.
  revert n; induction fuel as [|f IH]; intros n Hn.
  - assert (n = 0) as -> by (simpl in Hn; lia). simpl. repeat split.
    exists 48, []. repeat split. intro H; contradiction.
  - cbn [digits_fuel]. destruct (N.ltb_spec n 10) as [Hl|Hl].
    + repeat split.
      * cbn [forallb]. now rewrite is_digit_add.
      * unfold N_of_digits. cbn [fold_left]. lia.
      * exists (48 + n), []. repeat split. lia.
    + rewrite Nat2N.inj_succ, N.pow_succ_r' in Hn. divmod n 10.
      assert (q < 2 ^ N.of_nat f) as Hd by lia.
      destruct (IH _ Hd) as (Ha & Hv & d & ds & E & Hnz & _).
      repeat split.
      * rewrite forallb_app, Ha. cbn [forallb]. now rewrite is_digit_add.
      * rewrite N_of_digits_snoc, Hv. lia.
      * exists d, (ds ++ [48 + r]). rewrite E. repeat split.
        -- intros _. apply Hnz. lia.
        -- intros ->. lia.
Qed.

Lemma str_of_N_spec (n : N) :
  forallb is_digit (str_of_N n) = true
  /\ N_of_digits (str_of_N n) = n
  /\ exists d ds, str_of_N n = d :: ds /\ (n <> 0 -> d <> 48) /\ (n = 0 -> ds = []).
Proof.
  apply digits_fuel_spec. rewrite N2Nat.id. apply N.size_gt.
Qed.

Lemma Z_of_lexeme_digits (d : char) (ds : str) :
  d <> 45 -> Z_of_lexeme (d :: ds) = Z.of_N (N_of_digits (d :: ds)).
Proof.
  intro H. unfold Z_of_lexeme. destruct d as [|q]; [reflexivity|].
  do 6 (try destruct q as [q|q|]); try reflexivity.
  exfalso. apply H. reflexivity.
Qed.

Lemma Z_of_lexeme_str_of_Z (z : Z) : Z_of_lexeme (str_of_Z z) = z.
Proof.
  destruct z as [|p|p]; unfold str_of_Z.
  - reflexivity.
  - destruct (str_of_N_spec (Z.to_N (Z.pos p))) as (Ha & Hv & d & ds & E & _).
    unfold Z_of_lexeme. rewrite E in *.
    assert (d <> 45) as Hd.
    { simpl in Ha. apply andb_true_iff in Ha as [Ha _]. unfold is_digit in Ha.
      apply andb_true_iff in Ha as [H1 _]. apply N.leb_le in H1. lia. }
    fold (Z_of_lexeme (d :: ds)). rewrite (Z_of_lexeme_digits d ds Hd), Hv.
    reflexivity.
  - unfold Z_of_lexeme.
    destruct (str_of_N_spec (N.pos p)) as (_ & -> & _). reflexivity.
Qed.

Lemma hexval_hexdigit (d : N) : d < 16 -> hexval (hexdigit d) = Some d.
Proof.
  intro H. unfold hexdigit. destruct (N.ltb_spec d 10).
  - unfold hexval, is_digit. kill_tests; try (exfalso; lia). f_equal. lia.
  - unfold hexval, is_digit. kill_tests; try (exfalso; lia). f_equal. lia.
Qed.

(** *** Scanning the text that [json.dumps] writes *)

Lemma lex_run_app (a b : str) (st : lstate) :
  lex_run st (a ++ b)
  = match lex_run st a with
    | Some st1 => lex_run st1 b
    | None => None
    end.
Proof.
  revert st; induction a as [|x a IH]; simpl; intro st; [reflexivity|].
  destruct (lex_step st x); [apply IH|reflexivity].
Qed.

Lemma lex_step_flushed (st st0 : lstate) (c : char) :
  lex_flush st = Some st0 -> is_delim c -> lex_step st c = lex_step st0 c.
Proof.
  destruct st as [m toks]. unfold is_delim. intros Hf Hc.
  destruct m as [|ns acc| | | |]; try discriminate.
  - now injection Hf as <-.
  - cbn [lex_flush] in Hf. cbn [lex_step].
    destruct (num_token ns acc) as [tok|] eqn:Et; [|discriminate].
    injection Hf as <-.
    assert (num_next ns c = None) as ->.
    { destruct ns; unfold num_next, is_digit, is_exp_char; kill_tests;
        try reflexivity; exfalso; lia. }
    destruct ns; try discriminate; reflexivity.
Qed.

Lemma scanned_then (toks : list token) (text : str) (ts : list token)
      (c : char) (rest : str) :
  scanned toks text ts -> is_delim c ->
  lex_run (LIdle, toks) (text ++ c :: rest)
  = match lex_step (LIdle, rev ts ++ toks) c with
    | Some st => lex_run st rest
    | None => None
    end.
Proof.
  intros (st & Hr & Hf) Hc. rewrite lex_run_app, Hr. cbn [lex_run].
  now rewrite (lex_step_flushed _ _ _ Hf Hc).
Qed.

Lemma lex_digits (ds acc : str) (toks : list token) :
  forallb is_digit ds = true ->
  lex_run (LNum NInt acc, toks) ds = Some (LNum NInt (rev ds ++ acc), toks).
Proof.
  revert acc; induction ds as [|d ds IH]; intros acc H; [reflexivity|].
  cbn [forallb] in H. apply andb_true_iff in H as [Hd Hds].
  cbn [lex_run lex_step num_next]. rewrite Hd, (IH _ Hds).
  cbn [rev]. now rewrite <- app_assoc.
Qed.

Lemma lex_idle_digit (d : char) (toks : list token) :
  is_digit d = true -> d <> 48 -> lex_idle toks d = Some (LNum NInt [d], toks).
Proof.
  intros Hd Hz. unfold is_digit in Hd. apply andb_true_iff in Hd as [H1 H2].
  apply N.leb_le in H1, H2.
  unfold lex_idle, is_json_ws, is_digit. kill_tests; try reflexivity; exfalso; lia.
Qed.

Lemma scanned_positive (p : positive) (toks : list token) :
  exists d ds,
    str_of_N (N.pos p) = d :: ds /\ is_digit d = true /\ d <> 48 /\ d <> 45
    /\ forall acc,
        lex_run (LNum NInt (d :: acc), toks) ds
        = Some (LNum NInt (rev (str_of_N (N.pos p)) ++ acc), toks).
Proof.
  destruct (str_of_N_spec (N.pos p)) as (Ha & _ & d & ds & E & Hnz & _).
  rewrite E in Ha. cbn [forallb] in Ha. apply andb_true_iff in Ha as [Hd Hds].
  exists d, ds. repeat split; try assumption.
  - apply Hnz. discriminate.
  - intros ->. discriminate.
  - intro acc0. rewrite (lex_digits _ _ _ Hds), E. cbn [rev].
    now rewrite <- app_assoc.
Qed.

(** After the text of an integer the scanner holds that text, in the
    integer part of a number. *)
Lemma lex_int_state (z : Z) (toks : list token) :
  exists ns acc,
    lex_run (LIdle, toks) (str_of_Z z) = Some (LNum ns acc, toks)
    /\ (ns = NZero \/ ns = NInt) /\ rev acc = str_of_Z z.
Proof.
  destruct z as [|p|p].
  - exists NZero, [48]. repeat split. now left.
  - destruct (scanned_positive p toks) as (d & ds & E & Hd & Hz & _ & Hrun).
    exists NInt, (rev (str_of_N (N.pos p)) ++ []).
    change (str_of_Z (Z.pos p)) with (str_of_N (N.pos p)).
    split; [|split; [now right|now rewrite app_nil_r, rev_involutive]].
    rewrite E at 1. cbn [lex_run lex_step].
    now rewrite (lex_idle_digit _ _ Hd Hz), Hrun.
  - destruct (scanned_positive p toks) as (d & ds & E & Hd & Hz & _ & Hrun).
    exists NInt, (rev (str_of_N (N.pos p)) ++ [45]).
    change (str_of_Z (Z.neg p)) with (45 :: str_of_N (N.pos p)).
    split; [|split; [now right|now rewrite rev_app_distr, rev_involutive]].
    rewrite E at 1. cbn [lex_run lex_step].
    change (lex_idle toks 45) with (Some (LNum NMinus [45], toks)).
    cbn [lex_step num_next].
    assert ((d =? 48) = false) as -> by now apply N.eqb_neq.
    now rewrite Hd, Hrun.
Qed.

Lemma scanned_int (z : Z) (toks : list token) : scanned toks (str_of_Z z) [TInt z].
Proof.
  destruct (lex_int_state z toks) as (ns & acc & Hr & Hns & Hacc).
  exists (LNum ns acc, toks). split; [exact Hr|].
  destruct Hns as [-> | ->]; cbn [lex_flush num_token rev app];
    now rewrite Hacc, Z_of_lexeme_str_of_Z.
Qed.

(** The characters of the text of an integer are digits, after a possible
    minus sign. *)
Lemma str_of_Z_chars (z : Z) :
  forallb (fun c => is_digit c || (c =? 45)) (str_of_Z z) = true.
Proof.
  assert (forall n, forallb (fun c => is_digit c || (c =? 45)) (str_of_N n) = true) as H.
  { intro n. destruct (str_of_N_spec n) as (Ha & _). rewrite forallb_forall in Ha |- *.
    intros c Hc. now rewrite (Ha c Hc). }
  destruct z as [|p|p]; [reflexivity|apply H|]. cbn [str_of_Z forallb].
  now rewrite H.
Qed.

(** *** Strings *)

Lemma hex4_digits (n : N) :
  n < 65536 ->
  exists a b c d,
    a < 16 /\ b < 16 /\ c < 16 /\ d < 16
    /\ hex4 n = [hexdigit a; hexdigit b; hexdigit c; hexdigit d]
    /\ 16 * (16 * (16 * (16 * 0 + a) + b) + c) + d = n.
Proof.
  intro H. exists (n / 4096 mod 16), (n / 256 mod 16), (n / 16 mod 16), (n mod 16).
  repeat split; try (apply N.mod_upper_bound; discriminate).
  change 4096 with (16 * (16 * 16)). change 256 with (16 * 16).
  rewrite <- !N.Div0.div_div.
  divmod n 16. divmod q 16. divmod q0 16. divmod q1 16. lia.
Qed.

Lemma lex_hex4 (n : N) (acc : str) (hi : option char) (toks : list token) (r : str) :
  n < 65536 ->
  lex_run (LUni acc hi 0 0, toks) (hex4 n ++ r) = lex_run (lex_unit acc hi n, toks) r.
Proof.
  intro H. destruct (hex4_digits n H) as (a & b & c & d & Ha & Hb & Hc & Hd & -> & E).
  cbn [app lex_run lex_step].
  rewrite !hexval_hexdigit by assumption. cbn [lex_run lex_step].
  rewrite !hexval_hexdigit by assumption. cbn [lex_run lex_step].
  rewrite !hexval_hexdigit by assumption. cbn [lex_run lex_step].
  rewrite !hexval_hexdigit by assumption. now rewrite E.
Qed.

Lemma lex_unit_after (acc : str) (hi : option char) (c : char) :
  match hi with
  | Some h => is_high_surrogate h = true /\ is_low_surrogate c = false
  | None => True
  end ->
  lex_unit acc hi c = after_char acc hi c.
Proof.
  unfold lex_unit, after_char. destruct hi as [h|]; [|reflexivity].
  intros [_ ->]. reflexivity.
Qed.

Lemma lex_escape_char (c : char) (acc : str) (hi : option char)
      (toks : list token) (r : str) :
  c < 1114112 ->
  match hi with
  | Some h => is_high_surrogate h = true /\ is_low_surrogate c = false
  | None => True
  end ->
  lex_run (LStr acc hi, toks) (escape_char c ++ r)
  = lex_run (after_char acc hi c, toks) r.
Proof.
  intros Hc Hhi. unfold escape_char.
  destruct (N.eqb_spec c 34) as [->|H34]; [reflexivity|].
  destruct (N.eqb_spec c 92) as [->|H92]; [reflexivity|].
  destruct (N.eqb_spec c 10) as [->|H10]; [reflexivity|].
  destruct (N.eqb_spec c 13) as [->|H13]; [reflexivity|].
  destruct (N.eqb_spec c 9) as [->|H9]; [reflexivity|].
  destruct (N.eqb_spec c 12) as [->|H12]; [reflexivity|].
  destruct (N.eqb_spec c 8) as [->|H8]; [reflexivity|].
  destruct (N.leb_spec 32 c) as [Hlo|Hlo]; [destruct (N.leb_spec c 126) as [Hup|Hup]|];
    cbn [andb].
  - cbn [app lex_run lex_step].
    rewrite (proj2 (N.eqb_neq c 34) H34), (proj2 (N.eqb_neq c 92) H92).
    destruct (N.ltb_spec c 32); [exfalso; lia|].
    unfold after_char, is_high_surrogate.
    destruct (N.leb_spec 55296 c); [exfalso; lia|]. reflexivity.
  - destruct (N.ltb_spec c 65536) as [H16|H16].
    + change (lex_run (LStr acc hi, toks) ((92 :: 117 :: hex4 c) ++ r))
        with (lex_run (LUni acc hi 0 0, toks) (hex4 c ++ r)).
      rewrite (lex_hex4 _ _ _ _ _ H16). now rewrite lex_unit_after.
    + divmod (c - 65536) 1024.
      assert (is_high_surrogate (55296 + q) = true) as Hh.
      { unfold is_high_surrogate. apply andb_true_iff.
        split; apply N.leb_le; lia. }
      assert (is_low_surrogate (55296 + q) = false) as Hnl.
      { unfold is_low_surrogate. apply andb_false_iff. left. apply N.leb_gt. lia. }
      assert (is_low_surrogate (56320 + r0) = true) as Hl.
      { unfold is_low_surrogate. apply andb_true_iff.
        split; apply N.leb_le; lia. }
      assert (is_high_surrogate c = false) as Hnh.
      { unfold is_high_surrogate. apply andb_false_iff. right. apply N.leb_gt. lia. }
      cbn [app]. rewrite <- app_assoc.
      change (lex_run (LStr acc hi, toks)
                (92 :: 117 :: hex4 (55296 + q) ++ (92 :: 117 :: hex4 (56320 + r0)) ++ r))
        with (lex_run (LUni acc hi 0 0, toks)
                (hex4 (55296 + q) ++ (92 :: 117 :: hex4 (56320 + r0)) ++ r)).
      rewrite lex_hex4 by lia.
      assert (lex_unit acc hi (55296 + q) = LStr (push_hi hi acc) (Some (55296 + q))) as ->.
      { unfold lex_unit. destruct hi; now rewrite ?Hnl, Hh. }
      change (lex_run (LStr (push_hi hi acc) (Some (55296 + q)), toks)
                ((92 :: 117 :: hex4 (56320 + r0)) ++ r))
        with (lex_run (LUni (push_hi hi acc) (Some (55296 + q)) 0 0, toks)
                (hex4 (56320 + r0) ++ r)).
      rewrite lex_hex4 by lia.
      unfold lex_unit, after_char. rewrite Hl, Hnh. unfold join_surrogates.
      replace (65536 + (55296 + q - 55296) * 1024 + (56320 + r0 - 56320)) with c by lia.
      reflexivity.
  - destruct (N.ltb_spec c 65536) as [H16|H16]; [|exfalso; lia].
    change (lex_run (LStr acc hi, toks) ((92 :: 117 :: hex4 c) ++ r))
      with (lex_run (LUni acc hi 0 0, toks) (hex4 c ++ r)).
    rewrite (lex_hex4 _ _ _ _ _ H16). now rewrite lex_unit_after.
Qed.

Lemma lex_escaped (s : str) (toks : list token) :
  forall acc hi,
    code_points s = true -> no_pair s = true ->
    match hi with
    | Some h => is_high_surrogate h = true /\ starts_low s = false
    | None => True
    end ->
    lex_run (LStr acc hi, toks) (flat_map escape_char s ++ [34])
    = Some (LIdle, TString (rev (push_hi hi acc) ++ s) :: toks).
Proof.
  induction s as [|c s IH]; intros acc hi Hcp Hnp Hhi.
  - cbn. now rewrite app_nil_r.
  - cbn [code_points forallb] in Hcp. apply andb_true_iff in Hcp as [Hc Hcp].
    apply N.ltb_lt in Hc.
    cbn [no_pair] in Hnp. apply andb_true_iff in Hnp as [Hp Hnp].
    cbn [flat_map]. rewrite <- app_assoc, lex_escape_char; [|exact Hc|exact Hhi].
    unfold after_char. destruct (is_high_surrogate c) eqn:Eh.
    + rewrite IH; [|exact Hcp|exact Hnp|].
      * cbn [push_hi rev]. now rewrite <- app_assoc.
      * split; [exact Eh|]. cbn [andb] in Hp. apply negb_true_iff in Hp.
        destruct s; [reflexivity|exact Hp].
    + rewrite IH; [|exact Hcp|exact Hnp|exact I].
      cbn [push_hi rev]. now rewrite <- app_assoc.
Qed.

Lemma scanned_str (s : str) (toks : list token) :
  code_points s = true -> no_pair s = true ->
  lex_run (LIdle, toks) (encode_str s) = Some (LIdle, TString s :: toks).
Proof.
  intros Hcp Hnp. unfold encode_str.
  change (lex_run (LIdle, toks) (34 :: flat_map escape_char s ++ [34]))
    with (lex_run (LStr [] None, toks) (flat_map escape_char s ++ [34])).
  now rewrite (lex_escaped s toks [] None Hcp Hnp I).
Qed.

(** *** Values *)

Lemma pyval_induction (P : value -> Prop) :
  P PNone -> (forall b, P (PBool b)) -> (forall z, P (PInt z)) ->
  (forall f, P (PFloat f)) -> (forall s, P (PStr s)) ->
  (forall l, Forall P l -> P (PList l)) ->
  (forall d, Forall (fun kv => P (snd kv)) d -> P (PDict d)) ->
  forall v, P v.
Proof.
  intros HN HB HI HF HS HL HD. fix IH 1.
  intros [|b|z|f|s|l|d]; [exact HN|apply HB|apply HI|apply HF|apply HS| |].
  - apply HL. revert l. fix IHl 1. intros [|x l]; constructor; [apply IH|apply IHl].
  - apply HD. revert d. fix IHd 1. intros [|[k x] d]; constructor; [apply IH|apply IHd].
Qed.

Lemma lex_step_base (m m' : lex_mode) (t t' base : list token) (c : char) :
  lex_step (m, t) c = Some (m', t') -> lex_step (m, t ++ base) c = Some (m', t' ++ base).
Proof.
  intro H. destruct m; cbn [lex_step] in *; unfold lex_idle in *;
    repeat match type of H with
           | context [if ?b then _ else _] => destruct b
           | context [match ?x with _ => _ end] => destruct x
           end; try discriminate; injection H as <- <-; reflexivity.
Qed.

Lemma lex_run_base (s : str) (m m' : lex_mode) (t t' base : list token) :
  lex_run (m, t) s = Some (m', t') -> lex_run (m, t ++ base) s = Some (m', t' ++ base).
Proof.
  revert m t; induction s as [|c s IH]; cbn [lex_run]; intros m t H.
  - now injection H as <- <-.
  - destruct (lex_step (m, t) c) as [[m1 t1]|] eqn:E; [|discriminate].
    rewrite (lex_step_base _ _ _ _ base _ E). now apply IH.
Qed.

Lemma lex_flush_base (m m' : lex_mode) (t t' base : list token) :
  lex_flush (m, t) = Some (m', t') -> lex_flush (m, t ++ base) = Some (m', t' ++ base).
Proof.
  intro H. destruct m; cbn [lex_flush] in *; try discriminate.
  - now injection H as <- <-.
  - destruct (num_token st acc); [|discriminate]. now injection H as <- <-.
Qed.

Lemma lex_flush_idle (st : lstate) (m : lex_mode) (t : list token) :
  lex_flush st = Some (m, t) -> m = LIdle.
Proof.
  destruct st as [m0 t0]. destruct m0; cbn [lex_flush]; try discriminate.
  - now intros [= <- _].
  - destruct (num_token st acc); [|discriminate]. now intros [= <- _].
Qed.

Lemma scanned_lex (text : str) (ts toks : list token) :
  lex text = Some ts -> scanned toks text ts.
Proof.
  unfold lex, scanned.
  destruct (lex_run (LIdle, []) text) as [[m t]|] eqn:Er; [|discriminate].
  destruct (lex_flush (m, t)) as [[m1 t1]|] eqn:Ef; [|discriminate].
  intros [= <-]. rewrite rev_involutive.
  exists (m, t ++ toks). split.
  - exact (lex_run_base _ _ _ _ _ toks Er).
  - rewrite (lex_flush_base _ _ _ _ toks Ef). now rewrite (lex_flush_idle _ _ _ Ef).
Qed.

(** Items separated by a comma and a space, up to the closing bracket. *)
Lemma scanned_items (close : char) (close_tok : token)
      (items : list (str * list token)) :
  is_delim close ->
  (forall t, lex_idle t close = Some (LIdle, close_tok :: t)) ->
  Forall (fun it => forall toks, scanned toks (fst it) (snd it)) items ->
  items <> [] ->
  forall toks,
    lex_run (LIdle, toks) (join (lit ", ") (map fst items) ++ [close])
    = Some (LIdle, close_tok :: rev (join [TComma] (map snd items)) ++ toks).
Proof.
  intros Hd Hc Hall. induction Hall as [|[text ts] items Hit Hall IH]; [contradiction|].
  intros _ toks. cbn [fst snd] in Hit. destruct items as [|it2 items].
  - cbn [map join fst snd]. rewrite (scanned_then _ _ _ _ _ (Hit toks) Hd).
    cbn [lex_step]. now rewrite Hc.
  - change (join (lit ", ") (map fst ((text, ts) :: it2 :: items)) ++ [close])
      with ((text ++ 44 :: 32 :: join (lit ", ") (map fst (it2 :: items))) ++ [close]).
    rewrite <- app_assoc. cbn [app].
    rewrite (scanned_then _ _ _ _ _ (Hit toks)) by (now left).
    change (lex_step (LIdle, rev ts ++ toks) 44)
      with (Some (LIdle, TComma :: rev ts ++ toks)).
    cbv iota.
    change (lex_run (LIdle, TComma :: rev ts ++ toks)
              (32 :: join (lit ", ") (map fst (it2 :: items)) ++ [close]))
      with (lex_run (LIdle, TComma :: rev ts ++ toks)
              (join (lit ", ") (map fst (it2 :: items)) ++ [close])).
    rewrite IH by discriminate.
    change (join [TComma] (map snd ((text, ts) :: it2 :: items)))
      with (ts ++ TComma :: join [TComma] (map snd (it2 :: items))).
    rewrite rev_app_distr. cbn [rev]. now rewrite <- !app_assoc.
Qed.

Lemma wf_str_parts (s : str) : wf_str s = true -> code_points s = true /\ no_pair s = true.
Proof. unfold wf_str. intro H. now apply andb_true_iff in H. Qed.

Lemma scanned_member (k : str) (text : str) (ts : list token) :
  wf_str k = true ->
  (forall toks, scanned toks text ts) ->
  forall toks, scanned toks (encode_str k ++ lit ": " ++ text) (TString k :: TColon :: ts).
Proof.
  intros Hk Hv toks. apply wf_str_parts in Hk as [Hcp Hnp].
  destruct (Hv (TColon :: TString k :: toks)) as (st & Hr & Hf).
  exists st. split.
  - rewrite lex_run_app, (scanned_str _ _ Hcp Hnp). exact Hr.
  - rewrite Hf. cbn [rev]. now rewrite <- !app_assoc.
Qed.

Lemma scanned_value :
  float_contract ->
  forall v, wf_value v = true ->
            forall toks, scanned toks (json_dumps rt v) (tokens_of v).
Proof.
  intros Hfc v. induction v as [|b|z|f|s|l IH|d IH] using pyval_induction;
    intros Hwf toks.
  - eexists. split; reflexivity.
  - destruct b; eexists; split; reflexivity.
  - apply scanned_int.
  - apply scanned_lex, Hfc.
  - apply wf_str_parts in Hwf as [Hcp Hnp].
    eexists. split; [apply (scanned_str _ _ Hcp Hnp)|reflexivity].
  - destruct l as [|v l]; [eexists; split; reflexivity|].
    assert (Forall (fun it => forall toks, scanned toks (fst it) (snd it))
                   (map element_item (v :: l))) as Hitems.
    { cbn [wf_value] in Hwf. rewrite forallb_forall in Hwf.
      apply Forall_map. rewrite Forall_forall in IH |- *.
      intros x Hx. apply IH; [exact Hx|]. now apply Hwf. }
    assert (json_dumps rt (PList (v :: l))
            = 91 :: join (lit ", ") (map fst (map element_item (v :: l))) ++ [93]) as ->
        by (now rewrite map_map).
    assert (tokens_of (PList (v :: l))
            = TLBracket :: join [TComma] (map snd (map element_item (v :: l))) ++ [TRBracket])
      as -> by (now rewrite map_map).
    eexists. split.
    + change (lex_run (LIdle, toks) (91 :: ?x)) with (lex_run (LIdle, TLBracket :: toks) x).
      apply (scanned_items 93 TRBracket); [right; now left|reflexivity|exact Hitems|discriminate].
    + cbn [lex_flush rev]. rewrite rev_app_distr. cbn [rev app].
      now rewrite <- !app_assoc.
  - destruct d as [|kv d]; [eexists; split; reflexivity|].
    assert (Forall (fun it => forall toks, scanned toks (fst it) (snd it))
                   (map member_item (kv :: d))) as Hitems.
    { cbn [wf_value] in Hwf. apply andb_true_iff in Hwf as [_ Hwf].
      rewrite forallb_forall in Hwf.
      apply Forall_map. rewrite Forall_forall in IH |- *.
      intros x Hx. specialize (Hwf x Hx). apply andb_true_iff in Hwf as [Hk Hv].
      apply scanned_member; [exact Hk|]. now apply IH. }
    assert (json_dumps rt (PDict (kv :: d))
            = 123 :: join (lit ", ") (map fst (map member_item (kv :: d))) ++ [125]) as ->
        by (now rewrite map_map).
    assert (tokens_of (PDict (kv :: d))
            = TLBrace :: join [TComma] (map snd (map member_item (kv :: d))) ++ [TRBrace])
      as -> by (now rewrite map_map).
    eexists. split.
    + change (lex_run (LIdle, toks) (123 :: ?x)) with (lex_run (LIdle, TLBrace :: toks) x).
      apply (scanned_items 125 TRBrace); [right; now right|reflexivity|exact Hitems|discriminate].
    + cbn [lex_flush rev]. rewrite rev_app_distr. cbn [rev app].
      now rewrite <- !app_assoc.
Qed.

Lemma lex_dumps (v : value) :
  float_contract -> wf_value v = true -> lex (json_dumps rt v) = Some (tokens_of v).
Proof.
  intros Hfc Hwf. destruct (scanned_value Hfc v Hwf []) as (st & Hr & Hf).
  unfold lex. rewrite Hr, Hf, app_nil_r. now rewrite rev_involutive.
Qed.

(** *** Parsing the tokens of a written value *)

Lemma dict_set_fresh {V : Type} (k : str) (v : V) (d : list (str * V)) :
  existsb (str_eqb k) (map fst d) = false -> dict_set k v d = d ++ [(k, v)].
Proof.
  induction d as [|[k' v'] d IH]; cbn [dict_set map existsb fst]; intro H; [reflexivity|].
  apply orb_false_iff in H as [H1 H2].
  assert (str_eqb k' k = false) as ->.
  { apply str_eqb_neq. intros ->. now rewrite str_eqb_refl in H1. }
  now rewrite (IH H2).
Qed.

Lemma fold_dict_set_fresh {V : Type} (ps d0 : list (str * V)) :
  nodupb (map fst (d0 ++ ps)) = true ->
  fold_left (fun d kv => dict_set (fst kv) (snd kv) d) ps d0 = d0 ++ ps.
Proof.
  revert d0; induction ps as [|[k v] ps IH]; intros d0 H; cbn [fold_left fst snd].
  - now rewrite app_nil_r.
  - assert (existsb (str_eqb k) (map fst d0) = false) as Hk.
    { clear IH. induction d0 as [|[k0 v0] d0 IHd]; [reflexivity|].
      cbn [app map fst nodupb existsb] in H |- *.
      apply andb_true_iff in H as [H1 H2]. apply negb_true_iff in H1.
      rewrite map_app, existsb_app in H1. apply orb_false_iff in H1 as [_ H1].
      cbn [map fst existsb] in H1. apply orb_false_iff in H1 as [H1 _].
      apply orb_false_iff. split; [|now apply IHd].
      apply str_eqb_neq. intros ->. now rewrite str_eqb_refl in H1. }
    rewrite (dict_set_fresh _ _ _ Hk), IH; rewrite <- app_assoc; [reflexivity|exact H].
Qed.

Lemma dict_of_pairs_nodup {V : Type} (d : list (str * V)) :
  nodupb (map fst d) = true -> dict_of_pairs d = d.
Proof. intro H. unfold dict_of_pairs. now rewrite fold_dict_set_fresh. Qed.

Lemma tokens_of_head (v : value) :
  exists t ts, tokens_of v = t :: ts /\ t <> TRBracket.
Proof.
  destruct v as [|[]| | | | |]; eexists; eexists; (split; [reflexivity|discriminate]).
Qed.

Lemma parse_value_list (f : nat) (t : token) (r : list token) :
  t <> TRBracket ->
  parse_value rt (S f) (TLBracket :: t :: r)
  = match parse_elements rt f (t :: r) [] with
    | Some (l, r') => Some (PList l, r')
    | None => None
    end.
Proof. intro H. destruct t; try reflexivity. contradiction. Qed.

Lemma parse_elements_ok (l : list value) :
  Forall parses_back l -> forallb wf_value l = true -> l <> [] ->
  forall fuel acc rest,
    (List.length (join [TComma] (map tokens_of l)) + 1 <= fuel)%nat ->
    parse_elements rt fuel (join [TComma] (map tokens_of l) ++ TRBracket :: rest) acc
    = Some (rev acc ++ l, rest).
Proof.
  intros Hall. induction Hall as [|v l Hv Hall IH]; [contradiction|].
  intros Hwf _ fuel acc rest Hfuel.
  cbn [forallb] in Hwf. apply andb_true_iff in Hwf as [Hwv Hwl].
  destruct fuel as [|f]; [lia|]. cbn [parse_elements].
  destruct l as [|v2 l].
  - cbn [map join] in *. rewrite (Hv Hwv f _ ltac:(lia)). reflexivity.
  - change (join [TComma] (map tokens_of (v :: v2 :: l)))
      with (tokens_of v ++ TComma :: join [TComma] (map tokens_of (v2 :: l))) in *.
    rewrite length_app in Hfuel. cbn [List.length] in Hfuel.
    rewrite <- app_assoc. cbn [app].
    rewrite (Hv Hwv f _ ltac:(lia)).
    rewrite (IH Hwl ltac:(discriminate) f (v :: acc) rest ltac:(lia)).
    cbn [rev]. now rewrite <- app_assoc.
Qed.

Lemma parse_members_ok (d : list (str * value)) :
  Forall (fun kv => parses_back (snd kv)) d ->
  forallb (fun kv => wf_str (fst kv) && wf_value (snd kv)) d = true -> d <> [] ->
  forall fuel acc rest,
    (List.length (join [TComma] (map member_tokens d)) + 1 <= fuel)%nat ->
    parse_members rt fuel (join [TComma] (map member_tokens d) ++ TRBrace :: rest) acc
    = Some (rev acc ++ d, rest).
Proof.
  intros Hall. induction Hall as [|[k v] d Hv Hall IH]; [contradiction|].
  intros Hwf _ fuel acc rest Hfuel. cbn [snd] in Hv.
  cbn [forallb fst snd] in Hwf. apply andb_true_iff in Hwf as [Hwv Hwd].
  apply andb_true_iff in Hwv as [_ Hwv].
  destruct fuel as [|f]; [lia|].
  destruct d as [|kv2 d].
  - cbn [map join member_tokens fst snd app List.length] in *.
    cbn [parse_members]. rewrite (Hv Hwv f _ ltac:(lia)). reflexivity.
  - change (join [TComma] (map member_tokens ((k, v) :: kv2 :: d)))
      with (TString k :: TColon
            :: (tokens_of v ++ TComma :: join [TComma] (map member_tokens (kv2 :: d)))) in *.
    cbn [List.length] in Hfuel. rewrite length_app in Hfuel. cbn [List.length] in Hfuel.
    cbn [app parse_members]. rewrite <- app_assoc. cbn [app].
    rewrite (Hv Hwv f _ ltac:(lia)).
    rewrite (IH Hwd ltac:(discriminate) f ((k, v) :: acc) rest ltac:(lia)).
    cbn [rev]. now rewrite <- app_assoc.
Qed.

Lemma parse_tokens_of (v : value) : float_contract -> parses_back v.
Proof.
  intro Hfc. induction v as [|b|z|f|s|l IH|d IH] using pyval_induction;
    intros Hwf fuel rest Hfuel;
    (destruct fuel as [|fuel];
     [exfalso;
      match type of Hfuel with
      | (List.length (tokens_of ?x) <= _)%nat =>
          destruct (tokens_of_head x) as (t0 & ts0 & E0 & _);
          rewrite E0 in Hfuel; cbn [List.length] in Hfuel; lia
      end|]).
  - reflexivity.
  - destruct b; reflexivity.
  - reflexivity.
  - cbn. now rewrite (proj2 (Hfc f)).
  - reflexivity.
  - destruct l as [|v l]; [reflexivity|].
    cbn [wf_value] in Hwf.
    cbn [tokens_of] in *. cbn [List.length] in Hfuel. rewrite length_app in Hfuel.
    cbn [List.length] in Hfuel. cbn [app]. rewrite <- app_assoc. cbn [app].
    assert (exists t r, join [TComma] (map tokens_of (v :: l)) ++ TRBracket :: rest = t :: r
                        /\ t <> TRBracket) as (t & r & E & Ht).
    { destruct (tokens_of_head v) as (t & ts & Et & Ht).
      destruct l; cbn [map join]; rewrite Et; eexists; eexists; (split; [reflexivity|exact Ht]). }
    rewrite E, (parse_value_list _ _ _ Ht), <- E.
    rewrite (parse_elements_ok _ IH Hwf ltac:(discriminate) fuel [] rest ltac:(lia)).
    reflexivity.
  - destruct d as [|kv d]; [reflexivity|].
    cbn [wf_value] in Hwf. apply andb_true_iff in Hwf as [Hnd Hwf].
    assert (tokens_of (PDict (kv :: d))
            = TLBrace :: join [TComma] (map member_tokens (kv :: d)) ++ [TRBrace]) as E
        by reflexivity.
    rewrite E in *. cbn [List.length] in Hfuel. rewrite length_app in Hfuel.
    cbn [List.length] in Hfuel. cbn [app]. rewrite <- app_assoc. cbn [app].
    assert (exists r, join [TComma] (map member_tokens (kv :: d)) ++ TRBrace :: rest
                      = TString (fst kv) :: r) as (r & Er).
    { destruct d; cbn [map join member_tokens app]; eexists; reflexivity. }
    rewrite Er.
    change (parse_value rt (S fuel) (TLBrace :: TString (fst kv) :: r))
      with (match parse_members rt fuel (TString (fst kv) :: r) [] with
            | Some (ps, r') => Some (PDict (dict_of_pairs ps), r')
            | None => None
            end).
    rewrite <- Er.
    rewrite (parse_members_ok _ IH Hwf ltac:(discriminate) fuel [] rest ltac:(lia)).
    cbn [rev app]. now rewrite (dict_of_pairs_nodup _ Hnd).
Qed.

(** [json.loads(json.dumps(v))] is [v]. *)
Lemma json_loads_dumps (v : value) :
  float_contract -> wf_value v = true -> json_loads rt (json_dumps rt v) = Some v.
Proof.
  intros Hfc Hwf. unfold json_loads. rewrite (lex_dumps v Hfc Hwf).
  pose proof (parse_tokens_of v Hfc Hwf (S (List.length (tokens_of v))) []
                ltac:(lia)) as H.
  rewrite app_nil_r in H. now rewrite H.
Qed.

(** *** The strings that the scanner builds *)

Lemma head_high_app (a b : str) : a <> [] -> head_high (a ++ b) = head_high a.
Proof. destruct a; [contradiction|reflexivity]. Qed.

Lemma no_pair_snoc (s : str) (x : char) :
  no_pair (s ++ [x]) = no_pair s && negb (is_low_surrogate x && head_high (rev s)).
Proof.
  induction s as [|y s IH].
  - cbn. now rewrite !andb_false_r.
  - cbn [app no_pair]. rewrite IH. destruct s as [|z s].
    + cbn. destruct (is_high_surrogate y), (is_low_surrogate x); reflexivity.
    + cbn [app rev]. rewrite (head_high_app (rev s ++ [z]) [y])
        by (destruct (rev s); discriminate).
      now rewrite !andb_assoc.
Qed.

Lemma no_pair_rev_spec (acc : str) : no_pair (rev acc) = no_pair_rev acc.
Proof.
  induction acc as [|x acc IH]; [reflexivity|].
  cbn [rev no_pair_rev]. rewrite no_pair_snoc, rev_involutive, IH. apply andb_comm.
Qed.

Lemma forallb_rev {A : Type} (f : A -> bool) (l : list A) :
  forallb f (rev l) = forallb f l.
Proof.
  induction l as [|x l IH]; [reflexivity|].
  cbn [rev]. rewrite forallb_app, IH. cbn [forallb].
  rewrite andb_true_r. apply andb_comm.
Qed.

Lemma code_points_rev (acc : str) : code_points (rev acc) = code_points acc.
Proof. apply forallb_rev. Qed.

Lemma surrogate_bounds (c : char) :
  (is_high_surrogate c = true -> 55296 <= c <= 56319)
  /\ (is_low_surrogate c = true -> 56320 <= c <= 57343)
  /\ (is_high_surrogate c = false -> c < 55296 \/ 56319 < c)
  /\ (is_low_surrogate c = false -> c < 56320 \/ 57343 < c).
Proof.
  unfold is_high_surrogate, is_low_surrogate.
  destruct (N.leb_spec 55296 c), (N.leb_spec c 56319), (N.leb_spec 56320 c),
    (N.leb_spec c 57343); cbn [andb]; repeat split; intros; try discriminate; lia.
Qed.

Lemma scalar_spec (c : char) :
  scalar c = true ->
  (c <? 1114112) = true /\ is_high_surrogate c = false /\ is_low_surrogate c = false.
Proof.
  unfold scalar, is_surrogate. intro H. apply andb_true_iff in H as [H1 H2].
  apply negb_true_iff, orb_false_iff in H2. tauto.
Qed.

Lemma acc_ok_pushed (acc : str) (hi : option char) :
  acc_ok acc hi ->
  code_points (push_hi hi acc) = true /\ no_pair_rev (push_hi hi acc) = true.
Proof.
  intros (Hcp & Hnp & Hhi). destruct hi as [h|]; [|now split].
  destruct (surrogate_bounds h) as (Hb & _ & _ & Hl). specialize (Hb Hhi).
  cbn [push_hi code_points forallb no_pair_rev]. fold (code_points acc).
  rewrite Hcp, Hnp.
  assert (is_low_surrogate h = false) as ->.
  { unfold is_low_surrogate. apply andb_false_iff. left. apply N.leb_gt. lia. }
  split; [|reflexivity]. apply andb_true_iff. split; [|reflexivity].
  apply N.ltb_lt. lia.
Qed.

(** A character that is not a surrogate may be added. *)
Lemma acc_ok_push (acc : str) (hi : option char) (x : char) :
  acc_ok acc hi -> x < 1114112 ->
  is_high_surrogate x = false -> is_low_surrogate x = false ->
  acc_ok (x :: push_hi hi acc) None.
Proof.
  intros Hok Hx Hh Hl. destruct (acc_ok_pushed _ _ Hok) as [Hcp Hnp].
  repeat split.
  - cbn [code_points forallb]. fold (code_points (push_hi hi acc)).
    rewrite Hcp. now rewrite (proj2 (N.ltb_lt _ _) Hx).
  - cbn [no_pair_rev]. now rewrite Hl, Hnp.
  - exact Hh.
Qed.

Lemma unescape_small (c x : char) : unescape c = Some x -> x < 128.
Proof.
  unfold unescape.
  repeat match goal with
         | |- context [if ?b then _ else _] => destruct b
         end; intro H; try discriminate; injection H as <-; reflexivity.
Qed.

Lemma small_not_surrogate (x : char) :
  x < 55296 -> x < 1114112 /\ is_high_surrogate x = false /\ is_low_surrogate x = false.
Proof.
  intro H. unfold is_high_surrogate, is_low_surrogate.
  destruct (N.leb_spec 55296 x), (N.leb_spec 56320 x); cbn [andb];
    repeat split; try reflexivity; lia.
Qed.

Lemma hexval_bound (c d : char) : hexval c = Some d -> d < 16.
Proof.
  unfold hexval, is_digit.
  destruct (N.leb_spec 48 c), (N.leb_spec c 57), (N.leb_spec 97 c), (N.leb_spec c 102),
    (N.leb_spec 65 c), (N.leb_spec c 70); cbn [andb];
    intro Hx; try discriminate; injection Hx as <-; lia.
Qed.

Lemma lex_unit_inv (acc : str) (hi : option char) (v : N) :
  acc_ok acc hi -> v < 65536 -> mode_inv (lex_unit acc hi v).
Proof.
  intros Hok Hv. pose proof Hok as (Hcp & Hnp & Hhi). unfold lex_unit.
  destruct (surrogate_bounds v) as (Bh & Bl & Bnh & Bnl).
  destruct hi as [h|].
  - destruct (surrogate_bounds h) as (Bhh & _ & _ & _). specialize (Bhh Hhi).
    destruct (is_low_surrogate v) eqn:El.
    + specialize (Bl eq_refl). cbn [mode_inv].
      assert (65536 <= join_surrogates h v < 1114112) as Hj
          by (unfold join_surrogates; lia).
      repeat split.
      * cbn [code_points forallb]. fold (code_points acc). rewrite Hcp.
        now rewrite (proj2 (N.ltb_lt _ _) (proj2 Hj)).
      * cbn [no_pair_rev]. rewrite Hnp.
        assert (is_low_surrogate (join_surrogates h v) = false) as ->; [|reflexivity].
        unfold is_low_surrogate. apply andb_false_iff. right. apply N.leb_gt. lia.
      * cbn [head_high]. unfold is_high_surrogate. apply andb_false_iff. right.
        apply N.leb_gt. lia.
    + destruct (is_high_surrogate v) eqn:Eh.
      * cbn [mode_inv]. destruct (acc_ok_pushed _ _ Hok) as [Hcp' Hnp'].
        repeat split; assumption.
      * cbn [mode_inv]. apply (acc_ok_push acc (Some h) v Hok); [lia|exact Eh|exact El].
  - destruct (is_high_surrogate v) eqn:Eh.
    + cbn [mode_inv]. repeat split; assumption.
    + cbn [mode_inv]. repeat split.
      * cbn [code_points forallb]. fold (code_points acc). rewrite Hcp.
        assert ((v <? 1114112) = true) as -> by (apply N.ltb_lt; lia). reflexivity.
      * cbn [no_pair_rev]. now rewrite Hhi, andb_false_r, Hnp.
      * exact Eh.
Qed.

Lemma lex_idle_inv (toks : list token) (c : char) (st' : lstate) :
  forallb tok_ok toks = true -> lex_idle toks c = Some st' -> state_inv st'.
Proof.
  intros Ht. unfold lex_idle.
  repeat match goal with
         | |- context [if ?b then _ else _] => destruct b
         end; intro H; try discriminate; injection H as <-;
    (split; [|exact Ht]); cbn; try exact I; try reflexivity;
    repeat split; reflexivity.
Qed.

Lemma lex_step_inv (st st' : lstate) (c : char) :
  state_inv st -> scalar c = true -> lex_step st c = Some st' -> state_inv st'.
Proof.
  destruct st as [m toks]. intros [Hm Ht] Hc Hs. cbn [fst snd] in Hm, Ht.
  apply scalar_spec in Hc as (Hc & Hnh & Hnl). apply N.ltb_lt in Hc.
  destruct m as [|ns acc|rest tok|acc hi|acc hi|acc hi k v]; cbn [lex_step] in Hs.
  - eapply lex_idle_inv; eassumption.
  - destruct (num_next ns c); [injection Hs as <-; now split|].
    assert (forall tok, num_token ns acc = Some tok -> tok_ok tok = true) as Htok.
    { intros tok. destruct ns; cbn; intro H; try discriminate; now injection H as <-. }
    destruct ns;
      try (destruct (num_token _ acc) as [tok|] eqn:E; [|discriminate];
           eapply lex_idle_inv; [|exact Hs]; cbn [forallb];
           now rewrite (Htok _ eq_refl), Ht).
    destruct (c =? 73); [|discriminate]. injection Hs as <-. now split.
  - destruct rest as [|x rest]; [discriminate|]. destruct (c =? x); [|discriminate].
    cbn [mode_inv] in Hm.
    destruct rest; injection Hs as <-; split; cbn [fst snd forallb mode_inv];
      try exact I; try exact Hm; try exact Ht. now rewrite Hm, Ht.
  - cbn [mode_inv] in Hm. destruct (c =? 34).
    { injection Hs as <-. split; [exact I|]. cbn [snd forallb tok_ok]. rewrite Ht.
      destruct (acc_ok_pushed _ _ Hm) as [Hcp Hnp].
      unfold wf_str. now rewrite code_points_rev, no_pair_rev_spec, Hcp, Hnp. }
    destruct (c =? 92); [injection Hs as <-; now split|].
    destruct (c <? 32); [discriminate|]. injection Hs as <-.
    split; [|exact Ht]. now apply acc_ok_push.
  - cbn [mode_inv] in Hm. destruct (c =? 117).
    { injection Hs as <-. split; [|exact Ht]. cbn [fst mode_inv]. split; [exact Hm|].
      reflexivity. }
    destruct (unescape c) as [x|] eqn:E; [|discriminate]. injection Hs as <-.
    split; [|exact Ht]. apply unescape_small in E.
    destruct (small_not_surrogate x ltac:(lia)) as (H1 & H2 & H3).
    now apply acc_ok_push.
  - cbn [mode_inv] in Hm. destruct Hm as [Hok Hv].
    destruct (hexval c) as [d|] eqn:E; [|discriminate].
    apply hexval_bound in E.
    assert (16 * v + d < 16 ^ N.of_nat (S k)) as Hv'.
    { rewrite Nat2N.inj_succ, N.pow_succ_r'. lia. }
    destruct k as [|[|[|[|k]]]]; injection Hs as <-; (split; [|exact Ht]);
      cbn [fst mode_inv]; try (split; [exact Hok|exact Hv']).
    apply lex_unit_inv; [exact Hok|]. exact Hv'.
Qed.

Lemma lex_run_inv (s : str) (st st' : lstate) :
  state_inv st -> unicode_text s = true -> lex_run st s = Some st' -> state_inv st'.
Proof.
  revert st; induction s as [|c s IH]; cbn [lex_run unicode_text forallb]; intros st Hi Hu H.
  - now injection H as <-.
  - apply andb_true_iff in Hu as [Hc Hu].
    destruct (lex_step st c) as [st1|] eqn:E; [|discriminate].
    eapply IH; [|exact Hu|exact H]. eapply lex_step_inv; eassumption.
Qed.

Lemma lex_tokens_ok (s : str) (ts : list token) :
  unicode_text s = true -> lex s = Some ts -> forallb tok_ok ts = true.
Proof.
  unfold lex. intros Hu H.
  destruct (lex_run (LIdle, []) s) as [[m t]|] eqn:Er; [|discriminate].
  assert (state_inv (m, t)) as [_ Ht].
  { eapply lex_run_inv; [|exact Hu|exact Er]. now split. }
  cbn [snd] in Ht.
  destruct m as [|ns acc| | | |]; cbn [lex_flush] in H; try discriminate.
  - injection H as <-. now rewrite forallb_rev.
  - destruct (num_token ns acc) as [tok|] eqn:E; [|discriminate].
    injection H as <-. rewrite forallb_app, forallb_rev, Ht. cbn [forallb andb].
    rewrite andb_true_r.
    destruct ns; cbn [num_token] in E; try discriminate; now injection E as <-.
Qed.

(** *** The values that the parser builds *)

Lemma dict_set_keys_mem {V : Type} (x k : str) (v : V) (d : list (str * V)) :
  existsb (str_eqb x) (map fst (dict_set k v d))
  = existsb (str_eqb x) (map fst d) || str_eqb x k.
Proof.
  induction d as [|[k' v'] d IH]; cbn [dict_set map fst existsb].
  - apply orb_comm.
  - destruct (str_eqb k' k) eqn:E; cbn [map fst existsb].
    + apply str_eqb_eq in E. subst.
      destruct (str_eqb x k), (existsb (str_eqb x) (map fst d)); reflexivity.
    + rewrite IH. now rewrite orb_assoc.
Qed.

Lemma dict_set_ok (k : str) (v : value) (d : list (str * value)) :
  wf_str k = true -> wf_value v = true ->
  pairs_ok d = true -> nodupb (map fst d) = true ->
  pairs_ok (dict_set k v d) = true /\ nodupb (map fst (dict_set k v d)) = true.
Proof.
  intros Hk Hv. induction d as [|[k' v'] d IH]; intros Hp Hn.
  - cbn. now rewrite Hk, Hv.
  - cbn [pairs_ok forallb fst snd map nodupb] in Hp, Hn.
    apply andb_true_iff in Hp as [Hkv Hp]. apply andb_true_iff in Hkv as [Hk' Hv'].
    apply andb_true_iff in Hn as [Hf Hn]. apply negb_true_iff in Hf.
    cbn [dict_set]. destruct (str_eqb k' k) eqn:E.
    + cbn [pairs_ok forallb fst snd map nodupb].
      now rewrite Hk', Hv, Hp, Hf, Hn.
    + destruct (IH Hp Hn) as [IHp IHn]. unfold pairs_ok in IHp.
      cbn [pairs_ok forallb fst snd map nodupb].
      now rewrite Hk', Hv', IHp, dict_set_keys_mem, Hf, E, IHn.
Qed.

Lemma dict_of_pairs_ok (ps : list (str * value)) :
  pairs_ok ps = true ->
  pairs_ok (dict_of_pairs ps) = true /\ nodupb (map fst (dict_of_pairs ps)) = true.
Proof.
  unfold dict_of_pairs.
  assert (forall d0, pairs_ok d0 = true -> nodupb (map fst d0) = true ->
                     pairs_ok ps = true ->
                     pairs_ok (fold_left (fun d kv => dict_set (fst kv) (snd kv) d) ps d0) = true
                     /\ nodupb (map fst (fold_left (fun d kv => dict_set (fst kv) (snd kv) d)
                                                   ps d0)) = true) as H.
  { induction ps as [|[k v] ps IH]; intros d0 Hp Hn Hps; [now split|].
    cbn [pairs_ok forallb fst snd] in Hps. apply andb_true_iff in Hps as [Hkv Hps].
    apply andb_true_iff in Hkv as [Hk Hv]. cbn [fold_left fst snd].
    destruct (dict_set_ok k v d0 Hk Hv Hp Hn) as [Hp' Hn']. now apply IH. }
  intro Hps. now apply H.
Qed.

Lemma parse_elements_S (f : nat) (ts : list token) (acc : list value) :
  parse_elements rt (S f) ts acc
  = match parse_value rt f ts with
    | Some (v, TComma :: r) => parse_elements rt f r (v :: acc)
    | Some (v, TRBracket :: r) => Some (rev (v :: acc), r)
    | _ => None
    end.
Proof. reflexivity. Qed.

Lemma parse_members_S (f : nat) (ts : list token) (acc : list (str * value)) :
  parse_members rt (S f) ts acc
  = match ts with
    | TString k :: TColon :: r =>
        match parse_value rt f r with
        | Some (v, TComma :: r') => parse_members rt f r' ((k, v) :: acc)
        | Some (v, TRBrace :: r') => Some (rev ((k, v) :: acc), r')
        | _ => None
        end
    | _ => None
    end.
Proof. reflexivity. Qed.

Lemma parse_wf (fuel : nat) :
  (forall ts v rest,
      forallb tok_ok ts = true -> parse_value rt fuel ts = Some (v, rest) ->
      wf_value v = true /\ forallb tok_ok rest = true)
  /\ (forall ts acc l rest,
         forallb tok_ok ts = true -> forallb wf_value acc = true ->
         parse_elements rt fuel ts acc = Some (l, rest) ->
         forallb wf_value l = true /\ forallb tok_ok rest = true)
  /\ (forall ts acc ps rest,
         forallb tok_ok ts = true -> pairs_ok acc = true ->
         parse_members rt fuel ts acc = Some (ps, rest) ->
         pairs_ok ps = true /\ forallb tok_ok rest = true).
Proof.
  induction fuel as [|f (IHv & IHe & IHm)]; [repeat split; discriminate|].
  split; [|split].
  - intros ts v rest Ht H. cbn [parse_value] in H.
    assert (forall r, forallb tok_ok r = true ->
              match parse_elements rt f r [] with
              | Some (l, r') => Some (PList l, r')
              | None => None
              end = Some (v, rest) ->
              wf_value v = true /\ forallb tok_ok rest = true) as Hlist.
    { intros r Hr He. destruct (parse_elements rt f r []) as [[l r']|] eqn:E; [|discriminate].
      injection He as <- <-. now apply (IHe r [] l r'). }
    assert (forall r, forallb tok_ok r = true ->
              match parse_members rt f r [] with
              | Some (ps, r') => Some (PDict (dict_of_pairs ps), r')
              | None => None
              end = Some (v, rest) ->
              wf_value v = true /\ forallb tok_ok rest = true) as Hdict.
    { intros r Hr He. destruct (parse_members rt f r []) as [[ps r']|] eqn:E; [|discriminate].
      injection He as <- <-. destruct (IHm r [] ps r' Hr eq_refl E) as [Hps Hr'].
      split; [|exact Hr']. cbn [wf_value]. fold (pairs_ok (dict_of_pairs ps)).
      destruct (dict_of_pairs_ok ps Hps) as [-> ->]. reflexivity. }
    destruct ts as [|t ts]; [discriminate|].
    cbn [forallb] in Ht. apply andb_true_iff in Ht as [Ht0 Ht].
    destruct t; try discriminate;
      try (injection H as <- <-; split; [try reflexivity; exact Ht0|exact Ht]).
    + destruct ts as [|t2 ts2]; [now apply (Hdict [])|].
      destruct t2; try (apply (Hdict _ Ht H)).
      injection H as <- <-. split; [reflexivity|].
      cbn [forallb] in Ht. now apply andb_true_iff in Ht as [_ Ht].
    + destruct ts as [|t2 ts2]; [now apply (Hlist [])|].
      destruct t2; try (apply (Hlist _ Ht H)).
      injection H as <- <-. split; [reflexivity|].
      cbn [forallb] in Ht. now apply andb_true_iff in Ht as [_ Ht].
  - intros ts acc l rest Ht Hacc H. rewrite parse_elements_S in H.
    destruct (parse_value rt f ts) as [[v r]|] eqn:E; [|discriminate].
    destruct (IHv _ _ _ Ht E) as [Hv Hr].
    destruct r as [|t r]; [discriminate|].
    cbn [forallb] in Hr. apply andb_true_iff in Hr as [_ Hr].
    destruct t; try discriminate.
    + injection H as <- <-. split; [|exact Hr].
      rewrite forallb_app, forallb_rev, Hacc. cbn [forallb]. now rewrite Hv.
    + apply (IHe r (v :: acc)); [exact Hr| |exact H]. cbn [forallb]. now rewrite Hv, Hacc.
  - intros ts acc ps rest Ht Hacc H. rewrite parse_members_S in H.
    destruct ts as [|t ts]; [discriminate|]. destruct t; try discriminate.
    destruct ts as [|t2 ts]; [discriminate|]. destruct t2; try discriminate.
    cbn [forallb tok_ok] in Ht. apply andb_true_iff in Ht as [Hk Ht].
    cbn [andb] in Ht.
    destruct (parse_value rt f ts) as [[v r]|] eqn:E; [|discriminate].
    destruct (IHv _ _ _ Ht E) as [Hv Hr].
    destruct r as [|t r]; [discriminate|].
    cbn [forallb] in Hr. apply andb_true_iff in Hr as [_ Hr].
    destruct t; try discriminate.
    + injection H as <- <-. split; [|exact Hr]. unfold pairs_ok in *.
      rewrite forallb_app, forallb_rev, Hacc. cbn [forallb fst snd].
      now rewrite Hk, Hv.
    + apply (IHm r ((s, v) :: acc)); [exact Hr| |exact H].
      cbn [pairs_ok forallb fst snd]. fold (pairs_ok acc). now rewrite Hk, Hv, Hacc.
Qed.

Lemma json_loads_wf (text : str) (v : value) :
  unicode_text text = true -> json_loads rt text = Some v -> wf_value v = true.
Proof.
  unfold json_loads. intros Hu H.
  destruct (lex text) as [ts|] eqn:El; [|discriminate].
  destruct (parse_value rt (S (List.length ts)) ts) as [[v' r]|] eqn:Ep; [|discriminate].
  destruct r; [|discriminate]. injection H as <-.
  exact (proj1 (proj1 (parse_wf _) _ _ _ (lex_tokens_ok _ _ Hu El) Ep)).
Qed.

Lemma unicode_text_substring (m s : str) :
  substring m s -> unicode_text s = true -> unicode_text m = true.
Proof.
  intros (pre & post & ->). unfold unicode_text. rewrite !forallb_app.
  intro H. apply andb_true_iff in H as [_ H]. now apply andb_true_iff in H as [H _].
Qed.

Lemma unicode_text_wf (s : str) : unicode_text s = true -> wf_str s = true.
Proof.
  unfold wf_str. induction s as [|c s IH]; [reflexivity|].
  cbn [unicode_text forallb]. intro H. apply andb_true_iff in H as [Hc Hs].
  apply scalar_spec in Hc as (Hc & Hh & _).
  specialize (IH Hs). apply andb_true_iff in IH as [IH1 IH2].
  cbn [code_points forallb no_pair]. fold (code_points s).
  now rewrite Hc, IH1, Hh, IH2.
Qed.

Lemma interpret_wf (raw : str) :
  unicode_text raw = true -> wf_value (interpret rt raw) = true.
Proof.
  intro Hu. pose proof (unicode_text_wf raw Hu) as Hraw.
  assert (forall result : value, wf_value result = true -> wf_value (validate result) = true)
    as Hval.
  { intros result Hr. unfold validate.
    assert (wf_value (structure_error result) = true) as Hs.
    { unfold structure_error, decision. cbn [wf_value map fst snd forallb].
      rewrite Hr. reflexivity. }
    destruct result; try exact Hs. now destruct (dict_mem (lit "tool") d). }
  unfold interpret.
  destruct (json_loads rt (clean_response raw)) as [result|] eqn:E1.
  { apply Hval. eapply json_loads_wf; [|exact E1].
    eapply unicode_text_substring; [apply clean_response_substring|exact Hu]. }
  destruct (brace_span raw) as [m|] eqn:E2.
  - destruct (json_loads rt m) as [result|] eqn:E3.
    + apply Hval. eapply json_loads_wf; [|exact E3].
      eapply unicode_text_substring; [eapply brace_span_substring; exact E2|exact Hu].
    + unfold parse_error_fallback, decision. cbn [wf_value map fst snd forallb].
      rewrite Hraw. reflexivity.
  - unfold parse_error_nothing, decision. cbn [wf_value map fst snd forallb].
    rewrite Hraw. reflexivity.
Qed.

(** *** The decision written and read again *)

Lemma interpret_dumps (d : pydict pyfloat) :
  float_contract -> wf_value (PDict d) = true -> dict_mem (lit "tool") d = true ->
  interpret rt (json_dumps rt (PDict d)) = PDict d.
Proof.
  intros Hfc Hwf Hm. pose proof (json_loads_dumps _ Hfc Hwf) as Hl.
  set (text := json_dumps rt (PDict d)) in *.
  assert (exists body, text = 123 :: body ++ [125]) as (body & E)
      by (eexists; reflexivity).
  assert (strip text = text) as Hs.
  { unfold strip. rewrite E. cbn [lstrip]. change (py_isspace 123) with false. cbv iota.
    change (123 :: body ++ [125]) with ((123 :: body) ++ [125]).
    now rewrite rstrip_snoc. }
  unfold interpret.
  rewrite (clean_response_plain text 123 125 (body ++ [125]) (123 :: body) Hs E E)
    by discriminate.
  rewrite Hl. unfold validate. now rewrite Hm.
Qed.

(** C9, as the code has it. In an interpreter whose floats are written as
    JSON numbers and read back to the same float, for every reply text made
    of Unicode scalar values: the decision, written by [json.dumps] and
    interpreted again, is the same decision. *)
Theorem decision_round_trip (raw : str) :
  float_contract ->
  unicode_text raw = true ->
  interpret rt (json_dumps rt (interpret rt raw)) = interpret rt raw.
Proof.
  intros Hfc Hu. pose proof (interpret_wf raw Hu) as Hwf.
  destruct (interpret_shape raw) as (d & E & Hm). rewrite E in *.
  now apply interpret_dumps.
Qed.

End Properties.

(** *** The dispatcher on every kind of decision *)

Section DispatchProperties.
Context {pyfloat : Type} (rt : Runtime pyfloat).
Abbreviation value := (pyval pyfloat).

Lemma process_request_reply (self : AIAgent pyfloat) (user_input raw : str) :
  chat_completion rt (request_messages self user_input) = Returns (PStr raw) ->
  process_request rt self user_input
  = try_except
      (bind ([EvCompletion (request_messages self user_input)], Returns (interpret rt raw))
            (dispatch rt self))
      (fun e => ret (PStr (msg_unexpected e))).
Proof.
  intro H. unfold process_request. now rewrite (determine_tool_reply rt self user_input raw H).
Qed.

(** X1. When the chat-completion client raises, [_determine_tool] returns the
    decision [error_in_tool_determination] with the text of the exception as
    details, and [process_request] answers with the trouble message that ends
    with that text; no tool is executed. *)
Theorem client_failure_reported (self : AIAgent pyfloat) (user_input : str) (e : exn) :
  chat_completion rt (request_messages self user_input) = Raises e ->
  snd (_determine_tool rt self user_input)
  = Returns (PDict [(lit "tool", PStr (lit "error_in_tool_determination"));
                    (lit "parameters", PDict [(lit "details", PStr (exc_text e))])])
  /\ process_request rt self user_input
     = ([EvCompletion (request_messages self user_input)],
        Returns (PStr (lit "Sorry, I had trouble deciding which tool to use. Details: "
                       ++ exc_text e))).
Proof.
  intro H. unfold process_request, _determine_tool, try_except, bind, emit, lift, ret.
  rewrite H. split; reflexivity.
Qed.

(** X2. When the content of the reply is not a string (for instance [None]),
    the call of [strip] on it fails and the request is answered by the trouble
    message with the text of that attribute error. *)
Theorem reply_without_text (self : AIAgent pyfloat) (user_input : str) (content : value) :
  chat_completion rt (request_messages self user_input) = Returns content ->
  (forall s, content <> PStr s) ->
  process_request rt self user_input
  = ([EvCompletion (request_messages self user_input)],
     Returns (PStr (lit "Sorry, I had trouble deciding which tool to use. Details: '"
                    ++ type_name content ++ lit "' object has no attribute 'strip'"))).
Proof.
  intros H Hs. unfold process_request, _determine_tool, try_except, bind, emit, lift, ret.
  rewrite H. destruct content; try reflexivity. now destruct (Hs s).
Qed.

(** X3. When the cleaned reply is a JSON text whose value is not an object
    with a [tool] key, [_determine_tool] returns the decision
    [error_invalid_llm_response_structure] that holds the parsed value, and
    [process_request] answers with the trouble message for that case. *)
Theorem not_a_decision_reported (self : AIAgent pyfloat) (user_input raw : str)
        (result : value) :
  chat_completion rt (request_messages self user_input) = Returns (PStr raw) ->
  json_loads rt (clean_response raw) = Some result ->
  (forall d, result = PDict d -> dict_mem (lit "tool") d = false) ->
  snd (_determine_tool rt self user_input)
  = Returns (PDict [(lit "tool", PStr (lit "error_invalid_llm_response_structure"));
                    (lit "parameters",
                     PDict [(lit "details",
                             PStr (lit "LLM response not a dict or missing 'tool' key."));
                            (lit "parsed_content", result)])])
  /\ process_request rt self user_input
     = ([EvCompletion (request_messages self user_input)],
        Returns (PStr (lit "Sorry, I had trouble deciding which tool to use. Details: LLM response not a dict or missing 'tool' key."))).
Proof.
  intros H Hj Hr.
  assert (interpret rt raw = structure_error result) as E.
  { unfold interpret. rewrite Hj. unfold validate. destruct result; try reflexivity.
    now rewrite (Hr d eq_refl). }
  rewrite (process_request_reply _ _ _ H), (determine_tool_reply rt _ _ _ H), E.
  split; reflexivity.
Qed.

Lemma falsy_not_sentinel (t : value) :
  py_truth rt t = false -> existsb (eq_str t) error_sentinels = false.
Proof.
  intro H. destruct t; try reflexivity. destruct s; [reflexivity|discriminate].
Qed.

(** X4. A decision whose tool is [no_tool_needed], or any value that is false
    in Python (null, false, zero, the empty string, list or object), is
    answered by the fixed message that no tool was needed; no tool is
    executed. *)
Theorem no_tool_needed_answer (self : AIAgent pyfloat) (user_input : str)
        (d : pydict pyfloat) (t : value) :
  snd (_determine_tool rt self user_input) = Returns (PDict d) ->
  dict_get (lit "tool") d = Some t ->
  t = PStr (lit "no_tool_needed") \/ py_truth rt t = false ->
  process_request rt self user_input
  = ([EvCompletion (request_messages self user_input)],
     Returns (PStr (lit "I've processed your request. No specific tool was needed, or I couldn't determine one. How else can I help?"))).
Proof.
  intros Hd Ht Hc. rewrite (process_request_decided rt _ _ _ Hd).
  unfold bind, dispatch, selected_tool. rewrite Ht.
  destruct Hc as [->|Hf].
  - reflexivity.
  - rewrite (falsy_not_sentinel t Hf), Hf, orb_true_r. reflexivity.
Qed.

Lemma not_text_not_sentinel (t : value) :
  (forall s, t <> PStr s) -> forall l, existsb (eq_str t) l = false.
Proof.
  intros H l. destruct t; try (induction l; [reflexivity|assumption]).
  now destruct (H s).
Qed.

(** X5. A decision whose tool is a non-empty list or object makes the look-up
    in [self.tools] raise a type error, which the outer handler of
    [process_request] turns into the unexpected-error message; no tool is
    executed. *)
Theorem unhashable_tool_name (self : AIAgent pyfloat) (user_input : str)
        (d : pydict pyfloat) (t : value) :
  snd (_determine_tool rt self user_input) = Returns (PDict d) ->
  dict_get (lit "tool") d = Some t ->
  hashable t = false -> py_truth rt t = true ->
  process_request rt self user_input
  = ([EvCompletion (request_messages self user_input)],
     Returns (PStr (lit "An unexpected error occurred: unhashable type: '"
                    ++ type_name t ++ lit "'"))).
Proof.
  intros Hd Ht Hh Hp. rewrite (process_request_decided rt _ _ _ Hd).
  unfold bind, dispatch, selected_tool. rewrite Ht.
  rewrite not_text_not_sentinel by (intros s ->; discriminate).
  assert (eq_str t (lit "no_tool_needed") = false) as ->
      by (destruct t; try reflexivity; discriminate).
  rewrite Hp, Hh. reflexivity.
Qed.

(** X6. A decision whose tool is a number or [true] is answered by the
    unknown-tool message with [str] of that value; no tool is executed. *)
Theorem tool_name_of_another_type (self : AIAgent pyfloat) (user_input : str)
        (d : pydict pyfloat) (t : value) :
  snd (_determine_tool rt self user_input) = Returns (PDict d) ->
  dict_get (lit "tool") d = Some t ->
  (forall s, t <> PStr s) -> hashable t = true -> py_truth rt t = true ->
  process_request rt self user_input
  = ([EvCompletion (request_messages self user_input)],
     Returns (PStr (lit "Sorry, I don't know how to use the tool '" ++ py_str rt t
                    ++ lit "' or it's not available."))).
Proof.
  intros Hd Ht Hs Hh Hp. rewrite (process_request_decided rt _ _ _ Hd).
  unfold bind, dispatch, selected_tool. rewrite Ht.
  rewrite (not_text_not_sentinel t Hs).
  assert (eq_str t (lit "no_tool_needed") = false) as ->
      by (destruct t; try reflexivity; now destruct (Hs s)).
  rewrite Hp, Hh.
  destruct t; try discriminate; try reflexivity. now destruct (Hs s).
Qed.


(** X7. When the parameters bind and [execute] raises an exception below
    [Exception], [process_request] answers with a text: the
    incorrect-parameters message for a type error, although the parameters
    matched the signature, and the message that an error occurred while using
    the tool for every other such exception.  When [execute] is left by an
    exception that is not below [Exception], neither handler takes it and it
    leaves [process_request]. *)
Theorem tool_exception_reported (self : AIAgent pyfloat) (user_input : str)
        (d : pydict pyfloat) (tool_name : str) (tool : Tool pyfloat)
        (args : list value) :
  snd (_determine_tool rt self user_input) = Returns (PDict d) ->
  dict_get (lit "tool") d = Some (PStr tool_name) ->
  tool_name <> [] ->
  ~ In tool_name error_sentinels ->
  tool_name <> lit "no_tool_needed" ->
  dict_get tool_name (tools self) = Some tool ->
  bind_kwargs (execute_params tool) (selected_parameters d) = Some args ->
  (forall e,
     execute tool args = Raises e ->
     process_request rt self user_input
     = ([EvCompletion (request_messages self user_input); EvExecute (name tool) args],
        Returns (PStr (match exc_type e with
                       | TypeError =>
                           lit "Error using tool " ++ tool_name
                           ++ lit ": incorrect parameters. Expected: "
                           ++ py_repr rt (PList (map PStr
                                                   (remove_first (lit "self")
                                                      (execute_params tool))))
                           ++ lit ". Got: "
                           ++ py_repr rt (PList (map PStr (dict_keys (selected_parameters d))))
                           ++ lit ". Details: " ++ exc_text e
                       | _ =>
                           lit "Sorry, an error occurred while using the " ++ tool_name
                           ++ lit " tool: " ++ exc_text e
                       end))))
  /\ (forall x,
        execute tool args = Exits x ->
        process_request rt self user_input
        = ([EvCompletion (request_messages self user_input); EvExecute (name tool) args],
           Exits x)).
Proof.
  intros Hd Ht Hne Hs Hn Hu Hb.
  rewrite (process_request_decided rt _ _ _ Hd).
  unfold bind. rewrite (dispatch_named rt self d tool_name Ht Hne Hs Hn), Hu.
  unfold call_execute, try_except, bind, emit, lift. rewrite Hb. split.
  - intros e He. rewrite He. destruct (exc_type e); reflexivity.
  - intros x He. rewrite He. reflexivity.
Qed.

(** What [dispatch] leaves in the trace. *)
Lemma dispatch_trace (self : AIAgent pyfloat) (d : pydict pyfloat) :
  fst (dispatch rt self (PDict d)) = []
  \/ exists key tool args,
       dict_get (lit "tool") d = Some (PStr key)
       /\ dict_get key (tools self) = Some tool
       /\ bind_kwargs (execute_params tool) (selected_parameters d) = Some args
       /\ fst (dispatch rt self (PDict d)) = [EvExecute (name tool) args].
Proof.
  unfold dispatch.
  destruct (existsb _ error_sentinels); [now left|].
  destruct (_ || _); [now left|].
  destruct (hashable _); simpl; [|now left].
  unfold lookup_tool, selected_tool.
  destruct (dict_get (lit "tool") d) as [t|] eqn:Et; [|now left].
  destruct t; try now left.
  destruct (dict_get s (tools self)) as [tool|] eqn:Eu; [|now left].
  unfold call_execute, try_except, bind, emit, lift, ret, raise.
  destruct (bind_kwargs _ _) as [args|] eqn:Eb; simpl; [|now left].
  right. exists s, tool, args. repeat split; try assumption.
  destruct (execute tool args) as [[v|e]|x]; [reflexivity| |reflexivity].
  destruct (exc_type e); reflexivity.
Qed.

(** X8. The events of a request are one chat completion, followed by at most
    one tool execution; a tool is executed only if the decision names it by a
    string that is a key of [self.tools] and the parameters of the decision
    bind to the signature of its [execute]. *)
Theorem one_completion_then_at_most_one_tool (self : AIAgent pyfloat) (user_input : str) :
  fst (process_request rt self user_input) = [EvCompletion (request_messages self user_input)]
  \/ exists d key tool args,
       snd (_determine_tool rt self user_input) = Returns (PDict d)
       /\ dict_get (lit "tool") d = Some (PStr key)
       /\ dict_get key (tools self) = Some tool
       /\ bind_kwargs (execute_params tool) (selected_parameters d) = Some args
       /\ fst (process_request rt self user_input)
          = [EvCompletion (request_messages self user_input); EvExecute (name tool) args].
Proof.
  destruct (determine_tool_shape rt self user_input) as (d & E & _).
  assert (snd (_determine_tool rt self user_input) = Returns (PDict d)) as Hd
      by now rewrite E.
  rewrite (process_request_decided rt _ _ _ Hd).
  destruct (dispatch_trace self d) as [H|(key & tool & args & Ht & Hu & Hb & H)].
  - left. unfold try_except, bind.
    destruct (dispatch rt self (PDict d)) as [t [[v|e]|x]]; simpl in *; subst; reflexivity.
  - right. exists d, key, tool, args. repeat split; try assumption.
    unfold try_except, bind.
    destruct (dispatch rt self (PDict d)) as [t [[v|e]|x]]; simpl in *; subst; reflexivity.
Qed.

(** X9. A decision that names one of the three error sentinels, also when the
    model itself wrote it, is answered by the trouble message with the
    [details] of its parameters, or with the default text when the parameters
    hold no details or are not an object. *)
Theorem sentinel_decision_reported (self : AIAgent pyfloat) (user_input : str)
        (d : pydict pyfloat) (tool_name : str) :
  snd (_determine_tool rt self user_input) = Returns (PDict d) ->
  dict_get (lit "tool") d = Some (PStr tool_name) ->
  In tool_name error_sentinels ->
  process_request rt self user_input
  = ([EvCompletion (request_messages self user_input)],
     Returns (PStr (lit "Sorry, I had trouble deciding which tool to use. Details: "
                    ++ match dict_get (lit "details") (selected_parameters d) with
                       | Some details => py_str rt details
                       | None => lit "Unknown error during tool determination."
                       end))).
Proof.
  intros Hd Ht Hs. rewrite (process_request_decided rt _ _ _ Hd).
  unfold bind, dispatch, selected_tool. rewrite Ht.
  assert (existsb (eq_str (PStr (pyfloat := pyfloat) tool_name)) error_sentinels = true) as ->.
  { apply existsb_exists. exists tool_name. split; [assumption|apply str_eqb_refl]. }
  destruct (dict_get (lit "details") (selected_parameters d)); reflexivity.
Qed.

(** *** The fallback *)

Lemma upto_close_spec (s m : str) :
  upto_close s = Some m <->
  exists body post, s = body ++ 125 :: post /\ ~ In 125 body /\ m = body ++ [125].
Proof.
  revert m. induction s as [|c r IH]; intro m; cbn [upto_close].
  - split; [discriminate|]. intros (body & post & E & _). now destruct body.
  - destruct (N.eqb_spec c 125) as [->|Hc].
    + split.
      * intros [= <-]. exists [], r. repeat split. now intros [].
      * intros (body & post & E & Hb & ->). destruct body as [|x body].
        -- reflexivity.
        -- injection E as <- _. exfalso. apply Hb. now left.
    + destruct (upto_close r) as [m'|] eqn:Er.
      * split.
        -- intros [= <-]. destruct (proj1 (IH m') eq_refl) as (body & post & -> & Hb & ->).
           exists (c :: body), post. repeat split.
           intros [H|H]; [now apply Hc|now apply Hb].
        -- intros (body & post & E & Hb & ->). destruct body as [|x body].
           ++ injection E as -> _. contradiction.
           ++ injection E as <- ->. f_equal. cbn [app]. f_equal.
              assert (Some m' = Some (body ++ [125])) as [= ->]; [|reflexivity].
              apply IH. exists body, post. repeat split.
              intro H. apply Hb. now right.
      * split; [discriminate|].
        intros (body & post & E & Hb & ->). destruct body as [|x body].
        -- injection E as -> _. contradiction.
        -- injection E as <- ->.
           assert (None = Some (body ++ [125])) as H; [|discriminate].
           apply IH. exists body, post. repeat split.
           intro H. apply Hb. now right.
Qed.

Lemma upto_close_none (s : str) : upto_close s = None <-> ~ In 125 s.
Proof.
  induction s as [|c r IH]; cbn [upto_close].
  - split; [now intros _ []|reflexivity].
  - destruct (N.eqb_spec c 125) as [->|Hc].
    + split; [discriminate|]. intro H. exfalso. apply H. now left.
    + destruct (upto_close r).
      * split; [discriminate|]. intro H. exfalso.
        assert (~ In 125 r) as Hr by (intro; apply H; now right).
        apply IH in Hr. discriminate.
      * split; [|reflexivity]. intros _ [H|H]; [now apply Hc|].
        now apply (proj1 IH eq_refl).
Qed.

(** X10. The match of the fallback regex: [brace_span s] is the text from the
    first opening brace of [s] to the first closing brace after it, both
    included, and there is no match exactly when no closing brace follows an
    opening brace. *)
Theorem brace_span_spec (s : str) :
  (forall m, brace_span s = Some m <->
             exists pre body post,
               s = pre ++ 123 :: body ++ 125 :: post
               /\ ~ In 123 pre /\ ~ In 125 body /\ m = 123 :: body ++ [125])
  /\ (brace_span s = None <-> forall pre post, s = pre ++ 123 :: post -> ~ In 125 post).
Proof.
  induction s as [|c r [IH1 IH2]].
  - split.
    + intro m. split; [discriminate|]. intros (pre & body & post & E & _). now destruct pre.
    + split; [|reflexivity]. intros _ pre post E. now destruct pre.
  - cbn [brace_span]. destruct (N.eqb_spec c 123) as [->|Hc].
    + destruct (upto_close r) as [m'|] eqn:Er.
      * apply upto_close_spec in Er as (body & post & -> & Hb & ->). split.
        -- intro m. split.
           ++ intros [= <-]. exists [], body, post. repeat split; [now intros []|assumption].
           ++ intros (pre & body' & post' & E & Hp & Hb' & ->). destruct pre as [|x pre].
              ** injection E as E.
                 assert (upto_close (body ++ 125 :: post) = Some (body' ++ [125])) as H1
                     by (apply upto_close_spec; exists body', post'; now repeat split).
                 assert (upto_close (body ++ 125 :: post) = Some (body ++ [125])) as H2
                     by (apply upto_close_spec; exists body, post; now repeat split).
                 rewrite H1 in H2. injection H2 as ->. reflexivity.
              ** injection E as <- _. exfalso. apply Hp. now left.
        -- split; [discriminate|]. intro H. exfalso.
           apply (H [] (body ++ 125 :: post) eq_refl). apply in_or_app. right. now left.
      * apply upto_close_none in Er. split.
        -- intro m. rewrite IH1. split.
           ++ intros (pre & body & post & -> & Hp & Hb & ->). exfalso. apply Er.
              apply in_or_app. right. right. apply in_or_app. right. now left.
           ++ intros (pre & body & post & E & Hp & Hb & ->). destruct pre as [|x pre].
              ** injection E as ->. exfalso. apply Er. apply in_or_app. right. now left.
              ** injection E as <- _. exfalso. apply Hp. now left.
        -- rewrite IH2. split.
           ++ intros H pre post E. destruct pre as [|x pre].
              ** now injection E as <-.
              ** injection E as _ ->. now apply (H pre post).
           ++ intros H pre post ->. now apply (H (123 :: pre) post).
    + split.
      * intro m. rewrite IH1. split.
        -- intros (pre & body & post & -> & Hp & Hb & ->). exists (c :: pre), body, post.
           repeat split; try assumption. intros [H|H]; [now apply Hc|now apply Hp].
        -- intros (pre & body & post & E & Hp & Hb & ->). destruct pre as [|x pre].
           ++ injection E as -> _. contradiction.
           ++ injection E as <- ->. exists pre, body, post. repeat split; try assumption.
              intro H. apply Hp. now right.
      * rewrite IH2. split.
        -- intros H pre post E. destruct pre as [|x pre].
           ++ injection E as -> _. contradiction.
           ++ injection E as _ ->. now apply (H pre post).
        -- intros H pre post ->. now apply (H (c :: pre) post).
Qed.


Lemma lex_idle_braces (toks : list token) (c : char) (st' : lstate) :
  lex_idle toks c = Some st' ->
  (braces_of st' <= rbraces toks + if (c =? 125)%N then 1 else 0)%nat.
Proof.
  unfold lex_idle.
  repeat match goal with
         | |- context [if ?b then _ else _] => destruct b eqn:?
         end;
    try discriminate; intros [= <-]; unfold braces_of; cbn [fst snd rbraces]; lia.
Qed.

Lemma lex_step_braces (st st' : lstate) (c : char) :
  lex_step st c = Some st' ->
  (braces_of st' <= braces_of st + if (c =? 125)%N then 1 else 0)%nat.
Proof.
  destruct st as [m toks]. cbn [lex_step].
  destruct m as [|ns acc|rest tok|acc hi|acc hi|acc hi k v].
  - intro H. apply lex_idle_braces in H. unfold braces_of at 2. cbn [fst snd]. lia.
  - destruct (num_next ns c).
    + intros [= <-]. unfold braces_of. cbn [fst snd]. lia.
    + destruct ns; cbn [num_token].
      1: { destruct (c =? 73); [|discriminate]. intros [= <-]. unfold braces_of.
           cbn [fst snd]. lia. }
      all: try discriminate.
      all: intro H; apply lex_idle_braces in H; unfold braces_of at 2;
        cbn [fst snd rbraces] in *; lia.
  - destruct rest as [|x rest']; [discriminate|].
    destruct (c =? x); [|discriminate].
    destruct rest'; intros [= <-]; unfold braces_of; cbn [fst snd rbraces];
      destruct tok; destruct (c =? 125); lia.
  - destruct (c =? 34) eqn:E1.
    { intros [= <-]. unfold braces_of. cbn [fst snd rbraces]. lia. }
    destruct (c =? 92).
    { intros [= <-]. unfold braces_of. cbn [fst snd rbraces]. lia. }
    destruct (c <? 32); [discriminate|].
    intros [= <-]. unfold braces_of. cbn [fst snd rbraces]. lia.
  - destruct (c =? 117).
    { intros [= <-]. unfold braces_of. cbn [fst snd rbraces]. lia. }
    destruct (unescape c); [|discriminate].
    intros [= <-]. unfold braces_of. cbn [fst snd rbraces]. lia.
  - destruct (hexval c); [|discriminate].
    assert (forall a h x, braces_of (lex_unit a h x, toks) = rbraces toks) as Hu.
    { intros a h x. unfold braces_of, lex_unit. cbn [snd].
      destruct h; repeat match goal with
                         | |- context [if ?b then _ else _] => destruct b
                         end; cbn [fst]; lia. }
    destruct k as [|[|[|[|k]]]]; intros [= <-]; rewrite ?Hu;
      unfold braces_of; cbn [fst snd]; lia.
Qed.

Lemma lex_run_braces (s : str) (st st' : lstate) :
  lex_run st s = Some st' -> (braces_of st' <= braces_of st + count_char 125%N s)%nat.
Proof.
  revert st. induction s as [|c r IH]; intros st H; cbn [lex_run count_char] in *.
  - injection H as <-. lia.
  - destruct (lex_step st c) as [st1|] eqn:E; [|discriminate].
    apply lex_step_braces in E. apply IH in H. destruct (c =? 125); lia.
Qed.

Lemma rbraces_app (a b : list token) : rbraces (a ++ b) = (rbraces a + rbraces b)%nat.
Proof.
  induction a as [|t a IH]; [reflexivity|]. destruct t; cbn [app rbraces]; lia.
Qed.

Lemma rbraces_rev (a : list token) : rbraces (rev a) = rbraces a.
Proof.
  induction a as [|t a IH]; [reflexivity|]. cbn [rev]. rewrite rbraces_app, IH.
  destruct t; cbn [rbraces]; lia.
Qed.

Lemma lex_braces (s : str) (ts : list token) :
  lex s = Some ts -> (rbraces ts <= count_char 125%N s)%nat.
Proof.
  unfold lex. destruct (lex_run (LIdle, []) s) as [st|] eqn:E; [|discriminate].
  apply lex_run_braces in E. unfold braces_of at 2 in E. cbn [fst snd rbraces] in E.
  destruct st as [m toks]. unfold braces_of in E. cbn [fst snd] in E.
  destruct m as [|ns acc| | | |]; cbn [lex_flush]; try discriminate.
  - intros [= <-]. rewrite rbraces_rev. lia.
  - destruct (num_token ns acc) as [tok|] eqn:Et; [|discriminate].
    intro H. assert (ts = rev (tok :: toks)) as -> by (injection H as <-; reflexivity).
    rewrite rbraces_rev.
    destruct ns; try discriminate; injection Et as <-; cbn [rbraces]; lia.
Qed.

Lemma dicts_in_cons (x : value) (l : list value) :
  dicts_in (x :: l) = (dict_count x + dicts_in l)%nat.
Proof. reflexivity. Qed.

Lemma dicts_in_pairs_cons (kv : str * value) (d : pydict pyfloat) :
  dicts_in_pairs (kv :: d) = (dict_count (snd kv) + dicts_in_pairs d)%nat.
Proof. reflexivity. Qed.

Lemma dict_count_list (l : list value) : dict_count (PList l) = dicts_in l.
Proof. reflexivity. Qed.

Lemma dict_count_dict (d : pydict pyfloat) : dict_count (PDict d) = S (dicts_in_pairs d).
Proof. reflexivity. Qed.

Lemma dicts_in_app (a b : list value) : dicts_in (a ++ b) = (dicts_in a + dicts_in b)%nat.
Proof.
  induction a as [|x a IH]; [reflexivity|]. cbn [app]. rewrite !dicts_in_cons. lia.
Qed.

Lemma dicts_in_rev (a : list value) : dicts_in (rev a) = dicts_in a.
Proof.
  induction a as [|x a IH]; [reflexivity|]. cbn [rev].
  rewrite dicts_in_app, IH, !dicts_in_cons. change (dicts_in []) with 0%nat. lia.
Qed.

Lemma dicts_in_pairs_app (a b : pydict pyfloat) :
  dicts_in_pairs (a ++ b) = (dicts_in_pairs a + dicts_in_pairs b)%nat.
Proof.
  induction a as [|x a IH]; [reflexivity|]. cbn [app]. rewrite !dicts_in_pairs_cons. lia.
Qed.

Lemma dicts_in_pairs_rev (a : pydict pyfloat) : dicts_in_pairs (rev a) = dicts_in_pairs a.
Proof.
  induction a as [|x a IH]; [reflexivity|]. cbn [rev].
  rewrite dicts_in_pairs_app, IH, !dicts_in_pairs_cons.
  change (dicts_in_pairs []) with 0%nat. lia.
Qed.

Lemma dict_set_dicts (k : str) (v : value) (d : pydict pyfloat) :
  (dicts_in_pairs (dict_set k v d) <= dicts_in_pairs d + dict_count v)%nat.
Proof.
  induction d as [|[k' v'] d IH]; cbn [dict_set].
  - rewrite dicts_in_pairs_cons. cbn [snd]. lia.
  - destruct (str_eqb k' k); rewrite !dicts_in_pairs_cons; cbn [snd]; lia.
Qed.

Lemma dict_of_pairs_dicts (ps : pydict pyfloat) :
  (dicts_in_pairs (dict_of_pairs ps) <= dicts_in_pairs ps)%nat.
Proof.
  unfold dict_of_pairs.
  assert (forall d0 : pydict pyfloat,
             (dicts_in_pairs (fold_left (fun d kv => dict_set (fst kv) (snd kv) d) ps d0)
              <= dicts_in_pairs d0 + dicts_in_pairs ps)%nat) as H.
  { induction ps as [|[k v] ps IH]; intro d0; cbn [fold_left fst snd].
    - lia.
    - specialize (IH (dict_set k v d0)). pose proof (dict_set_dicts k v d0).
      rewrite dicts_in_pairs_cons. cbn [snd]. lia. }
  apply (H []).
Qed.

(** Every dict of a parsed value has used up a closing brace. *)
Lemma parse_braces (fuel : nat) :
  (forall ts v rest,
      parse_value rt fuel ts = Some (v, rest) ->
      (dict_count v + rbraces rest <= rbraces ts)%nat)
  /\ (forall ts acc l rest,
         parse_elements rt fuel ts acc = Some (l, rest) ->
         (dicts_in l + rbraces rest <= dicts_in acc + rbraces ts)%nat)
  /\ (forall ts acc ps rest,
         parse_members rt fuel ts acc = Some (ps, rest) ->
         (S (dicts_in_pairs ps + rbraces rest) <= dicts_in_pairs acc + rbraces ts)%nat).
Proof.
  induction fuel as [|f (IHv & IHe & IHm)]; [repeat split; discriminate|].
  split; [|split].
  - intros ts v rest H. cbn [parse_value] in H.
    assert (forall r,
              match parse_elements rt f r [] with
              | Some (l, r') => Some (PList l, r')
              | None => None
              end = Some (v, rest) ->
              (dict_count v + rbraces rest <= rbraces r)%nat) as Hlist.
    { intros r He. destruct (parse_elements rt f r []) as [[l r']|] eqn:E; [|discriminate].
      injection He as <- <-. apply IHe in E. rewrite dict_count_list.
      change (dicts_in []) with 0%nat in E. lia. }
    assert (forall r,
              match parse_members rt f r [] with
              | Some (ps, r') => Some (PDict (dict_of_pairs ps), r')
              | None => None
              end = Some (v, rest) ->
              (dict_count v + rbraces rest <= rbraces r)%nat) as Hdict.
    { intros r He. destruct (parse_members rt f r []) as [[ps r']|] eqn:E; [|discriminate].
      injection He as <- <-. apply IHm in E. rewrite dict_count_dict.
      pose proof (dict_of_pairs_dicts ps).
      change (dicts_in_pairs []) with 0%nat in E. lia. }
    destruct ts as [|t ts]; [discriminate|].
    destruct t; try discriminate;
      try (injection H as <- <-; cbn [dict_count rbraces]; lia).
    + destruct ts as [|t2 ts2]; [apply Hdict in H; cbn [rbraces] in *; lia|].
      destruct t2; try (apply Hdict in H; cbn [rbraces] in *; lia).
      injection H as <- <-. cbn [dict_count rbraces fold_right]. lia.
    + destruct ts as [|t2 ts2]; [apply Hlist in H; cbn [rbraces] in *; lia|].
      destruct t2; try (apply Hlist in H; cbn [rbraces] in *; lia).
      injection H as <- <-. cbn [dict_count rbraces fold_right]. lia.
  - intros ts acc l rest H. rewrite parse_elements_S in H.
    destruct (parse_value rt f ts) as [[v r]|] eqn:E; [|discriminate].
    apply IHv in E. destruct r as [|t r]; [discriminate|].
    destruct t; try discriminate.
    + injection H as <- <-. rewrite dicts_in_app, dicts_in_rev, dicts_in_cons.
      change (dicts_in []) with 0%nat. cbn [rbraces] in E. lia.
    + apply IHe in H. rewrite dicts_in_cons in H. cbn [rbraces] in E. lia.
  - intros ts acc ps rest H. rewrite parse_members_S in H.
    destruct ts as [|t ts]; [discriminate|]. destruct t; try discriminate.
    destruct ts as [|t2 ts]; [discriminate|]. destruct t2; try discriminate.
    destruct (parse_value rt f ts) as [[v r]|] eqn:E; [|discriminate].
    apply IHv in E. destruct r as [|t r]; [discriminate|].
    destruct t; try discriminate.
    + injection H as <- <-.
      rewrite dicts_in_pairs_app, dicts_in_pairs_rev, dicts_in_pairs_cons.
      change (dicts_in_pairs []) with 0%nat. cbn [rbraces snd] in *. lia.
    + apply IHm in H. rewrite dicts_in_pairs_cons in H. cbn [rbraces snd] in *. lia.
Qed.

Lemma json_loads_braces (text : str) (v : value) :
  json_loads rt text = Some v -> (dict_count v <= count_char 125%N text)%nat.
Proof.
  unfold json_loads. intro H.
  destruct (lex text) as [ts|] eqn:El; [|discriminate].
  destruct (parse_value rt (S (List.length ts)) ts) as [[v' r]|] eqn:Ep; [|discriminate].
  destruct r; [|discriminate]. injection H as <-.
  apply lex_braces in El. apply (proj1 (parse_braces _)) in Ep. cbn [rbraces] in Ep. lia.
Qed.

Lemma count_char_absent (c : char) (s : str) : ~ In c s -> count_char c s = 0%nat.
Proof.
  induction s as [|x s IH]; [reflexivity|]. intro H. cbn [count_char].
  destruct (N.eqb_spec x c) as [->|_]; [exfalso; apply H; now left|].
  apply IH. intro; apply H; now right.
Qed.

Lemma count_char_app (c : char) (a b : str) :
  count_char c (a ++ b) = (count_char c a + count_char c b)%nat.
Proof.
  induction a as [|x a IH]; [reflexivity|]. cbn [app count_char].
  destruct (x =? c); lia.
Qed.

Lemma brace_span_one_close (s m : str) : brace_span s = Some m -> count_char 125 m = 1%nat.
Proof.
  induction s as [|c r IH]; [discriminate|]. cbn [brace_span].
  destruct (N.eqb_spec c 123) as [->|_]; [|exact IH].
  destruct (upto_close r) as [m'|] eqn:Er; [|exact IH].
  intros [= <-]. apply upto_close_spec in Er as (body & post & _ & Hb & ->).
  cbn [count_char]. change (123 =? 125) with false. cbv iota.
  rewrite count_char_app, (count_char_absent _ _ Hb). reflexivity.
Qed.

Lemma dict_get_dicts (k : str) (d : pydict pyfloat) (v : value) :
  dict_get k d = Some v -> (dict_count v <= dicts_in_pairs d)%nat.
Proof.
  induction d as [|[k' v'] d IH]; [discriminate|]. cbn [dict_get].
  destruct (str_eqb k' k).
  - intros [= <-]. rewrite dicts_in_pairs_cons. cbn [snd]. lia.
  - intro H. apply IH in H. rewrite dicts_in_pairs_cons. lia.
Qed.

Lemma flat_dict_parameters (text : str) (d : pydict pyfloat) :
  (count_char 125%N text <= 1)%nat -> json_loads rt text = Some (PDict d) ->
  selected_parameters d = [].
Proof.
  intros Hc H. apply json_loads_braces in H. rewrite dict_count_dict in H.
  unfold selected_parameters.
  destruct (dict_get (lit "parameters") d) as [v|] eqn:E; [|reflexivity].
  apply dict_get_dicts in E. destruct v; try reflexivity.
  rewrite dict_count_dict in E. lia.
Qed.

(** X11. When the cleaned reply is not a JSON text, the decision of
    [_determine_tool] is an error decision or carries no parameters: the text
    that the fallback regex extracts has a single closing brace, so the object
    parsed from it holds no nested object and [process_request] takes its
    parameters to be the empty dict. *)
Theorem fallback_decision_without_parameters (raw : str) :
  json_loads rt (clean_response raw) = None ->
  exists d,
    interpret rt raw = PDict d
    /\ ((exists name, dict_get (lit "tool") d = Some (PStr name) /\ In name error_sentinels)
        \/ selected_parameters d = []).
Proof.
  intro Hc. unfold interpret. rewrite Hc.
  destruct (brace_span raw) as [m|] eqn:Eb.
  2:{ eexists. split; [reflexivity|]. left. eexists. split; [reflexivity|]. now left. }
  destruct (json_loads rt m) as [result|] eqn:Ej.
  2:{ eexists. split; [reflexivity|]. left. eexists. split; [reflexivity|]. now left. }
  destruct (validate_origin result) as (d & Ev & [Hs|[-> _]]).
  - exists d. split; [exact Ev|]. now left.
  - exists d. split; [exact Ev|]. right.
    apply (flat_dict_parameters m); [|exact Ej].
    rewrite (brace_span_one_close raw m Eb). lia.
Qed.

Lemma builtin_needs_argument (tool_name : str) (tool : Tool pyfloat) :
  dict_get tool_name (tools (AIAgent_init rt)) = Some tool ->
  bind_kwargs (execute_params tool) ([] : pydict pyfloat) = None.
Proof.
  intro H. apply registered_tool in H as [[_ ->]|[[_ ->]|[_ ->]]]; reflexivity.
Qed.

(** Once a decision is known, the request is the dispatch of that decision
    without tool execution, when the decision leads to none. *)
Lemma dispatch_no_parameters (d : pydict pyfloat) :
  selected_parameters d = [] ->
  exists o, dispatch rt (AIAgent_init rt) (PDict d) = ([], o).
Proof.
  intro Hp. destruct (dispatch_trace (AIAgent_init rt) d)
    as [H|(key & tool & args & _ & Hu & Hb & _)].
  - destruct (dispatch rt (AIAgent_init rt) (PDict d)) as [t o]. simpl in H. subst.
    now exists o.
  - rewrite Hp, (builtin_needs_argument key tool Hu) in Hb. discriminate.
Qed.

Lemma dispatch_sentinel (self : AIAgent pyfloat) (d : pydict pyfloat) (tool_name : str) :
  dict_get (lit "tool") d = Some (PStr tool_name) -> In tool_name error_sentinels ->
  exists o, dispatch rt self (PDict d) = ([], o).
Proof.
  intros Ht Hs. unfold dispatch, selected_tool. rewrite Ht.
  assert (existsb (eq_str (PStr (pyfloat := pyfloat) tool_name)) error_sentinels = true) as ->.
  { apply existsb_exists. exists tool_name. split; [assumption|apply str_eqb_refl]. }
  eexists. reflexivity.
Qed.

(** X12. When the cleaned reply is not a JSON text, the agent as
    [AIAgent.__init__] builds it executes no tool: whatever the fallback regex
    extracts, the request consists of the chat completion alone and is
    answered by a text message. *)
Theorem fallback_runs_no_builtin_tool (user_input raw : str) :
  chat_completion rt (request_messages (AIAgent_init rt) user_input) = Returns (PStr raw) ->
  json_loads rt (clean_response raw) = None ->
  exists answer,
    process_request rt (AIAgent_init rt) user_input
    = ([EvCompletion (request_messages (AIAgent_init rt) user_input)],
       Returns (PStr answer)).
Proof.
  intros H Hc.
  assert (exists d o, interpret rt raw = PDict d
                      /\ dispatch rt (AIAgent_init rt) (PDict d) = ([], o))
    as (d & o & Ei & Ed).
  { unfold interpret. rewrite Hc.
    destruct (brace_span raw) as [m|] eqn:Eb.
    2:{ eexists _, _. split; reflexivity. }
    destruct (json_loads rt m) as [result|] eqn:Ej.
    2:{ eexists _, _. split; reflexivity. }
    destruct (validate_origin result) as (d & Ev & [(name & Hn & Hs)|[-> _]]).
    - destruct (dispatch_sentinel (AIAgent_init rt) d name Hn Hs) as [o Ho].
      now exists d, o.
    - destruct (dispatch_no_parameters d) as [o Ho]; [|now exists d, o].
      apply (flat_dict_parameters m); [|exact Ej].
      rewrite (brace_span_one_close raw m Eb). lia. }
  rewrite (process_request_reply _ _ _ H), Ei. unfold bind. rewrite Ed.
  destruct (dispatch_cases rt (AIAgent_init rt) d)
    as [(s & E)|[E|[(tool & args & s & E)|[(tool & args & v & _ & E)|(tool & args & x & _ & E)]]]];
    rewrite Ed in E; try discriminate; injection E as ->; eexists; reflexivity.
Qed.

End DispatchProperties.

(** *** The calculator *)

Section CalculatorProperties.
Context {pyfloat : Type} (rt : Runtime pyfloat).
Abbreviation value := (pyval pyfloat).

(** X13. On a string, [CalculatorTool.execute] raises no exception below
    [Exception], whatever [eval] does: it returns a float or a text that
    starts with [Error].  The one other way it ends is that [eval], given the
    checked expression with the circumflex replaced, is left by an exception
    that is not below [Exception]: no handler of lines 73-81 takes it and it
    leaves [execute] too. *)
Theorem calculator_number_or_error (expression : str) :
  (exists v,
     CalculatorTool_execute rt (PStr expression) = Returns v
     /\ ((exists f, v = PFloat f) \/ (exists m, v = PStr (lit "Error" ++ m))))
  \/ (exists x,
     forallb calc_char_ok expression = true
     /\ py_eval rt (replace_char 94 (lit "**") expression) = Exits x
     /\ CalculatorTool_execute rt (PStr expression) = Exits x).
Proof.
  unfold CalculatorTool_execute.
  destruct (strip expression).
  { left. eexists. split; [reflexivity|]. right. eexists. reflexivity. }
  destruct (forallb calc_char_ok expression) eqn:Ec; cbn [negb].
  2:{ left. eexists. split; [reflexivity|]. right. eexists. reflexivity. }
  assert (forall z, (exists f, to_float rt expression z = PFloat f)
                    \/ (exists m, to_float rt expression z = PStr (lit "Error" ++ m))) as Hf.
  { intro z. unfold to_float. destruct (float_of_int rt z).
    - left. now eexists.
    - right. eexists. reflexivity. }
  destruct (py_eval rt _) as [[[z|b|f|text]|ex]|x].
  - left. eexists. split; [reflexivity|]. apply Hf.
  - left. eexists. split; [reflexivity|]. apply Hf.
  - left. eexists. split; [reflexivity|]. left. now eexists.
  - left. eexists. split; [reflexivity|]. right. eexists. reflexivity.
  - left. eexists. split; [reflexivity|]. right. unfold calc_error.
    destruct (exc_type ex); eexists; reflexivity.
  - right. exists x. now repeat split.
Qed.


Lemma processed_expression_checked (expression : str) :
  forallb calc_char_ok expression = true ->
  forallb eval_char_ok (replace_char 94 (lit "**") expression) = true.
Proof.
  unfold replace_char. induction expression as [|c r IH]; [reflexivity|].
  cbn [forallb flat_map]. intro H. apply andb_true_iff in H as [Hc Hr].
  rewrite forallb_app, (IH Hr), andb_true_r.
  destruct (c =? 94) eqn:E; [reflexivity|].
  cbn [forallb]. unfold eval_char_ok. now rewrite Hc, E.
Qed.

(** X14. [eval] is applied only to a text made of the characters of the
    validation regex without the circumflex: two [eval]s that agree on such
    texts give the same result of [execute] on every expression. *)
Theorem eval_sees_only_checked_text (f g : str -> result (eval_result pyfloat))
        (expression : str) :
  (forall text, forallb eval_char_ok text = true -> f text = g text) ->
  CalculatorTool_execute (with_py_eval rt f) (PStr expression)
  = CalculatorTool_execute (with_py_eval rt g) (PStr expression).
Proof.
  intro H. unfold CalculatorTool_execute.
  destruct (strip expression); [reflexivity|].
  destruct (forallb calc_char_ok expression) eqn:E; [|reflexivity].
  cbn [negb py_eval with_py_eval].
  now rewrite (H _ (processed_expression_checked expression E)).
Qed.


(** X15. When the decision gives the calculator an expression that is not a
    string, [execute] is called, fails on [strip], and the request is answered
    by the message that an error occurred while using the calculator tool. *)
Theorem calculator_expression_not_text (user_input : str) (d : pydict pyfloat)
        (expression : value) :
  snd (_determine_tool rt (AIAgent_init rt) user_input) = Returns (PDict d) ->
  dict_get (lit "tool") d = Some (PStr (lit "calculator")) ->
  dict_get (lit "parameters") d = Some (PDict [(lit "expression", expression)]) ->
  (forall s, expression <> PStr s) ->
  process_request rt (AIAgent_init rt) user_input
  = ([EvCompletion (request_messages (AIAgent_init rt) user_input);
      EvExecute (lit "calculator") [expression]],
     Returns (PStr (lit "Sorry, an error occurred while using the calculator tool: '"
                    ++ type_name expression
                    ++ lit "' object has no attribute 'strip'"))).
Proof.
  intros Hd Ht Hp Hs. rewrite (process_request_decided rt _ _ _ Hd).
  unfold bind. rewrite (dispatch_named rt _ d (lit "calculator") Ht).
  2: discriminate.
  2: { intros [H|[H|[H|[]]]]; discriminate. }
  2: discriminate.
  unfold selected_parameters. rewrite Hp.
  destruct expression; try reflexivity. now destruct (Hs s).
Qed.

End CalculatorProperties.

(** *** Paths that pass the checks of the file reader *)

Section PathProperties.
Context {pyfloat : Type} (rt : Runtime pyfloat).
Abbreviation value := (pyval pyfloat).

Lemma split_char_cons (sep : char) (s : str) : exists w ws, split_char sep s = w :: ws.
Proof.
  induction s as [|c r (w & ws & E)]; cbn [split_char].
  - now exists [], [].
  - rewrite E. destruct (c =? sep); eexists _, _; reflexivity.
Qed.

Lemma split_char_app (sep : char) (a b : str) :
  split_char sep (a ++ sep :: b) = split_char sep a ++ split_char sep b.
Proof.
  induction a as [|c a IH]; cbn [app split_char].
  - destruct (split_char_cons sep b) as (w & ws & ->). now rewrite N.eqb_refl.
  - rewrite IH. destruct (split_char_cons sep a) as (w & ws & ->). cbn [app].
    now destruct (c =? sep).
Qed.

Lemma split_char_parts (sep : char) (s : str) :
  (exists w ws post, split_char sep s = w :: ws /\ s = w ++ post)
  /\ forall w, In w (split_char sep s) -> ~ In sep w /\ substring w s.
Proof.
  induction s as [|c r [(w0 & ws0 & post & E & Er) IH]]; cbn [split_char].
  - split.
    + now exists [], [], [].
    + intros w [<-|[]]. split; [now intros []|apply substring_refl].
  - rewrite E in IH |- *.
    assert (forall w, substring w r -> substring w (c :: r)) as Hsub.
    { intros w (pre & post' & ->). now exists (c :: pre), post'. }
    destruct (N.eqb_spec c sep) as [->|Hc].
    + split.
      * now exists [], (w0 :: ws0), (sep :: r).
      * intros w [<-|H].
        -- split; [now intros []|]. now exists [], (sep :: r).
        -- destruct (IH w H) as [H1 H2]. split; [exact H1|now apply Hsub].
    + split.
      * exists (c :: w0), ws0, post. split; [reflexivity|]. now rewrite Er at 1.
      * intros w [<-|H].
        -- split.
           ++ intros [H|H]; [now apply Hc|]. now apply (proj1 (IH w0 (or_introl eq_refl))).
           ++ exists [], post. cbn [app]. now rewrite Er at 1.
        -- destruct (IH w (or_intror H)) as [H1 H2]. split; [exact H1|now apply Hsub].
Qed.

Lemma startswith_app (a b : str) : startswith a (a ++ b) = true.
Proof. induction a as [|x a IH]; [reflexivity|]. cbn. now rewrite N.eqb_refl. Qed.

Lemma str_contains_substring (sub s : str) : substring sub s -> str_contains sub s = true.
Proof.
  intros (pre & post & ->). induction pre as [|x pre IH].
  - cbn [app]. destruct (sub ++ post) eqn:E; cbn [str_contains]; rewrite <- E;
      now rewrite startswith_app.
  - cbn [app str_contains]. rewrite IH. apply orb_true_r.
Qed.

Lemma no_dotdot_component (p w : str) :
  str_contains (lit "..") p = false -> In w (split_char 47 p) -> w <> lit "..".
Proof.
  intros Hc Hw ->. apply (proj2 (split_char_parts 47 p)) in Hw as [_ Hs].
  apply str_contains_substring in Hs. rewrite Hs in Hc. discriminate.
Qed.

Lemma norm_step_plain (n : nat) (acc : list str) (w : str) :
  w <> lit ".." -> norm_step n acc w = if kept_component w then acc ++ [w] else acc.
Proof.
  intro H. unfold norm_step, kept_component.
  destruct (str_eqb w [] || str_eqb w (lit ".")); [reflexivity|].
  apply str_eqb_neq in H. now rewrite H.
Qed.

Lemma fold_norm_plain (n : nat) (l acc : list str) :
  (forall w, In w l -> w <> lit "..") ->
  fold_left (norm_step n) l acc = acc ++ filter kept_component l.
Proof.
  revert acc. induction l as [|w l IH]; intros acc H; cbn [fold_left filter].
  - now rewrite app_nil_r.
  - rewrite norm_step_plain by (apply H; now left).
    rewrite IH by (intros x Hx; apply H; now right).
    destruct (kept_component w); [|reflexivity]. now rewrite <- app_assoc.
Qed.

Lemma Forall_removelast {A : Type} (P : A -> Prop) (l : list A) :
  Forall P l -> Forall P (removelast l).
Proof.
  induction 1 as [|x l Hx Hl IH]; [constructor|]. cbn [removelast].
  destruct l; [constructor|]. now constructor.
Qed.

(** The components that [normpath] keeps are not empty and hold no slash. *)
Lemma fold_norm_named (n : nat) (l acc : list str) :
  Forall (fun w => ~ In 47 w) l ->
  Forall (fun w => w <> [] /\ ~ In 47 w) acc ->
  Forall (fun w => w <> [] /\ ~ In 47 w) (fold_left (norm_step n) l acc).
Proof.
  revert acc. induction l as [|w l IH]; intros acc Hl Ha; [exact Ha|].
  cbn [fold_left]. inversion Hl as [|? ? Hw Hl']; subst. apply IH; [exact Hl'|].
  unfold norm_step. destruct (str_eqb w []) eqn:E; [exact Ha|]. cbn [orb].
  destruct (str_eqb w (lit ".")); [exact Ha|].
  destruct (_ || _).
  - apply Forall_app. split; [exact Ha|]. constructor; [|constructor].
    split; [now apply str_eqb_neq|exact Hw].
  - now apply Forall_removelast.
Qed.

Lemma normpath_absolute (path : str) :
  isabs path = true ->
  normpath path
  = repeat 47 (initial_slashes path)
    ++ join slash (fold_left (norm_step (initial_slashes path)) (split_char 47 path) []).
Proof.
  intro H. destruct path as [|c r]; [discriminate|].
  unfold normpath, initial_slashes. unfold isabs in H. rewrite H.
  destruct (startswith (lit "//") (c :: r) && negb (startswith (lit "///") (c :: r)));
    reflexivity.
Qed.

Lemma endswith_slash (s : str) : endswith slash s = true -> exists t, s = t ++ [47].
Proof.
  unfold endswith, slash. cbn [rev app]. intro H.
  destruct (rev s) as [|x t] eqn:E; [discriminate|]. cbn [startswith] in H.
  apply andb_true_iff in H as [H _]. apply N.eqb_eq in H. subst x.
  exists (rev t). rewrite <- (rev_involutive s), E. reflexivity.
Qed.

Lemma endswith_last (s : str) (y : char) : endswith slash (s ++ [y]) = (47 =? y).
Proof.
  unfold endswith, slash. rewrite rev_app_distr. cbn [rev app startswith].
  apply andb_true_r.
Qed.

(** Joining a relative path that does not start with a slash keeps the
    leading slashes. *)
Lemma initial_slashes_join (cwd : str) (x : char) (p : str) :
  isabs cwd = true -> x <> 47 ->
  initial_slashes (path_join cwd (x :: p)) = initial_slashes cwd
  /\ isabs (path_join cwd (x :: p)) = true.
Proof.
  intros Ha Hx. unfold path_join, slash. cbn [startswith].
  rewrite (proj2 (N.eqb_neq 47 x)) by (intro; now apply Hx). cbn [andb].
  destruct cwd as [|a cwd]; [discriminate|].
  unfold isabs, slash in Ha. cbn [startswith] in Ha. apply andb_true_iff in Ha as [Ha _].
  apply N.eqb_eq in Ha. subst a.
  assert ((47 =? x) = false) as Ex by (apply N.eqb_neq; intro; now apply Hx).
  unfold initial_slashes, isabs, slash.
  destruct cwd as [|b cwd].
  { repeat (cbn -[N.eqb]; rewrite ?N.eqb_refl, ?Ex). now split. }
  destruct cwd as [|c cwd].
  { destruct (N.eqb_spec 47 b) as [<-|Hb].
    - repeat (cbn -[N.eqb]; rewrite ?N.eqb_refl, ?Ex). now split.
    - assert ((47 =? b) = false) as Eb by now apply N.eqb_neq.
      repeat (cbn -[N.eqb]; rewrite ?N.eqb_refl, ?Eb). now split. }
  match goal with
  | |- context [endswith ?a ?b] => destruct (endswith a b)
  end; repeat (cbn -[N.eqb]; rewrite ?N.eqb_refl); now split.
Qed.

Lemma join_app (sep : str) (a b : list str) :
  a <> [] -> b <> [] -> join sep (a ++ b) = join sep a ++ sep ++ join sep b.
Proof.
  intros Ha Hb. induction a as [|x a IH]; [contradiction|].
  destruct a as [|y a].
  - cbn [app]. destruct b; [contradiction|]. reflexivity.
  - change ((x :: y :: a) ++ b) with (x :: (y :: a) ++ b).
    change (join sep (x :: (y :: a) ++ b)) with (x ++ sep ++ join sep ((y :: a) ++ b)).
    rewrite IH by discriminate.
    change (join sep (x :: y :: a)) with (x ++ sep ++ join sep (y :: a)).
    now rewrite <- !app_assoc.
Qed.

(** The last character of a joined path is the last one of its last
    component. *)
Lemma join_last (comps : list str) :
  comps <> [] -> Forall (fun w => w <> [] /\ ~ In 47 w) comps ->
  exists t y, join slash comps = t ++ [y] /\ y <> 47.
Proof.
  intros Hn H. induction H as [|w l [Hw Hs] Hl IH]; [contradiction|].
  destruct l as [|w2 l].
  - cbn [join]. destruct (exists_last Hw) as (t & y & ->). exists t, y.
    split; [reflexivity|]. intros ->. apply Hs. apply in_or_app. right. now left.
  - destruct IH as (t & y & E & Hy); [discriminate|].
    change (join slash (w :: w2 :: l)) with (w ++ slash ++ join slash (w2 :: l)).
    rewrite E. exists (w ++ slash ++ t), y. split; [|exact Hy].
    now rewrite <- !app_assoc.
Qed.

Lemma join_head (comps : list str) (w : str) :
  w <> [] -> ~ In 47 w -> startswith slash (join slash (w :: comps)) = false.
Proof.
  intros Hw Hs. destruct w as [|x w]; [contradiction|].
  assert ((47 =? x) = false) as E by (apply N.eqb_neq; intros <-; apply Hs; now left).
  destruct comps; cbn -[N.eqb]; now rewrite E.
Qed.

Lemma kept_plain (p : str) :
  str_contains (lit "..") p = false ->
  Forall plain_component (filter kept_component (split_char 47 p)).
Proof.
  intro Hc. apply Forall_forall. intros w Hw. apply filter_In in Hw as [Hi Hk].
  unfold kept_component in Hk. apply negb_true_iff, orb_false_iff in Hk as [H1 H2].
  repeat split.
  - now apply str_eqb_neq.
  - now apply str_eqb_neq.
  - now apply (no_dotdot_component p).
  - now apply (proj2 (split_char_parts 47 p)).
Qed.

Lemma path_join_relative (a b : str) :
  a <> [] -> isabs b = false ->
  path_join a b = if endswith slash a then a ++ b else a ++ slash ++ b.
Proof.
  intros Ha Hb. unfold path_join. unfold isabs in Hb. rewrite Hb. now destruct a.
Qed.

(** The components of the joined path are those of the base followed by
    the kept ones of the relative path. *)
Lemma components_of_join (n : nat) (cwd p : str) :
  cwd <> [] -> isabs p = false -> str_contains (lit "..") p = false ->
  fold_left (norm_step n) (split_char 47 (path_join cwd p)) []
  = fold_left (norm_step n) (split_char 47 cwd) []
    ++ filter kept_component (split_char 47 p).
Proof.
  intros Hn Ha Hc. rewrite (path_join_relative cwd p Hn Ha).
  destruct (endswith slash cwd) eqn:Ee.
  - apply endswith_slash in Ee as [t E]. subst cwd.
    rewrite <- app_assoc.
    change ([47] ++ p) with (47 :: p). change (t ++ [47]) with (t ++ 47 :: []).
    rewrite !split_char_app, !fold_left_app.
    cbn [split_char fold_left]. unfold norm_step at 2. cbn [str_eqb orb].
    apply fold_norm_plain. intros w Hw. now apply (no_dotdot_component p).
  - change (cwd ++ slash ++ p) with (cwd ++ 47 :: p).
    rewrite split_char_app, fold_left_app.
    apply fold_norm_plain. intros w Hw. now apply (no_dotdot_component p).
Qed.

Lemma resolved_below_base (cwd p : str) :
  isabs cwd = true -> p <> [] -> isabs p = false -> str_contains (lit "..") p = false ->
  exists comps,
    Forall plain_component comps
    /\ normpath (path_join cwd p)
       = match comps with
         | [] => normpath cwd
         | _ => path_join (normpath cwd) (join slash comps)
         end.
Proof.
  intros Hcwd Hp Ha Hc. exists (filter kept_component (split_char 47 p)).
  split; [now apply kept_plain|].
  destruct p as [|x p]; [contradiction|].
  assert (x <> 47) as Hx.
  { intros ->. unfold isabs, slash in Ha. cbn in Ha. discriminate. }
  destruct (initial_slashes_join cwd x p Hcwd Hx) as [Ei Ej].
  rewrite (normpath_absolute _ Ej), (normpath_absolute _ Hcwd), Ei.
  rewrite components_of_join; [|now destruct cwd|exact Ha|exact Hc].
  pose proof (kept_plain (x :: p) Hc) as Hk.
  set (kept := filter kept_component (split_char 47 (x :: p))) in *.
  set (n := initial_slashes cwd).
  assert (Forall (fun w => w <> [] /\ ~ In 47 w)
                 (fold_left (norm_step n) (split_char 47 cwd) [])) as Hb.
  { apply fold_norm_named; [|constructor]. apply Forall_forall. intros w Hw.
    now apply (proj2 (split_char_parts 47 cwd)). }
  set (base := fold_left (norm_step n) (split_char 47 cwd) []) in *.
  assert (n = 1%nat \/ n = 2%nat) as Hn.
  { subst n. unfold initial_slashes. unfold isabs in Hcwd. rewrite Hcwd.
    destruct (_ && _); [now right|now left]. }
  destruct kept as [|k ks] eqn:Ek; [now rewrite app_nil_r|].
  inversion Hk as [|? ? (Hk1 & _ & _ & Hk2) _]; subst.
  unfold path_join. rewrite (join_head ks k Hk1 Hk2).
  destruct base as [|b bs] eqn:Eb.
  - cbn [app join]. rewrite app_nil_r.
    destruct Hn as [-> | ->]; cbn [repeat app]; reflexivity.
  - destruct (join_last (b :: bs)) as (t & y & E & Hy); [discriminate|exact Hb|].
    rewrite join_app by discriminate. rewrite E.
    assert (endswith slash (repeat 47 n ++ t ++ [y]) = false) as Ee.
    { rewrite app_assoc, endswith_last. apply N.eqb_neq. intro; now apply Hy. }
    rewrite Ee.
    destruct (repeat 47 n ++ t ++ [y]) eqn:Er.
    { destruct Hn as [-> | ->]; discriminate. }
    rewrite <- Er. now rewrite <- !app_assoc.
Qed.

(** X16. When the working directory is absolute, a path that is not empty, not
    absolute and without [..] passes the three path checks, and the file that
    is read is the base directory or a path below it: the resolved path is the
    resolved base joined with components that are not empty, not [.] or [..]
    and hold no slash. *)
Theorem relative_path_read_below_base (file_path : str) :
  isabs (getcwd rt) = true ->
  file_path <> [] -> isabs file_path = false ->
  str_contains (lit "..") file_path = false ->
  exists comps,
    Forall plain_component comps
    /\ abspath rt (path_join (FILE_READ_BASE_PATH rt) file_path)
       = match comps with
         | [] => abspath rt (FILE_READ_BASE_PATH rt)
         | _ => path_join (abspath rt (FILE_READ_BASE_PATH rt)) (join slash comps)
         end
    /\ FileReaderTool_execute rt (PStr file_path)
       = Returns (PStr (read_file rt file_path
                          (abspath rt (path_join (FILE_READ_BASE_PATH rt) file_path)))).
Proof.
  intros Hcwd Hp Ha Hc. unfold FILE_READ_BASE_PATH.
  destruct (resolved_below_base (getcwd rt) file_path Hcwd Hp Ha Hc) as (comps & Hk & E).
  assert (isabs (path_join (getcwd rt) file_path) = true) as Hj.
  { destruct file_path as [|x p]; [contradiction|].
    apply initial_slashes_join; [exact Hcwd|].
    intros ->. unfold isabs, slash in Ha. cbn in Ha. discriminate. }
  assert (abspath rt (path_join (getcwd rt) file_path) = normpath (path_join (getcwd rt) file_path))
    as E1 by (unfold abspath; now rewrite Hj).
  assert (abspath rt (getcwd rt) = normpath (getcwd rt))
    as E2 by (unfold abspath; now rewrite Hcwd).
  exists comps. split; [exact Hk|]. split; [now rewrite E1, E2|].
  unfold FileReaderTool_execute, FILE_READ_BASE_PATH.
  assert (py_truth rt (PStr file_path) = true) as -> by (now destruct file_path).
  cbn [negb]. rewrite Hc, Ha.
  assert (startswith (abspath rt (getcwd rt)) (abspath rt (path_join (getcwd rt) file_path))
          = true) as ->; [|reflexivity].
  rewrite E1, E2, E. destruct comps as [|k ks].
  - rewrite <- (app_nil_r (normpath (getcwd rt))) at 2. apply startswith_app.
  - inversion Hk as [|? ? (Hk1 & _ & _ & Hk2) _]; subst.
    unfold path_join. rewrite (join_head ks k Hk1 Hk2).
    destruct (normpath (getcwd rt)) eqn:En; [reflexivity|]. rewrite <- En.
    destruct (endswith slash (normpath (getcwd rt))); apply startswith_app.
Qed.


End PathProperties.

(** *** Cleaning the text of a PDF *)

Section CleanPdfTextProperties.

Lemma free_of_app (a b : char) (x y : str) :
  free_of a b (x ++ y) = true -> free_of a b x = true /\ free_of a b y = true.
Proof.
  induction x as [|c x IH]; [now split|]. cbn [app free_of]. intro H.
  apply andb_true_iff in H as [H1 H2]. destruct (IH H2) as [Hx Hy]. split; [|exact Hy].
  rewrite Hx, andb_true_r. destruct (c =? a); [|reflexivity].
  destruct x as [|d x]; [reflexivity|exact H1].
Qed.

Lemma free_of_strip (a b : char) (s : str) :
  free_of a b s = true -> free_of a b (strip s) = true.
Proof.
  intro H. unfold strip. destruct (lstrip_suffix s) as [pre E].
  rewrite E in H. apply free_of_app in H as [_ H].
  destruct (rstrip_prefix (lstrip s)) as [post E2]. rewrite E2 in H.
  now apply free_of_app in H as [H _].
Qed.

Lemma free_of_contains (a b : char) (s : str) :
  str_contains [a; b] s = negb (free_of a b s).
Proof.
  induction s as [|c r IH]; [reflexivity|].
  cbn [str_contains free_of startswith]. rewrite IH, negb_andb, negb_involutive.
  f_equal. rewrite (N.eqb_sym a c). destruct (c =? a); [|reflexivity]. cbn [andb].
  destruct r as [|d r]; [reflexivity|]. cbn [head_is]. rewrite (N.eqb_sym b d).
  apply andb_true_r.
Qed.

Lemma head_collapse (c : char) (s : str) : head_is c (collapse_spaces s) = head_is c s.
Proof.
  induction s as [|x r IH]; [reflexivity|]. cbn [collapse_spaces].
  destruct (x =? 32) eqn:Ex; [|reflexivity]. cbn [andb].
  destruct (head_is 32 r) eqn:Eh; [|reflexivity].
  rewrite IH. destruct r as [|y r]; [discriminate|]. cbn [head_is] in *.
  apply N.eqb_eq in Ex, Eh. now subst.
Qed.

Lemma collapse_spaces_free (s : str) : free_of 32 32 (collapse_spaces s) = true.
Proof.
  induction s as [|c r IH]; [reflexivity|]. cbn [collapse_spaces].
  destruct ((c =? 32) && head_is 32 r) eqn:E; [exact IH|].
  cbn [free_of]. now rewrite head_collapse, E, IH.
Qed.

Lemma head_newline_escapes (c : char) (s : str) :
  c <> 10 -> head_is c (newline_escapes false s) = true -> head_is c s = true.
Proof.
  intros Hc. destruct s as [|x r]; [discriminate|]. cbn [newline_escapes andb].
  destruct ((x =? 92) && head_is 110 r); [|trivial].
  cbn [head_is]. intro H. apply N.eqb_eq in H. now subst.
Qed.

Lemma newline_escapes_spaces (inside : bool) (s : str) :
  free_of 32 32 s = true -> free_of 32 32 (newline_escapes inside s) = true.
Proof.
  revert inside. induction s as [|c r IH]; intros inside H; [reflexivity|].
  cbn [free_of] in H. apply andb_true_iff in H as [H1 H2]. cbn [newline_escapes].
  destruct (inside && (c =? 110)); [now apply IH|].
  destruct ((c =? 92) && head_is 110 r).
  - cbn [free_of]. now rewrite IH.
  - cbn [free_of]. rewrite IH by assumption. rewrite andb_true_r.
    destruct (c =? 32); [|reflexivity]. cbn [andb] in *.
    destruct (head_is 32 (newline_escapes false r)) eqn:E; [|reflexivity].
    apply head_newline_escapes in E; [|discriminate]. now rewrite E in H1.
Qed.

Lemma newline_escapes_free (inside : bool) (s : str) :
  free_of 92 110 (newline_escapes inside s) = true.
Proof.
  revert inside. induction s as [|c r IH]; intro inside; [reflexivity|].
  cbn [newline_escapes].
  destruct (inside && (c =? 110)); [apply IH|].
  destruct ((c =? 92) && head_is 110 r) eqn:E.
  - cbn [free_of]. now rewrite IH.
  - cbn [free_of]. rewrite IH, andb_true_r.
    destruct (c =? 92); [|reflexivity]. cbn [andb] in *.
    destruct (head_is 110 (newline_escapes false r)) eqn:E2; [|reflexivity].
    apply head_newline_escapes in E2; [|discriminate]. now rewrite E2 in E.
Qed.

Lemma collapse_spaces_fixed (s : str) : free_of 32 32 s = true -> collapse_spaces s = s.
Proof.
  induction s as [|c r IH]; [reflexivity|]. cbn [free_of collapse_spaces]. intro H.
  apply andb_true_iff in H as [H1 H2]. apply negb_true_iff in H1.
  now rewrite H1, IH.
Qed.

Lemma newline_escapes_fixed (s : str) :
  free_of 92 110 s = true -> newline_escapes false s = s.
Proof.
  induction s as [|c r IH]; [reflexivity|]. cbn [free_of newline_escapes andb]. intro H.
  apply andb_true_iff in H as [H1 H2]. apply negb_true_iff in H1.
  now rewrite H1, IH.
Qed.

Lemma split_pair_whole (s : str) :
  free_of 92 110 s = true -> split_pair 92 110 false s = [s].
Proof.
  induction s as [|c r IH]; [reflexivity|]. cbn [free_of split_pair]. intro H.
  apply andb_true_iff in H as [H1 H2]. apply negb_true_iff in H1.
  now rewrite H1, IH.
Qed.

Lemma startswith_free (a b : char) (q s : str) :
  free_of a b s = true -> startswith (a :: b :: q) s = false.
Proof.
  destruct s as [|x s]; [reflexivity|]. cbn [free_of startswith]. intro H.
  apply andb_true_iff in H as [H _]. apply negb_true_iff in H.
  rewrite (N.eqb_sym a x). destruct (x =? a); [|reflexivity]. cbn [andb] in *.
  destruct s as [|y s]; [reflexivity|]. cbn [head_is] in H. cbn [startswith].
  now rewrite (N.eqb_sym b y), H.
Qed.

Lemma join_wrapped_fixed (s : str) : free_of 92 110 s = true -> join_wrapped 0 s = s.
Proof.
  induction s as [|c r IH]; [reflexivity|]. intro H.
  cbn [free_of] in H. apply andb_true_iff in H as [H1 H2].
  cbn [join_wrapped].
  assert (startswith wrapped_break (c :: r) = false) as ->.
  { pose proof (startswith_free 92 110 [32] r H2) as Hs.
    unfold wrapped_break. cbn [startswith] in Hs |- *. rewrite Hs. apply andb_false_r. }
  now rewrite IH.
Qed.

Lemma clean_pdf_text_steps (text : str) :
  _clean_pdf_text text = strip (newline_escapes false (collapse_spaces text)).
Proof.
  destruct text as [|c r]; [reflexivity|]. unfold _clean_pdf_text.
  set (t := newline_escapes false (collapse_spaces (c :: r))).
  assert (free_of 92 110 t = true) as Ht by apply newline_escapes_free.
  rewrite (split_pair_whole t Ht). cbn [map join].
  rewrite join_wrapped_fixed by now apply free_of_strip.
  apply strip_idempotent.
Qed.

Lemma clean_pdf_text_stripped (text : str) :
  strip (_clean_pdf_text text) = _clean_pdf_text text.
Proof. rewrite clean_pdf_text_steps. apply strip_idempotent. Qed.

(** X17. [_clean_pdf_text] collapses runs of spaces, turns a backslash
    followed by letters [n] into a line feed and strips the text; the split at
    backslash-n, the join and the last substitution change nothing.  A text
    without two adjacent spaces and without a backslash followed by [n] is
    only stripped: its line feeds stay as they are. *)
Theorem clean_pdf_text_line_steps_idle (text : str) :
  _clean_pdf_text text = strip (newline_escapes false (collapse_spaces text))
  /\ (str_contains [32; 32] text = false -> str_contains [92; 110] text = false ->
      _clean_pdf_text text = strip text).
Proof.
  split; [apply clean_pdf_text_steps|]. intros H1 H2.
  rewrite free_of_contains in H1, H2. apply negb_false_iff in H1, H2.
  now rewrite clean_pdf_text_steps, collapse_spaces_fixed, newline_escapes_fixed.
Qed.

(** X18. The result of [_clean_pdf_text] has no white space at its ends, no
    two adjacent spaces and no backslash followed by [n], and cleaning it
    again gives it back. *)
Theorem clean_pdf_text_normal_form (text : str) :
  let cleaned := _clean_pdf_text text in
  strip cleaned = cleaned
  /\ str_contains [32; 32] cleaned = false
  /\ str_contains [92; 110] cleaned = false
  /\ _clean_pdf_text cleaned = cleaned.
Proof.
  cbv zeta. rewrite clean_pdf_text_steps.
  set (t := newline_escapes false (collapse_spaces text)).
  assert (free_of 92 110 (strip t) = true) as H1
      by (apply free_of_strip, newline_escapes_free).
  assert (free_of 32 32 (strip t) = true) as H2
      by (apply free_of_strip, newline_escapes_spaces, collapse_spaces_free).
  rewrite !free_of_contains, H1, H2, clean_pdf_text_steps.
  rewrite (collapse_spaces_fixed _ H2), (newline_escapes_fixed _ H1), !strip_idempotent.
  now repeat split.
Qed.

End CleanPdfTextProperties.

(** *** What the file reader hands back *)

Section FileProperties.
Context {pyfloat : Type} (rt : Runtime pyfloat).

Lemma length_firstn_le {A : Type} (n : nat) (l : list A) : (List.length (firstn n l) <= n)%nat.
Proof. rewrite length_firstn. lia. Qed.

(** X19. The content that the file reader hands back is the first
    [MAX_CHARS_RETURN] characters of what was read, followed by the truncation
    notice exactly when more than [MAX_CHARS_RETURN] characters were read:
    content within the limit is handed back as it is, and content beyond it
    gives exactly 10049 characters. *)
Theorem delivered_text_is_bounded (file_path content : str) :
  strip content <> [] \/ MAX_CHARS_RETURN < N.of_nat (List.length content) ->
  deliver file_path content
  = firstn (N.to_nat MAX_CHARS_RETURN) content
    ++ (if MAX_CHARS_RETURN <? N.of_nat (List.length content)
        then truncation_notice else [])
  /\ (N.of_nat (List.length content) <= MAX_CHARS_RETURN ->
      deliver file_path content = content)
  /\ (MAX_CHARS_RETURN < N.of_nat (List.length content) ->
      N.of_nat (List.length (deliver file_path content)) = MAX_CHARS_RETURN + 49)
  /\ N.of_nat (List.length (deliver file_path content)) <= MAX_CHARS_RETURN + 49.
Proof.
  intro H. unfold deliver.
  destruct (N.ltb_spec MAX_CHARS_RETURN (N.of_nat (List.length content))) as [Hl|Hl].
  - fold truncation_notice. rewrite length_app, length_firstn.
    change (List.length truncation_notice) with 49%nat.
    unfold MAX_CHARS_RETURN in *. repeat split; try reflexivity; lia.
  - destruct H as [H|H]; [|lia].
    destruct (strip content) eqn:E; [contradiction|].
    rewrite app_nil_r. rewrite firstn_all2 by lia.
    unfold MAX_CHARS_RETURN in *. repeat split; try reflexivity; lia.
Qed.

(** X20. For an existing PDF within the size limit, with PyPDF2 available, the
    answer is decided by the cleaned text alone: the PDF info message when it
    is empty, the text cut at the limit with the notice when it is too long,
    the text itself otherwise.  The later check for blank content never fires
    for a PDF. *)
Theorem pdf_answer_from_cleaned_text (file_path absolute_filepath raw : str) (size : N) :
  fs_exists rt absolute_filepath = true ->
  fs_isfile rt absolute_filepath = true ->
  fs_getsize rt absolute_filepath = Returns size -> size <= MAX_FILE_SIZE_BYTES ->
  map ascii_lower (splitext_ext absolute_filepath) = lit ".pdf" ->
  PYPDF2_AVAILABLE rt = true ->
  pdf_clean_text rt absolute_filepath = Returns (_clean_pdf_text raw) ->
  read_file rt file_path absolute_filepath
  = match _clean_pdf_text raw with
    | [] => lit "Info: PDF file '" ++ file_path
            ++ lit "' was read, but no text content could be extracted or remained after cleaning (it might be an image-based PDF or empty)."
    | cleaned =>
        if MAX_CHARS_RETURN <? N.of_nat (List.length cleaned)
        then firstn (N.to_nat MAX_CHARS_RETURN) cleaned ++ truncation_notice
        else cleaned
    end.
Proof.
  intros He Hf Hs Hsize Hext Hp Hc. unfold read_file.
  rewrite He, Hf, Hs, Hext, Hp, Hc. cbn [negb].
  apply N.ltb_ge in Hsize. rewrite Hsize.
  change (str_eqb (lit ".pdf") (lit ".pdf")) with true. cbv iota.
  pose proof (clean_pdf_text_stripped raw) as Hn. rewrite Hn.
  destruct (_clean_pdf_text raw) as [|c r] eqn:E; [reflexivity|].
  unfold deliver. rewrite <- E in *. rewrite Hn, E. reflexivity.
Qed.

End FileProperties.

(** *** The weather tool *)

Section WeatherProperties.
Context {pyfloat : Type} (rt : Runtime pyfloat) (net : Network pyfloat).
Abbreviation value := (pyval pyfloat).

(** X21. When the answer of the weather service has the code 200 and none of
    the keys [weather], [main], [wind] and [name], the report names the city
    as it was asked for and shows [N/A] in every field. *)
Theorem weather_missing_sections (city : str) (api_key : str) (d : pydict pyfloat)
        (cod : value) :
  city <> [] -> WEATHER_API_KEY net = Some api_key -> api_key <> [] ->
  fetch net (PStr city) api_key = inr (PDict d) ->
  dict_get (lit "cod") d = Some cod -> py_str rt cod = lit "200" ->
  dict_get (lit "weather") d = None -> dict_get (lit "main") d = None ->
  dict_get (lit "wind") d = None -> dict_get (lit "name") d = None ->
  WeatherFetcherTool_execute rt net (PStr city)
  = lit "Current weather in " ++ city ++ lit ":" ++ [10]
    ++ lit "- Condition: N/A (N/A)" ++ [10]
    ++ lit "- Temperature: N/A" ++ [176] ++ lit "C (Feels like: N/A" ++ [176] ++ lit "C)" ++ [10]
    ++ lit "- Humidity: N/A%" ++ [10]
    ++ lit "- Wind Speed: N/A m/s".
Proof.
  intros Hc Hk Ha Hf Hcod Hs Hw Hm Hwi Hn. unfold WeatherFetcherTool_execute.
  assert (py_truth rt (PStr city) = true) as -> by now destruct city.
  cbn [negb]. rewrite Hk. destruct api_key as [|k0 key]; [contradiction|].
  rewrite Hf. unfold weather_report, get_or, and_then.
  rewrite Hcod, Hs, Hw, Hm, Hwi, Hn. cbn [dict_get py_str NA negb str_eqb].
  rewrite str_eqb_refl. cbn [negb]. rewrite <- ?app_assoc. reflexivity.
Qed.

(** X22. When the answer has the code 200 and its [weather] entry is an empty
    list, null or an object, taking its first item fails and the tool answers
    with the unexpected-error message for the city instead of a report. *)
Theorem weather_without_entries (city : str) (api_key : str) (d : pydict pyfloat)
        (cod w : value) :
  city <> [] -> WEATHER_API_KEY net = Some api_key -> api_key <> [] ->
  fetch net (PStr city) api_key = inr (PDict d) ->
  dict_get (lit "cod") d = Some cod -> py_str rt cod = lit "200" ->
  dict_get (lit "weather") d = Some w ->
  w = PList [] \/ w = PNone \/ (exists e, w = PDict e) ->
  WeatherFetcherTool_execute rt net (PStr city)
  = lit "An unexpected error occurred while fetching weather for " ++ city ++ lit ": "
    ++ match w with
       | PList _ => lit "list index out of range"
       | PDict _ => lit "0"
       | _ => lit "'NoneType' object is not subscriptable"
       end.
Proof.
  intros Hc Hk Ha Hf Hcod Hs Hw Hcase. unfold WeatherFetcherTool_execute.
  assert (py_truth rt (PStr city) = true) as -> by now destruct city.
  cbn [negb]. rewrite Hk. destruct api_key as [|k0 key]; [contradiction|].
  rewrite Hf. unfold weather_report, get_or, and_then.
  rewrite Hcod, Hs, Hw. destruct Hcase as [-> | [-> | [e ->]]]; reflexivity.
Qed.

End WeatherProperties.

(** *** The chat handler *)

Section ChatProperties.
Context {pyfloat : Type} (rt : Runtime pyfloat) (desk : Desk).
Abbreviation value := (pyval pyfloat).

Lemma process_request_ends (self : AIAgent pyfloat) (user_input : str) :
  (exists trace v, process_request rt self user_input = (trace, Returns v))
  \/ (exists trace x, process_request rt self user_input = (trace, Exits x)).
Proof.
  unfold process_request.
  destruct (determine_tool_shape rt self user_input) as (d & -> & _).
  unfold bind, try_except.
  destruct (dispatch_cases rt self d)
    as [(s & ->)|[->|[(tool & args & s & ->)|[(tool & args & v & E & ->)
                                              |(tool & args & x & E & ->)]]]];
    try (left; eexists _, _; reflexivity).
  right. eexists _, _. reflexivity.
Qed.

Lemma substring_In (c : char) (m s : str) : substring m s -> In c m -> In c s.
Proof.
  intros (pre & post & ->) H. apply in_or_app. right. apply in_or_app. now left.
Qed.

Lemma safe_name_chars (original_filename : str) (c : char) :
  In c (safe_filename desk original_filename) -> name_char_ok desk c = true.
Proof.
  unfold safe_filename.
  destruct (strip (filter (name_char_ok desk) original_filename)) as [|x r] eqn:E.
  - intro H. cbn in H.
    repeat (destruct H as [<-|H]; [reflexivity|]). contradiction.
  - rewrite <- E. intro H.
    apply (substring_In c _ _ (strip_substring _)) in H.
    now apply filter_In in H.
Qed.

Lemma safe_name_not_empty (original_filename : str) : safe_filename desk original_filename <> [].
Proof.
  unfold safe_filename. now destruct (strip (filter (name_char_ok desk) original_filename)).
Qed.

(** X23. The name under which an upload is stored is not empty, consists of
    alphanumeric characters, dots, underscores and hyphens, holds no slash,
    and the destination is that name directly under [uploads/]. *)
Theorem stored_name_is_sanitised (temp_file_path : str) :
  let stored := safe_filename desk (basename temp_file_path) in
  stored <> []
  /\ (forall c, In c stored ->
                isalnum desk c = true \/ c = 46 \/ c = 95 \/ c = 45)
  /\ ~ In 47 stored
  /\ destination_path desk temp_file_path = lit "uploads/" ++ stored.
Proof.
  cbv zeta. set (safe := safe_filename desk (basename temp_file_path)).
  assert (forall c, In c safe -> isalnum desk c = true \/ c = 46 \/ c = 95 \/ c = 45) as Hc.
  { intros c H. apply safe_name_chars in H. unfold name_char_ok in H.
    apply orb_true_iff in H as [H|H]; [now left|]. right. cbn [existsb] in H.
    repeat (apply orb_true_iff in H as [H|H]; [apply N.eqb_eq in H; tauto|]).
    discriminate. }
  assert (~ In 47 safe) as Hs.
  { intro H. apply Hc in H as [H|[H|[H|H]]]; try discriminate;
      unfold isalnum in H; cbn in H; discriminate. }
  split; [apply safe_name_not_empty|]. split; [exact Hc|]. split; [exact Hs|].
  unfold destination_path. fold safe. unfold path_join.
  pose proof (safe_name_not_empty (basename temp_file_path)) as Hn. fold safe in Hn.
  destruct safe as [|x r]; [contradiction|].
  assert ((47 =? x) = false) as E by (apply N.eqb_neq; intros <-; apply Hs; now left).
  cbn -[N.eqb]. now rewrite E.
Qed.

Lemma startswith_prefix (p s : str) : startswith p s = true -> exists post, s = p ++ post.
Proof.
  revert s. induction p as [|x p IH]; intros s H; [now exists s|].
  destruct s as [|y s]; [discriminate|]. cbn [startswith] in H.
  apply andb_true_iff in H as [H1 H2]. apply N.eqb_eq in H1. subst y.
  destruct (IH s H2) as [post ->]. now exists post.
Qed.

Lemma str_contains_true (sub s : str) : str_contains sub s = true -> substring sub s.
Proof.
  induction s as [|c r IH]; cbn [str_contains]; intro H.
  - rewrite orb_false_r in H. apply startswith_prefix in H as [post E].
    now exists [], post.
  - apply orb_true_iff in H as [H|H].
    + apply startswith_prefix in H as [post E]. now exists [], post.
    + destruct (IH H) as (pre & post & ->). now exists (c :: pre), post.
Qed.

(** X24. When the stored name of an upload holds two dots in a row, the path
    that the chat handler announces for it is refused by the path checks of
    the file reader. *)
Theorem upload_with_two_dots_is_refused (temp_file_path : str) :
  str_contains (lit "..") (safe_filename desk (basename temp_file_path)) = true ->
  exists m,
    FileReaderTool_execute rt (PStr (destination_path desk temp_file_path)) = Returns (PStr m)
    /\ (m = lit "Error: Access denied. Path is outside allowed directory."
        \/ m = lit "Error: Path should not contain '..'.").
Proof.
  intro H.
  assert (destination_path desk temp_file_path
          = lit "uploads/" ++ safe_filename desk (basename temp_file_path)) as E.
  { unfold destination_path, path_join.
    pose proof (safe_name_not_empty (basename temp_file_path)) as Hn.
    destruct (safe_filename desk (basename temp_file_path)) as [|x r] eqn:Es; [contradiction|].
    assert ((47 =? x) = false) as Ex.
    { apply N.eqb_neq. intros <-.
      assert (name_char_ok desk 47 = true) as Hk
          by (apply (safe_name_chars (basename temp_file_path)); rewrite Es; now left).
      unfold name_char_ok, isalnum in Hk. cbn in Hk. discriminate. }
    cbn -[N.eqb]. now rewrite Ex. }
  assert (str_contains (lit "..") (destination_path desk temp_file_path) = true) as Hc.
  { apply str_contains_substring. apply str_contains_true in H as (pre & post & Ep).
    exists (lit "uploads/" ++ pre), post. rewrite E, Ep. now rewrite <- app_assoc. }
  unfold FileReaderTool_execute.
  assert (py_truth rt (PStr (destination_path desk temp_file_path)) = true) as ->.
  { rewrite E. reflexivity. }
  cbn [negb]. rewrite Hc.
  destruct (startswith _ _); cbn [negb]; eexists; split; try reflexivity; tauto.
Qed.

(** X25. No exception below [Exception] leaves the chat handler: it returns
    a text, or it is left by an exception that is not below [Exception].
    When an agent is there and the input staged for it is not empty, the
    events are those of the request for that input; the handler returns
    [str] of the result of the request, or is left by the exception that left
    the request, so that the handler for an internal error is never reached.
    In every other case the handler returns a text without any event. *)
Theorem chat_answer_is_text (agent : option (AIAgent pyfloat))
        (message uploaded_file_obj : option str) :
  ((exists text,
      snd (agent_chat_interface rt desk agent message uploaded_file_obj) = Returns text)
   \/ (exists x,
      snd (agent_chat_interface rt desk agent message uploaded_file_obj) = Exits x))
  /\ (forall a c r,
        agent = Some a ->
        stage_input desk message uploaded_file_obj = Returns (c :: r) ->
        fst (agent_chat_interface rt desk agent message uploaded_file_obj)
        = fst (process_request rt a (c :: r))
        /\ ((exists response,
               snd (process_request rt a (c :: r)) = Returns response
               /\ snd (agent_chat_interface rt desk agent message uploaded_file_obj)
                  = Returns (py_str rt response))
            \/ (exists x,
               snd (process_request rt a (c :: r)) = Exits x
               /\ snd (agent_chat_interface rt desk agent message uploaded_file_obj)
                  = Exits x)))
  /\ (agent = None
      \/ (forall c r, stage_input desk message uploaded_file_obj <> Returns (c :: r)) ->
      exists text,
        agent_chat_interface rt desk agent message uploaded_file_obj = ([], Returns text)).
Proof.
  unfold agent_chat_interface. destruct agent as [a|].
  2:{ split; [left; eexists; reflexivity|]. split; [discriminate|].
      intros _. eexists. reflexivity. }
  destruct (stage_input desk message uploaded_file_obj) as [[|c r]|e].
  - split; [left; eexists; reflexivity|]. split; [discriminate|].
    intros _. eexists. reflexivity.
  - destruct (process_request_ends a (c :: r)) as [(trace & v & Ep)|(trace & x & Ep)];
      rewrite Ep; unfold try_except, bind, ret; cbn [fst snd].
    + split; [left; eexists; reflexivity|]. split.
      * intros a' c' r' [= <-] [= <- <-]. rewrite Ep, app_nil_r. split; [reflexivity|].
        left. exists v. now split.
      * intros [H|H]; [discriminate|]. now destruct (H c r).
    + split; [right; eexists; reflexivity|]. split.
      * intros a' c' r' [= <-] [= <- <-]. rewrite Ep. split; [reflexivity|].
        right. exists x. now split.
      * intros [H|H]; [discriminate|]. now destruct (H c r).
  - split; [left; eexists; reflexivity|]. split; [discriminate|].
    intros _. eexists. reflexivity.
Qed.

End ChatProperties.

(** *** Starting the agent *)

Section StartupProperties.
Context {pyfloat : Type} (rt : Runtime pyfloat) (host : Host).

(** X26. [initialize_agent] returns an agent only when [TOGETHER_API_KEY] is
    set to a non-empty value after loading the environment; the agent is then
    the one with the three tools and nothing is printed.  Whenever it returns
    [None] it has printed exactly one line, which starts with [Error: ]. *)
Theorem agent_starts_only_with_a_key (env : environ) :
  match started_agent (initialize_agent rt host env) with
  | Some agent =>
      agent = AIAgent_init rt
      /\ printed (initialize_agent rt host env) = []
      /\ (exists k0 key, dict_get (lit "TOGETHER_API_KEY") (load_dotenv host env)
                         = Some (k0 :: key))
      /\ exists k0 key, dict_get (lit "TOGETHER_API_KEY")
                          (left_env (initialize_agent rt host env)) = Some (k0 :: key)
  | None =>
      exists m, printed (initialize_agent rt host env) = [lit "Error: " ++ m]
  end.
Proof.
  unfold initialize_agent, AIAgent___init__.
  destruct (key_missing (load_dotenv host env)) eqn:E1; cbn [started_agent printed left_env].
  { eexists. reflexivity. }
  destruct (key_missing (load_dotenv host (load_dotenv host env))) eqn:E2;
    cbn [started_agent printed left_env].
  { eexists. reflexivity. }
  destruct (Together host _); cbn [started_agent printed left_env].
  2:{ eexists. reflexivity. }
  unfold key_missing in E1, E2. repeat split.
  - destruct (dict_get _ (load_dotenv host env)) as [[|k0 key]|]; try discriminate.
    now exists k0, key.
  - destruct (dict_get _ (load_dotenv host (load_dotenv host env))) as [[|k0 key]|];
      try discriminate.
    now exists k0, key.
Qed.

End StartupProperties.

(** *** The command line *)

Section CliProperties.
Context {pyfloat : Type} (rt : Runtime pyfloat).







Lemma cli_loop_stops (agent : AIAgent pyfloat) (before : list console)
      (line : str) (after after' : list console) :
  is_quit_command (strip line) = true ->
  cli_loop rt agent (before ++ Typed line :: after)
  = cli_loop rt agent (before ++ Typed line :: after').
Proof.
  intro H. induction before as [|i rest IH]; cbn [app cli_loop].
  - now rewrite H.
  - destruct i as [l|]; [|reflexivity].
    destruct (is_quit_command (strip l)); [reflexivity|].
    destruct (strip l); [exact IH|]. now rewrite IH.
Qed.




(** X28. After a line that is [exit] or [quit], in any case of letters and
    with white space around it, [run_cli] reads nothing more: what it does is
    the same whatever input follows. *)
Theorem cli_stops_at_quit (host : Host) (env : environ) (before : list console)
        (line : str) (after after' : list console) :
  is_quit_command (strip line) = true ->
  run_cli rt host env (before ++ Typed line :: after)
  = run_cli rt host env (before ++ Typed line :: after').
Proof.
  intro H. unfold run_cli.
  destruct (started_agent (initialize_agent rt host env)) as [agent|]; [|reflexivity].
  now rewrite (cli_loop_stops agent before line after after' H).
Qed.

End CliProperties.

(** *** Replies in wrappers *)

Section CleaningProperties.
Context {pyfloat : Type} (rt : Runtime pyfloat).
Abbreviation value := (pyval pyfloat).

Lemma lstrip_white (ws x : str) : forallb py_isspace ws = true -> lstrip (ws ++ x) = lstrip x.
Proof.
  induction ws as [|c ws IH]; [reflexivity|]. cbn [forallb app lstrip]. intro H.
  apply andb_true_iff in H as [Hc Hw]. rewrite Hc. now apply IH.
Qed.

Lemma rstrip_white (ws x : str) : forallb py_isspace ws = true -> rstrip (x ++ ws) = rstrip x.
Proof.
  induction ws as [|c ws IH] using rev_ind; [now rewrite app_nil_r|]. intro H.
  rewrite forallb_app in H. apply andb_true_iff in H as [Hw Hc]. cbn [forallb] in Hc.
  rewrite andb_true_r in Hc. rewrite app_assoc, rstrip_snoc, Hc. now apply IH.
Qed.

Lemma rstrip_tight_end (s : str) (b : char) : py_isspace b = false -> rstrip (s ++ [b]) = s ++ [b].
Proof. intro H. now rewrite rstrip_snoc, H. Qed.

Lemma strip_tight (x l r : str) :
  tight x -> forallb py_isspace l = true -> forallb py_isspace r = true ->
  strip (l ++ x ++ r) = x.
Proof.
  intros (a & w & s & b & Ha & Hb & Hsa & Hsb) Hl Hr. unfold strip.
  rewrite (lstrip_white l _ Hl). rewrite Ha at 1. cbn [app].
  rewrite (lstrip_nonspace a _ Hsa).
  change (a :: w ++ r) with ((a :: w) ++ r). rewrite <- Ha, (rstrip_white r _ Hr).
  rewrite Hb at 1. rewrite (rstrip_tight_end s b Hsb). now symmetry.
Qed.

Lemma tight_join (x m y : str) : tight x -> tight y -> tight (x ++ m ++ y).
Proof.
  intros (a & w & _ & _ & Ha & _ & Hsa & _) (_ & _ & s & b & _ & Hb & _ & Hsb).
  exists a, (w ++ m ++ y), (x ++ m ++ s), b. repeat split; try assumption.
  - now rewrite Ha.
  - rewrite Hb. now rewrite <- !app_assoc.
Qed.

Lemma tight_fence : tight fence.
Proof. exists 96, [96; 96], [96; 96], 96. now repeat split. Qed.

Lemma tight_fence_json : tight fence_json.
Proof. exists 96, (lit "``json"), (lit "```jso"), 110. now repeat split. Qed.

Lemma lstrip_parts (t : str) :
  exists l, t = l ++ lstrip t /\ forallb py_isspace l = true.
Proof.
  induction t as [|c t (l & E & Hl)]; [now exists []|]. cbn [lstrip].
  destruct (py_isspace c) eqn:Ec.
  - exists (c :: l). cbn [app forallb]. rewrite Ec, Hl. split; [now rewrite E at 1|reflexivity].
  - now exists [].
Qed.

Lemma rstrip_parts (t : str) :
  exists r, t = rstrip t ++ r /\ forallb py_isspace r = true.
Proof.
  induction t as [|c t IH] using rev_ind; [now exists []|].
  rewrite rstrip_snoc. destruct (py_isspace c) eqn:Ec.
  - destruct IH as (r & E & Hr). exists (r ++ [c]). split.
    + rewrite E at 1. now rewrite <- app_assoc.
    + rewrite forallb_app, Hr. cbn [forallb]. now rewrite Ec.
  - exists []. now rewrite app_nil_r.
Qed.

Lemma strip_parts (t : str) :
  exists l r, t = l ++ strip t ++ r
              /\ forallb py_isspace l = true /\ forallb py_isspace r = true.
Proof.
  destruct (lstrip_parts t) as (l & El & Hl).
  destruct (rstrip_parts (lstrip t)) as (r & Er & Hr).
  exists l, r. unfold strip. split; [|now split]. rewrite <- Er. exact El.
Qed.

(** The stripped text of a JSON text is tight, and starts neither with a
    backtick nor with the letter [j]. *)
Lemma json_text_tight (t : str) (v : value) :
  json_loads rt t = Some v ->
  tight (strip t)
  /\ exists c0 w s c1,
       strip t = c0 :: w /\ strip t = s ++ [c1] /\ c0 <> 96 /\ c0 <> 106 /\ c1 <> 96.
Proof.
  intro H. destruct (json_text_ends rt t v H) as (Hs & c0 & w & s & c1 & H0 & H1 & Hc0 & Hc1).
  assert (py_isspace c0 = false) as Hs0.
  { destruct (rstrip_prefix (lstrip t)) as (post & Hpost). fold (strip t) in Hpost.
    rewrite H0 in Hpost. eapply lstrip_head. exact Hpost. }
  assert (py_isspace c1 = false) as Hs1.
  { eapply rstrip_last. unfold strip in H1. exact H1. }
  split; [now exists c0, w, s, c1|].
  exists c0, w, s, c1. repeat split; try assumption.
  intros ->. unfold json_loads in Hs. rewrite H0 in Hs. cbn in Hs. discriminate.
Qed.

Lemma endswith_fence (x : str) : endswith fence (x ++ fence) = true.
Proof. unfold endswith. rewrite rev_app_distr. reflexivity. Qed.

Lemma endswith_fence_last (s : str) (c1 : char) : c1 <> 96 -> endswith fence (s ++ [c1]) = false.
Proof.
  intro H. unfold endswith. rewrite rev_unit.
  change (rev fence) with (96 :: lit "``"). apply startswith_head_neq. congruence.
Qed.

(** The end of the cleaning, lines 136-137. *)
Lemma clean_tail (u g closing : str) (s : str) (c1 : char) :
  tight u -> u = s ++ [c1] -> c1 <> 96 -> forallb py_isspace g = true ->
  In closing [[]; fence] ->
  let c := u ++ (if match closing with [] => true | _ => false end then [] else g) ++ closing in
  (if endswith fence c then strip (firstn (List.length c - 3) c) else c) = u.
Proof.
  intros Hu Hl Hc1 Hg Hin. cbv zeta. destruct Hin as [<-|[<-|[]]].
  - cbn [app]. rewrite !app_nil_r. rewrite Hl at 1. now rewrite (endswith_fence_last s c1 Hc1).
  - change (match fence with [] => true | _ => false end) with false. cbv iota.
    rewrite !app_assoc, endswith_fence.
    change 3%nat with (List.length fence). rewrite firstn_app_exact.
    exact (strip_tight u [] g Hu eq_refl Hg).
Qed.

Lemma startswith_json_gap (g u rest : str) (c0 : char) (w : str) :
  forallb py_isspace g = true -> u = c0 :: w -> c0 <> 106 ->
  startswith fence_json (fence ++ g ++ u ++ rest) = false.
Proof.
  intros Hg Hu Hc0. change fence_json with (fence ++ lit "json").
  assert (forall a b : str, startswith (fence ++ a) (fence ++ b) = startswith a b) as Hf.
  { intros a b. unfold fence. cbn -[N.eqb]. now rewrite !N.eqb_refl. }
  rewrite Hf. change (lit "json") with (106 :: lit "son"). destruct g as [|x g].
  - rewrite Hu. cbn [app]. apply startswith_head_neq. congruence.
  - cbn [app forallb] in *. apply andb_true_iff in Hg as [Hx _].
    apply startswith_head_neq. intros <-. discriminate.
Qed.

(** X29. The cleaning of lines 128-137 undoes every wrapper it knows: a JSON
    decision object with white space before and after it, an opening fence
    with or without [json], a closing fence, or any combination of them, is
    interpreted to that object. *)
Theorem wrapped_reply_same_decision (t before gap1 gap2 after opening closing : str)
        (d : pydict pyfloat) :
  json_loads rt t = Some (PDict d) -> dict_mem (lit "tool") d = true ->
  forallb py_isspace before = true -> forallb py_isspace gap1 = true ->
  forallb py_isspace gap2 = true -> forallb py_isspace after = true ->
  In opening [[]; fence; fence_json] -> In closing [[]; fence] ->
  interpret rt (before ++ opening ++ gap1 ++ t ++ gap2 ++ closing ++ after) = PDict d.
Proof.
  intros Hj Hm Hb Hg1 Hg2 Ha Hop Hcl.
  destruct (json_text_tight t _ Hj) as (Hu & c0 & w & s & c1 & H0 & H1 & Hc0 & Hj0 & Hc1).
  destruct (json_text_ends rt t _ Hj) as (Hs & _).
  destruct (strip_parts t) as (l & r & Et & Hl & Hr).
  set (u := strip t) in *.
  set (g1 := gap1 ++ l). set (g2 := r ++ gap2).
  assert (forallb py_isspace g1 = true) as Hg1' by (unfold g1; now rewrite forallb_app, Hg1, Hl).
  assert (forallb py_isspace g2 = true) as Hg2' by (unfold g2; now rewrite forallb_app, Hr, Hg2).
  assert (before ++ opening ++ gap1 ++ t ++ gap2 ++ closing ++ after
          = before ++ (opening ++ g1 ++ u ++ g2 ++ closing) ++ after) as ->.
  { rewrite Et. unfold g1, g2. now rewrite <- !app_assoc. }
  set (tail := u ++ (if match closing with [] => true | _ => false end then [] else g2)
                 ++ closing).
  assert (tight tail /\ forall pre, forallb py_isspace pre = true ->
                                  strip (pre ++ u ++ g2 ++ closing) = tail) as [Htt Hst].
  { unfold tail. destruct Hcl as [<-|[<-|[]]].
    - cbn [app]. rewrite !app_nil_r. split; [exact Hu|]. intros pre Hpre.
      now apply strip_tight.
    - change (match fence with [] => true | _ => false end) with false. cbv iota.
      split; [apply tight_join; [exact Hu|exact tight_fence]|].
      intros pre Hpre.
      rewrite <- (app_nil_r (pre ++ u ++ g2 ++ fence)), <- app_assoc.
      apply strip_tight; [|exact Hpre|reflexivity].
      apply tight_join; [exact Hu|exact tight_fence]. }
  assert (clean_response (before ++ (opening ++ g1 ++ u ++ g2 ++ closing) ++ after) = u) as Ec.
  { unfold clean_response. cbv zeta. destruct Hop as [<-|[<-|[<-|[]]]].
    - cbn [app].
      assert (strip (before ++ (g1 ++ u ++ g2 ++ closing) ++ after) = tail) as ->.
      { transitivity (strip ((before ++ g1) ++ (u ++ g2 ++ closing) ++ after)).
        { now rewrite <- !app_assoc. }
        destruct Hcl as [<-|[<-|[]]].
        - unfold tail. cbn [app]. rewrite !app_nil_r.
          transitivity (strip ((before ++ g1) ++ u ++ (g2 ++ after))).
          { now rewrite <- !app_assoc. }
          apply strip_tight; [exact Hu| |]; now rewrite forallb_app, ?Hb, ?Hg1', ?Hg2', ?Ha.
        - unfold tail. change (match fence with [] => true | _ => false end) with false.
          cbv iota. apply strip_tight; [|now rewrite forallb_app, Hb, Hg1'|exact Ha].
          exact Htt. }
      assert (startswith fence_json tail = false) as ->.
      { unfold tail. rewrite H0, fence_json_head. apply startswith_head_neq. congruence. }
      assert (startswith fence tail = false) as ->.
      { unfold tail. rewrite H0, fence_head. apply startswith_head_neq. congruence. }
      apply (clean_tail u g2 closing s c1 Hu H1 Hc1 Hg2' Hcl).
    - assert (strip (before ++ (fence ++ g1 ++ u ++ g2 ++ closing) ++ after)
              = fence ++ g1 ++ tail) as ->.
      { assert (fence ++ g1 ++ u ++ g2 ++ closing = fence ++ g1 ++ tail \/ closing = []) as Hc.
        { destruct Hcl as [<-|[<-|[]]]; [now right|left]. unfold tail.
          change (match fence with [] => true | _ => false end) with false. reflexivity. }
        destruct Hcl as [<-|[<-|[]]].
        - unfold tail. cbn [app]. rewrite !app_nil_r.
          transitivity (strip (before ++ (fence ++ g1 ++ u) ++ (g2 ++ after))).
          { now rewrite <- !app_assoc. }
          apply strip_tight; [apply tight_join; [exact tight_fence|exact Hu]|exact Hb|].
          now rewrite forallb_app, Hg2', Ha.
        - unfold tail. change (match fence with [] => true | _ => false end) with false.
          cbv iota. apply strip_tight; [|exact Hb|exact Ha].
          apply tight_join; [exact tight_fence|].
          apply tight_join; [exact Hu|exact tight_fence]. }
      assert (startswith fence_json (fence ++ g1 ++ tail) = false) as ->.
      { unfold tail. apply (startswith_json_gap g1 u _ c0 w Hg1' H0 Hj0). }
      assert (startswith fence (fence ++ g1 ++ tail) = true) as -> by reflexivity.
      assert (skipn 3 (fence ++ g1 ++ tail) = g1 ++ tail) as -> by reflexivity.
      assert (strip (g1 ++ tail) = tail) as ->.
      { rewrite <- (app_nil_r (g1 ++ tail)), <- app_assoc. now apply strip_tight. }
      apply (clean_tail u g2 closing s c1 Hu H1 Hc1 Hg2' Hcl).
    - assert (strip (before ++ (fence_json ++ g1 ++ u ++ g2 ++ closing) ++ after)
              = fence_json ++ g1 ++ tail) as ->.
      { destruct Hcl as [<-|[<-|[]]].
        - unfold tail. cbn [app]. rewrite !app_nil_r.
          transitivity (strip (before ++ (fence_json ++ g1 ++ u) ++ (g2 ++ after))).
          { now rewrite <- !app_assoc. }
          apply strip_tight; [apply tight_join; [exact tight_fence_json|exact Hu]|exact Hb|].
          now rewrite forallb_app, Hg2', Ha.
        - unfold tail. change (match fence with [] => true | _ => false end) with false.
          cbv iota. apply strip_tight; [|exact Hb|exact Ha].
          apply tight_join; [exact tight_fence_json|].
          apply tight_join; [exact Hu|exact tight_fence]. }
      assert (startswith fence_json (fence_json ++ g1 ++ tail) = true) as -> by reflexivity.
      assert (skipn 7 (fence_json ++ g1 ++ tail) = g1 ++ tail) as -> by reflexivity.
      assert (strip (g1 ++ tail) = tail) as ->.
      { rewrite <- (app_nil_r (g1 ++ tail)), <- app_assoc. now apply strip_tight. }
      apply (clean_tail u g2 closing s c1 Hu H1 Hc1 Hg2' Hcl). }
  unfold interpret. rewrite Ec. fold u in Hs. rewrite Hs. unfold validate. now rewrite Hm.
Qed.

End CleaningProperties.


(** ** The examples of the specification, in the runtime for the examples *)

Import Examples.

(** C1, counterexample. For the reply that selects the calculator with
    ["2+2"], [execute] succeeds with the float 4.0 and [process_request]
    returns that float: the result is not a string, and in particular not the
    text ["4.0"]. *)
Lemma calculator_result_not_text :
  CalculatorTool_execute (Demo.replying calculator_reply) (PStr (lit "2+2"))
  = Returns (PFloat 4%Z)
  /\ snd (request calculator_reply) = Returns (PFloat 4%Z)
  /\ py_str (Demo.replying calculator_reply) (PFloat 4%Z) = lit "4.0"
  /\ snd (request calculator_reply) <> Returns (PStr (lit "4.0"))
  /\ forall s, snd (request calculator_reply) <> Returns (PStr s).
Proof.
  assert (snd (request calculator_reply) = Returns (PFloat 4%Z)) as E
      by (vm_compute; reflexivity).
  split; [vm_compute; reflexivity|]. split; [exact E|].
  split; [vm_compute; reflexivity|]. rewrite E. split; [discriminate|].
  intros s. discriminate.
Qed.


Lemma tool_result_returned_raw_witness :
  request calculator_reply
  = ([completion calculator_reply;
      EvExecute (name (CalculatorTool (Demo.replying calculator_reply))) [PStr (lit "2+2")]],
     Returns (PFloat 4%Z)).
Proof.
  apply (tool_result_returned_raw (Demo.replying calculator_reply) (agent calculator_reply)
           (lit "hello")
           [(lit "tool", PStr (lit "calculator"));
            (lit "parameters", PDict [(lit "expression", PStr (lit "2+2"))])]
           (lit "calculator")).
  - vm_compute; reflexivity.
  - reflexivity.
  - discriminate.
  - intros [H|[H|[H|[]]]]; discriminate H.
  - discriminate.
  - reflexivity.
  - reflexivity.
  - vm_compute; reflexivity.
Defined.

Lemma unknown_tool_message_witness :
  request translator_reply
  = ([completion translator_reply],
     Returns (PStr (lit "Sorry, I don't know how to use the tool '" ++ lit "translator"
                    ++ lit "' or it's not available."))).
Proof.
  apply (unknown_tool_message (Demo.replying translator_reply) (agent translator_reply)
           (lit "hello")
           [(lit "tool", PStr (lit "translator")); (lit "parameters", PDict [])]).
  - vm_compute; reflexivity.
  - reflexivity.
  - discriminate.
  - intros [H|[H|[H|[]]]]; discriminate H.
  - discriminate.
  - reflexivity.
Defined.

(** The example of the specification for C7: the message names
    [expression] and [expr]. *)
Lemma incorrect_parameters_message_witness :
  request wrong_key_reply
  = ([completion wrong_key_reply],
     Returns (PStr (lit "Error using tool calculator: incorrect parameters. Expected: ['expression']. Got: ['expr']. Details: execute() got an unexpected keyword argument 'expr'"))).
Proof.
  apply (incorrect_parameters_message (Demo.replying wrong_key_reply) (lit "hello")
           [(lit "tool", PStr (lit "calculator"));
            (lit "parameters", PDict [(lit "expr", PStr (lit "2+2"))])]
           (lit "calculator") (CalculatorTool (Demo.replying wrong_key_reply))).
  - vm_compute; reflexivity.
  - reflexivity.
  - reflexivity.
  - left. exists (lit "expr"). split; [now left|].
    intros [H|[]]; discriminate H.
Defined.

(** C5 on prose that holds a digit. *)
Lemma unparseable_reply_witness :
  exists details,
    details = match brace_span Cases.ideas_reply with
              | Some _ => lit "Could not parse JSON from LLM after cleaning and fallback."
              | None => lit "Could not parse JSON from LLM, and fallback regex found nothing."
              end
    /\ snd (_determine_tool (Demo.replying Cases.ideas_reply) (agent Cases.ideas_reply)
              (lit "hello"))
       = Returns (PDict [(lit "tool", PStr (lit "error_parsing_llm_response"));
                         (lit "parameters",
                          PDict [(lit "details", PStr details);
                                 (lit "raw_content", PStr Cases.ideas_reply)])])
    /\ request Cases.ideas_reply
       = ([completion Cases.ideas_reply],
          Returns (PStr (lit "Sorry, I had trouble deciding which tool to use. Details: "
                         ++ details))).
Proof.
  apply (unparseable_reply (Demo.replying Cases.ideas_reply) (agent Cases.ideas_reply)
           (lit "hello") Cases.ideas_reply).
  - reflexivity.
  - vm_compute; reflexivity.
  - apply no_brace_no_object. vm_compute.
    intro H. repeat (destruct H as [H|H]; [discriminate H|]). exact H.
Defined.

(** C5, counterexample. The reply [42] holds no JSON object, yet it is a JSON
    text: the first extraction stage succeeds, and the decision is the
    sentinel for a reply of the wrong structure, which carries the parsed
    number and not the reply; it is not the ["error_parsing_llm_response"]
    sentinel. *)
Lemma bare_number_is_no_parse_error :
  ~ In 123 Cases.number_reply
  /\ json_loads (Demo.replying Cases.number_reply) (clean_response Cases.number_reply)
     = Some (PInt 42)
  /\ snd (_determine_tool (Demo.replying Cases.number_reply) (agent Cases.number_reply)
            (lit "hello"))
     = Returns (PDict [(lit "tool", PStr (lit "error_invalid_llm_response_structure"));
                       (lit "parameters",
                        PDict [(lit "details",
                                PStr (lit "LLM response not a dict or missing 'tool' key."));
                               (lit "parsed_content", PInt 42)])])
  /\ forall details raw_content,
       snd (_determine_tool (Demo.replying Cases.number_reply) (agent Cases.number_reply)
              (lit "hello"))
       <> Returns (PDict [(lit "tool", PStr (lit "error_parsing_llm_response"));
                          (lit "parameters",
                           PDict [(lit "details", details);
                                  (lit "raw_content", raw_content)])]).
Proof.
  assert (snd (_determine_tool (Demo.replying Cases.number_reply) (agent Cases.number_reply)
                 (lit "hello"))
          = Returns (PDict [(lit "tool", PStr (lit "error_invalid_llm_response_structure"));
                            (lit "parameters",
                             PDict [(lit "details",
                                     PStr (lit "LLM response not a dict or missing 'tool' key."));
                                    (lit "parsed_content", PInt 42)])])) as E
      by (vm_compute; reflexivity).
  split.
  { vm_compute. intro H. repeat (destruct H as [H|H]; [discriminate H|]). exact H. }
  split; [vm_compute; reflexivity|]. split; [exact E|].
  intros details raw_content. rewrite E. discriminate.
Qed.

(** The message of the example of C5, and the one for prose with braces. *)
Lemma prose_reply_answer :
  snd (request prose_reply)
  = Returns (PStr (lit "Sorry, I had trouble deciding which tool to use. Details: Could not parse JSON from LLM, and fallback regex found nothing."))
  /\ snd (request (lit "Use {curly} braces, or [1, 2]."))
     = Returns (PStr (lit "Sorry, I had trouble deciding which tool to use. Details: Could not parse JSON from LLM after cleaning and fallback.")).
Proof. split; vm_compute; reflexivity. Qed.

(** C4, counterexample. For the reply [{"tool": 42}] the decision has the
    integer 42 as its tool, which is not a string. *)
Lemma tool_field_not_a_string :
  snd (_determine_tool (Demo.replying number_tool_reply) (agent number_tool_reply)
         (lit "hello"))
  = Returns (PDict [(lit "tool", PInt 42)])
  /\ selected_tool [(lit "tool", PInt (pyfloat := Demo.pyfloat) 42)] = PInt 42
  /\ forall s, PInt (pyfloat := Demo.pyfloat) 42 <> PStr s.
Proof.
  split; [vm_compute; reflexivity|]. split; [reflexivity|]. intros s. discriminate.
Qed.



(** Three paths that leave the base directory [/srv/agent], each by one of
    the three ways, and the check that answers each. *)
Example file_reader_examples :
  FileReaderTool_execute (Demo.replying []) (PStr (lit "../../etc/passwd"))
  = Returns (PStr msg_denied)
  /\ FileReaderTool_execute (Demo.replying []) (PStr (lit "../agent-secrets/key.txt"))
     = Returns (PStr msg_dotdot)
  /\ FileReaderTool_execute (Demo.replying []) (PStr (lit "/srv/agent-secrets/key.txt"))
     = Returns (PStr msg_absolute).
Proof. repeat split; vm_compute; reflexivity. Qed.

(** The floats of the runtime for the examples keep the contract. *)
Lemma int_part_dot (s r : str) :
  forallb (fun c => is_digit c || (c =? 45)) s = true ->
  Demo.int_part (s ++ 46 :: r) = s.
Proof.
  induction s as [|c s IH]; cbn [forallb app Demo.int_part]; intro H; [reflexivity|].
  apply andb_true_iff in H as [Hc Hs]. now rewrite Hc, (IH Hs).
Qed.

Lemma demo_float_contract (answer : outcome (pyval Demo.pyfloat)) :
  float_contract (Demo.runtime answer).
Proof.
  intro z.
  change (floatstr (Demo.runtime answer) z) with (str_of_Z z ++ lit ".0").
  change (float_of_literal (Demo.runtime answer)) with Demo.literal_int.
  split.
  - unfold lex. rewrite lex_run_app.
    destruct (lex_int_state z []) as (ns & acc & -> & Hns & Hacc).
    destruct Hns as [-> | ->]; cbn [lit list_ascii_of_string map lex_run lex_step num_next];
      cbn; rewrite Hacc, <- app_assoc; reflexivity.
  - unfold Demo.literal_int.
    change (lit ".0") with (46 :: [48]).
    now rewrite (int_part_dot _ _ (str_of_Z_chars z)), Z_of_lexeme_str_of_Z.
Qed.

Import RoundTrip.

Lemma fenced_reply_same_decision_witness :
  interpret (Demo.replying []) (fenced no_tool_reply)
  = interpret (Demo.replying []) no_tool_reply
  /\ interpret (Demo.replying []) no_tool_reply
     = PDict [(lit "tool", PStr (lit "no_tool_needed")); (lit "parameters", PDict [])].
Proof.
  apply (fenced_reply_same_decision (Demo.replying []) no_tool_reply).
  - vm_compute; reflexivity.
  - reflexivity.
Defined.

(** The fenced example, as it is written in the reply. *)
Example fenced_example :
  fenced no_tool_reply
  = lit "```json" ++ [10] ++ dq "{'tool':'no_tool_needed','parameters':{}}" ++ [10] ++ lit "```"
  /\ snd (request (fenced no_tool_reply)) = Returns (PStr msg_no_tool).
Proof. split; vm_compute; reflexivity. Qed.

(** C9, counterexample. The reply holds a lone high surrogate followed by
    the escape of a low surrogate. The decision has a tool name of two
    code points; [json.dumps] writes them as two escapes, which are read
    back as one code point: the second decision is not the first. *)
Lemma round_trip_joins_surrogates :
  interpret (Demo.replying []) surrogate_reply = PDict [(lit "tool", PStr [55357; 56832])]
  /\ json_dumps (Demo.replying []) (interpret (Demo.replying []) surrogate_reply)
     = dq "{'tool': '\ud83d\ude00'}"
  /\ interpret (Demo.replying [])
       (json_dumps (Demo.replying []) (interpret (Demo.replying []) surrogate_reply))
     = PDict [(lit "tool", PStr [128512])]
  /\ interpret (Demo.replying [])
       (json_dumps (Demo.replying []) (interpret (Demo.replying []) surrogate_reply))
     <> interpret (Demo.replying []) surrogate_reply.
Proof.
  assert (interpret (Demo.replying []) surrogate_reply
          = PDict [(lit "tool", PStr [55357; 56832])]) as E1 by (vm_compute; reflexivity).
  assert (interpret (Demo.replying [])
            (json_dumps (Demo.replying []) (interpret (Demo.replying []) surrogate_reply))
          = PDict [(lit "tool", PStr [128512])]) as E2 by (vm_compute; reflexivity).
  split; [exact E1|]. split; [vm_compute; reflexivity|]. split; [exact E2|].
  rewrite E2, E1. discriminate.
Qed.

Lemma decision_round_trip_witness :
  interpret (Demo.replying [])
    (json_dumps (Demo.replying []) (interpret (Demo.replying []) calculator_reply))
  = interpret (Demo.replying []) calculator_reply.
Proof.
  apply (decision_round_trip (Demo.replying []) calculator_reply).
  - apply demo_float_contract.
  - reflexivity.
Defined.

(** The round trip on replies of the other kinds: prose, a float, a reply
    that is not a decision. *)
Example round_trip_examples :
  let rt := Demo.replying [] in
  forallb (fun raw =>
             match interpret rt (json_dumps rt (interpret rt raw)), interpret rt raw with
             | PDict a, PDict b => str_eqb (json_dumps rt (PDict a)) (json_dumps rt (PDict b))
             | _, _ => false
             end)
          [prose_reply; dq "{'tool': 'calculator', 'parameters': {'expression': 2.0}}";
           lit "[1, 2]"; dq "{'tool': 'a', 'tool': 'b', 'x': '\u00e9\n'}"]
  = true.
Proof. vm_compute; reflexivity. Qed.

(** ** Further examples *)

Import Cases.

Lemma client_failure_reported_witness :
  snd (_determine_tool (Demo.runtime (Raises api_error)) (AIAgent_init (Demo.runtime (Raises api_error)))
         (lit "hello"))
  = Returns (PDict [(lit "tool", PStr (lit "error_in_tool_determination"));
                    (lit "parameters", PDict [(lit "details", PStr (lit "rate limit exceeded"))])])
  /\ process_request (Demo.runtime (Raises api_error))
       (AIAgent_init (Demo.runtime (Raises api_error))) (lit "hello")
     = ([EvCompletion (request_messages (AIAgent_init (Demo.runtime (Raises api_error)))
                         (lit "hello"))],
        Returns (PStr (lit "Sorry, I had trouble deciding which tool to use. Details: "
                       ++ lit "rate limit exceeded"))).
Proof.
  apply (client_failure_reported (Demo.runtime (Raises api_error))
           (AIAgent_init (Demo.runtime (Raises api_error))) (lit "hello") api_error).
  reflexivity.
Defined.

Lemma reply_without_text_witness :
  process_request (Demo.runtime (Returns PNone)) (AIAgent_init (Demo.runtime (Returns PNone)))
    (lit "hello")
  = ([EvCompletion (request_messages (AIAgent_init (Demo.runtime (Returns PNone)))
                      (lit "hello"))],
     Returns (PStr (lit "Sorry, I had trouble deciding which tool to use. Details: '"
                    ++ lit "NoneType" ++ lit "' object has no attribute 'strip'"))).
Proof.
  apply (reply_without_text (Demo.runtime (Returns PNone))
           (AIAgent_init (Demo.runtime (Returns PNone))) (lit "hello") PNone).
  - reflexivity.
  - discriminate.
Defined.

Lemma not_a_decision_reported_witness :
  snd (_determine_tool (Demo.replying list_reply) (agent list_reply) (lit "hello"))
  = Returns (PDict [(lit "tool", PStr (lit "error_invalid_llm_response_structure"));
                    (lit "parameters",
                     PDict [(lit "details",
                             PStr (lit "LLM response not a dict or missing 'tool' key."));
                            (lit "parsed_content", PList [PInt 1; PInt 2])])])
  /\ request list_reply
     = ([completion list_reply],
        Returns (PStr (lit "Sorry, I had trouble deciding which tool to use. Details: LLM response not a dict or missing 'tool' key."))).
Proof.
  apply (not_a_decision_reported (Demo.replying list_reply) (agent list_reply) (lit "hello")
           list_reply (PList [PInt 1; PInt 2])).
  - reflexivity.
  - vm_compute; reflexivity.
  - discriminate.
Defined.

Lemma no_tool_needed_answer_witness :
  request empty_tool_reply
  = ([completion empty_tool_reply],
     Returns (PStr (lit "I've processed your request. No specific tool was needed, or I couldn't determine one. How else can I help?"))).
Proof.
  apply (no_tool_needed_answer (Demo.replying empty_tool_reply) (agent empty_tool_reply)
           (lit "hello") [(lit "tool", PStr [])] (PStr [])).
  - vm_compute; reflexivity.
  - reflexivity.
  - right. reflexivity.
Defined.

Lemma unhashable_tool_name_witness :
  request list_tool_reply
  = ([completion list_tool_reply],
     Returns (PStr (lit "An unexpected error occurred: unhashable type: '"
                    ++ lit "list" ++ lit "'"))).
Proof.
  apply (unhashable_tool_name (Demo.replying list_tool_reply) (agent list_tool_reply)
           (lit "hello") [(lit "tool", PList [PStr (lit "calculator")])]
           (PList [PStr (lit "calculator")])).
  - vm_compute; reflexivity.
  - reflexivity.
  - reflexivity.
  - reflexivity.
Defined.

Lemma tool_name_of_another_type_witness :
  request number_tool_reply
  = ([completion number_tool_reply],
     Returns (PStr (lit "Sorry, I don't know how to use the tool '" ++ lit "42"
                    ++ lit "' or it's not available."))).
Proof.
  apply (tool_name_of_another_type (Demo.replying number_tool_reply) (agent number_tool_reply)
           (lit "hello") [(lit "tool", PInt 42)] (PInt 42)).
  - vm_compute; reflexivity.
  - reflexivity.
  - discriminate.
  - reflexivity.
  - reflexivity.
Defined.

(** X7 on an expression that is a number, and on an expression on which
    [eval] is left by a keyboard interrupt. *)
Lemma tool_exception_reported_witness :
  request number_expression_reply
  = ([completion number_expression_reply; EvExecute (lit "calculator") [PInt 4]],
     Returns (PStr (lit "Sorry, an error occurred while using the calculator tool: 'int' object has no attribute 'strip'")))
  /\ process_request (throwing (lit "17") KeyboardInterrupt)
       (AIAgent_init (throwing (lit "17") KeyboardInterrupt)) (lit "hello")
     = ([EvCompletion (request_messages (AIAgent_init (throwing (lit "17") KeyboardInterrupt))
                         (lit "hello"));
         EvExecute (lit "calculator") [PStr (throw_text (lit "17"))]],
        Exits KeyboardInterrupt).
Proof.
  split.
  - apply (proj1 (tool_exception_reported (Demo.replying number_expression_reply)
                    (agent number_expression_reply) (lit "hello")
                    [(lit "tool", PStr (lit "calculator"));
                     (lit "parameters", PDict [(lit "expression", PInt 4)])]
                    (lit "calculator") (CalculatorTool (Demo.replying number_expression_reply))
                    [PInt 4]
                    ltac:(vm_compute; reflexivity) eq_refl ltac:(discriminate)
                    ltac:(intros [H|[H|[H|[]]]]; discriminate) ltac:(discriminate)
                    eq_refl eq_refl)
                 (no_attribute (PInt (pyfloat := Demo.pyfloat) 4) (lit "strip"))).
    reflexivity.
  - apply (proj2 (tool_exception_reported (throwing (lit "17") KeyboardInterrupt)
                    (AIAgent_init (throwing (lit "17") KeyboardInterrupt)) (lit "hello")
                    [(lit "tool", PStr (lit "calculator"));
                     (lit "parameters",
                      PDict [(lit "expression", PStr (throw_text (lit "17")))])]
                    (lit "calculator") (CalculatorTool (throwing (lit "17") KeyboardInterrupt))
                    [PStr (throw_text (lit "17"))]
                    ltac:(vm_compute; reflexivity) eq_refl ltac:(discriminate)
                    ltac:(intros [H|[H|[H|[]]]]; discriminate) ltac:(discriminate)
                    eq_refl ltac:(vm_compute; reflexivity))
                 KeyboardInterrupt).
    vm_compute; reflexivity.
Defined.

Lemma sentinel_decision_reported_witness :
  request sentinel_reply
  = ([completion sentinel_reply],
     Returns (PStr (lit "Sorry, I had trouble deciding which tool to use. Details: "
                    ++ lit "Unknown error during tool determination."))).
Proof.
  apply (sentinel_decision_reported (Demo.replying sentinel_reply) (agent sentinel_reply)
           (lit "hello") [(lit "tool", PStr (lit "error_in_tool_determination"))]
           (lit "error_in_tool_determination")).
  - vm_compute; reflexivity.
  - reflexivity.
  - right. now left.
Defined.

Lemma fallback_decision_without_parameters_witness :
  exists d,
    interpret (Demo.replying embedded_reply) embedded_reply = PDict d
    /\ ((exists name, dict_get (lit "tool") d = Some (PStr name) /\ In name error_sentinels)
        \/ selected_parameters d = []).
Proof.
  apply (fallback_decision_without_parameters (Demo.replying embedded_reply) embedded_reply).
  vm_compute; reflexivity.
Defined.

Lemma fallback_runs_no_builtin_tool_witness :
  exists answer,
    process_request (Demo.replying embedded_reply) (AIAgent_init (Demo.replying embedded_reply))
      (lit "hello")
    = ([EvCompletion (request_messages (AIAgent_init (Demo.replying embedded_reply))
                        (lit "hello"))],
       Returns (PStr answer)).
Proof.
  apply (fallback_runs_no_builtin_tool (Demo.replying embedded_reply) (lit "hello")
           embedded_reply).
  - reflexivity.
  - vm_compute; reflexivity.
Defined.

Example embedded_reply_answer :
  snd (request embedded_reply)
  = Returns (PStr (lit "Error using tool calculator: incorrect parameters. Expected: ['expression']. Got: []. Details: execute() missing 1 required positional argument: 'expression'")).
Proof. vm_compute; reflexivity. Qed.

(** The calculator on a sum, on a text that is no expression, and on the text
    on which [eval] is left by [SystemExit]. *)
Example calculator_examples :
  CalculatorTool_execute (throwing (lit "10") SystemExit) (PStr (lit "2+2")) = Returns (PFloat 4%Z)
  /\ CalculatorTool_execute (throwing (lit "10") SystemExit) (PStr (lit "2+"))
     = Returns (PStr (lit "Error: Invalid syntax in expression: '2+'."))
  /\ CalculatorTool_execute (throwing (lit "10") SystemExit) (PStr (throw_text (lit "10")))
     = Exits SystemExit.
Proof. repeat split; vm_compute; reflexivity. Qed.

Lemma eval_sees_only_checked_text_witness :
  CalculatorTool_execute (with_py_eval (Demo.replying []) Demo.eval_sum) (PStr (lit "2+2"))
  = CalculatorTool_execute (with_py_eval (Demo.replying []) guarded_eval) (PStr (lit "2+2")).
Proof.
  apply (eval_sees_only_checked_text (Demo.replying []) Demo.eval_sum guarded_eval (lit "2+2")).
  intros text H. unfold guarded_eval. rewrite H. reflexivity.
Defined.

Lemma calculator_expression_not_text_witness :
  process_request (Demo.replying null_expression_reply)
    (AIAgent_init (Demo.replying null_expression_reply)) (lit "hello")
  = ([EvCompletion (request_messages (AIAgent_init (Demo.replying null_expression_reply))
                      (lit "hello"));
      EvExecute (lit "calculator") [PNone]],
     Returns (PStr (lit "Sorry, an error occurred while using the calculator tool: '"
                    ++ lit "NoneType" ++ lit "' object has no attribute 'strip'"))).
Proof.
  apply (calculator_expression_not_text (Demo.replying null_expression_reply) (lit "hello")
           [(lit "tool", PStr (lit "calculator"));
            (lit "parameters", PDict [(lit "expression", PNone)])] PNone).
  - vm_compute; reflexivity.
  - reflexivity.
  - reflexivity.
  - discriminate.
Defined.

Lemma relative_path_read_below_base_witness :
  exists comps,
    Forall plain_component comps
    /\ abspath (Demo.replying []) (path_join (FILE_READ_BASE_PATH (Demo.replying []))
                                      (lit "notes/./a.txt"))
       = match comps with
         | [] => abspath (Demo.replying []) (FILE_READ_BASE_PATH (Demo.replying []))
         | _ => path_join (abspath (Demo.replying []) (FILE_READ_BASE_PATH (Demo.replying [])))
                  (join slash comps)
         end
    /\ FileReaderTool_execute (Demo.replying []) (PStr (lit "notes/./a.txt"))
       = Returns (PStr (read_file (Demo.replying []) (lit "notes/./a.txt")
                          (abspath (Demo.replying [])
                             (path_join (FILE_READ_BASE_PATH (Demo.replying []))
                                (lit "notes/./a.txt"))))).
Proof.
  apply (relative_path_read_below_base (Demo.replying []) (lit "notes/./a.txt")).
  - reflexivity.
  - discriminate.
  - reflexivity.
  - reflexivity.
Defined.

Example relative_path_example :
  abspath (Demo.replying []) (path_join (FILE_READ_BASE_PATH (Demo.replying []))
                                (lit "notes/./a.txt"))
  = lit "/srv/agent/notes/a.txt".
Proof. vm_compute; reflexivity. Qed.

Lemma clean_pdf_text_line_steps_idle_witness :
  _clean_pdf_text (lit "a" ++ [10; 10; 10] ++ lit "b " ++ [10])
  = strip (lit "a" ++ [10; 10; 10] ++ lit "b " ++ [10]).
Proof.
  apply (proj2 (clean_pdf_text_line_steps_idle (lit "a" ++ [10; 10; 10] ++ lit "b " ++ [10])));
    reflexivity.
Defined.

Example clean_pdf_text_examples :
  _clean_pdf_text (lit "a   b \nnn c \n d") = lit "a b " ++ [10] ++ lit " c " ++ [10] ++ lit " d"
  /\ _clean_pdf_text (lit " a" ++ [10; 10] ++ lit "b  ") = lit "a" ++ [10; 10] ++ lit "b".
Proof. split; vm_compute; reflexivity. Qed.

(** X19 on a text of 10001 characters. *)
Lemma delivered_text_is_bounded_witness :
  deliver (lit "a.txt") long_text
  = firstn (N.to_nat MAX_CHARS_RETURN) long_text
    ++ (if MAX_CHARS_RETURN <? N.of_nat (List.length long_text)
        then truncation_notice else [])
  /\ (N.of_nat (List.length long_text) <= MAX_CHARS_RETURN ->
      deliver (lit "a.txt") long_text = long_text)
  /\ (MAX_CHARS_RETURN < N.of_nat (List.length long_text) ->
      N.of_nat (List.length (deliver (lit "a.txt") long_text))
      = MAX_CHARS_RETURN + 49)
  /\ N.of_nat (List.length (deliver (lit "a.txt") long_text))
     <= MAX_CHARS_RETURN + 49.
Proof.
  apply (delivered_text_is_bounded (lit "a.txt") long_text).
  right. vm_compute. reflexivity.
Defined.

Example delivered_text_examples :
  deliver (lit "a.txt") long_text = removelast long_text ++ truncation_notice
  /\ deliver (lit "a.txt") (removelast long_text) = removelast long_text
  /\ deliver (lit "a.txt") (lit "hello") = lit "hello".
Proof. repeat split; vm_compute; reflexivity. Qed.

Lemma pdf_answer_from_cleaned_text_witness :
  read_file (pdf_runtime (lit "  Page  1 ")) (lit "a.PDF") (lit "/srv/agent/a.PDF")
  = lit "Page 1".
Proof.
  apply (pdf_answer_from_cleaned_text (pdf_runtime (lit "  Page  1 ")) (lit "a.PDF")
           (lit "/srv/agent/a.PDF") (lit "  Page  1 ") 2048).
  - reflexivity.
  - reflexivity.
  - reflexivity.
  - discriminate.
  - reflexivity.
  - reflexivity.
  - reflexivity.
Defined.

Lemma weather_missing_sections_witness :
  WeatherFetcherTool_execute (Demo.replying []) (service (PDict [(lit "cod", PInt 200)]))
    (PStr (lit "Paris"))
  = lit "Current weather in " ++ lit "Paris" ++ lit ":" ++ [10]
    ++ lit "- Condition: N/A (N/A)" ++ [10]
    ++ lit "- Temperature: N/A" ++ [176] ++ lit "C (Feels like: N/A" ++ [176] ++ lit "C)" ++ [10]
    ++ lit "- Humidity: N/A%" ++ [10]
    ++ lit "- Wind Speed: N/A m/s".
Proof.
  apply (weather_missing_sections (Demo.replying []) (service (PDict [(lit "cod", PInt 200)]))
           (lit "Paris") (lit "k") [(lit "cod", PInt 200)] (PInt 200));
    try reflexivity; discriminate.
Defined.

Lemma weather_without_entries_witness :
  WeatherFetcherTool_execute (Demo.replying [])
    (service (PDict [(lit "cod", PStr (lit "200")); (lit "weather", PList [])]))
    (PStr (lit "Paris"))
  = lit "An unexpected error occurred while fetching weather for " ++ lit "Paris" ++ lit ": "
    ++ lit "list index out of range".
Proof.
  apply (weather_without_entries (Demo.replying [])
           (service (PDict [(lit "cod", PStr (lit "200")); (lit "weather", PList [])]))
           (lit "Paris") (lit "k") [(lit "cod", PStr (lit "200")); (lit "weather", PList [])]
           (PStr (lit "200")) (PList [])); try reflexivity; try discriminate.
  now left.
Defined.

Lemma upload_with_two_dots_is_refused_witness :
  exists m,
    FileReaderTool_execute (Demo.replying [])
      (PStr (destination_path desk (lit "/tmp/gradio/report..final.pdf")))
    = Returns (PStr m)
    /\ (m = lit "Error: Access denied. Path is outside allowed directory."
        \/ m = lit "Error: Path should not contain '..'.").
Proof.
  apply (upload_with_two_dots_is_refused (Demo.replying []) desk
           (lit "/tmp/gradio/report..final.pdf")).
  reflexivity.
Defined.

Example upload_examples :
  destination_path desk (lit "/tmp/gradio/my report (1).pdf") = lit "uploads/myreport1.pdf"
  /\ destination_path desk (lit "/tmp/gradio/###") = lit "uploads/uploaded_file"
  /\ FileReaderTool_execute (Demo.replying [])
       (PStr (destination_path desk (lit "/tmp/gradio/report..final.pdf")))
     = Returns (PStr (lit "Error: Path should not contain '..'.")).
Proof. repeat split; vm_compute; reflexivity. Qed.

(** X25 on a question for the calculator. *)
Lemma chat_answer_is_text_witness :
  fst (agent_chat_interface (Demo.replying calculator_reply) desk
         (Some (agent calculator_reply)) (Some (lit " What is 2+2? ")) None)
  = fst (process_request (Demo.replying calculator_reply) (agent calculator_reply)
           (lit "What is 2+2?"))
  /\ ((exists response,
         snd (process_request (Demo.replying calculator_reply) (agent calculator_reply)
                (lit "What is 2+2?")) = Returns response
         /\ snd (agent_chat_interface (Demo.replying calculator_reply) desk
                   (Some (agent calculator_reply)) (Some (lit " What is 2+2? ")) None)
            = Returns (py_str (Demo.replying calculator_reply) response))
      \/ (exists x,
         snd (process_request (Demo.replying calculator_reply) (agent calculator_reply)
                (lit "What is 2+2?")) = Exits x
         /\ snd (agent_chat_interface (Demo.replying calculator_reply) desk
                   (Some (agent calculator_reply)) (Some (lit " What is 2+2? ")) None)
            = Exits x)).
Proof.
  apply (proj1 (proj2 (chat_answer_is_text (Demo.replying calculator_reply) desk
                         (Some (agent calculator_reply)) (Some (lit " What is 2+2? ")) None))
           (agent calculator_reply)); reflexivity.
Defined.

Example chat_answer_example :
  snd (agent_chat_interface (Demo.replying calculator_reply) desk
         (Some (agent calculator_reply)) (Some (lit " What is 2+2? ")) None)
  = Returns (lit "4.0")
  /\ snd (agent_chat_interface (throwing (lit "10") SystemExit) desk
            (Some (AIAgent_init (throwing (lit "10") SystemExit))) (Some (lit "hello")) None)
     = Exits SystemExit.
Proof. split; vm_compute; reflexivity. Qed.


Lemma cli_stops_at_quit_witness :
  run_cli (Demo.replying calculator_reply) keyed_host [] 
    ([Typed (lit "What is 2+2?")] ++ Typed (lit "  QuIt ") :: [Typed (lit "more")])
  = run_cli (Demo.replying calculator_reply) keyed_host []
      ([Typed (lit "What is 2+2?")] ++ Typed (lit "  QuIt ") :: []).
Proof.
  apply (cli_stops_at_quit (Demo.replying calculator_reply) keyed_host []
           [Typed (lit "What is 2+2?")] (lit "  QuIt ") [Typed (lit "more")] []).
  reflexivity.
Defined.

Example cli_example :
  session_output
    (run_cli (Demo.replying calculator_reply) keyed_host []
       [Typed (lit "What is 2+2?"); Typed (lit "   "); Typed (lit "  QuIt ");
        Typed (lit "more")])
  = [lit "AI Agent CLI initialized. Type 'exit' or 'quit' to end."; lit "4.0";
     lit "Exiting agent."]
  /\ run_cli (Demo.replying calculator_reply) bare_host [] [Typed (lit "What is 2+2?")]
     = {| session_events := [];
          session_output :=
            [lit "Error: TOGETHER_API_KEY not set. Please add it to your .env file.";
             lit "Failed to initialize the AI Agent. Exiting CLI."];
          session_left_by := None |}.
Proof. split; vm_compute; reflexivity. Qed.

(** A request that is left by a keyboard interrupt ends the loop with the
    line of line 276; one that is left by [SystemExit] leaves [run_cli], and
    the input that follows is not read. *)
Example cli_interrupted_example :
  (let run := run_cli (throwing (lit "17") KeyboardInterrupt) keyed_host []
                [Typed (lit "hello"); Typed (lit "more")] in
   session_output run
   = [lit "AI Agent CLI initialized. Type 'exit' or 'quit' to end."; exit_line]
   /\ completions (session_events run) = 1%nat
   /\ session_left_by run = None)
  /\ (let run := run_cli (throwing (lit "10") SystemExit) keyed_host []
                   [Typed (lit "hello"); Typed (lit "more")] in
      session_output run = [lit "AI Agent CLI initialized. Type 'exit' or 'quit' to end."]
      /\ completions (session_events run) = 1%nat
      /\ session_left_by run = Some SystemExit).
Proof. repeat split; vm_compute; reflexivity. Qed.

Lemma wrapped_reply_same_decision_witness :
  interpret (Demo.replying [])
    (lit " " ++ fence ++ [10] ++ calculator_reply ++ [10; 32] ++ fence ++ [10])
  = PDict [(lit "tool", PStr (lit "calculator"));
           (lit "parameters", PDict [(lit "expression", PStr (lit "2+2"))])].
Proof.
  apply (wrapped_reply_same_decision (Demo.replying []) calculator_reply (lit " ") [10]
           [10; 32] [10] fence fence).
  - vm_compute; reflexivity.
  - reflexivity.
  - reflexivity.
  - reflexivity.
  - reflexivity.
  - reflexivity.
  - right. left. reflexivity.
  - right. left. reflexivity.
Defined.

Example wrapped_reply_examples :
  let rt := Demo.replying [] in
  interpret rt (fence_json ++ calculator_reply) = interpret rt calculator_reply
  /\ interpret rt (calculator_reply ++ [10] ++ fence) = interpret rt calculator_reply
  /\ interpret rt ([9] ++ fence ++ calculator_reply ++ fence) = interpret rt calculator_reply.
Proof. repeat split; vm_compute; reflexivity. Qed.
